(** * Purple Bird mailer client: the Netlify function, verified

    A shallow embedding of [netlify-function.js] (the proxy that accepts a
    form post as JSON or as [multipart/form-data], strips the control
    fields, re-encodes the submission and relays the mailer's answer) and
    the properties of it that the specification states.

    Conventions of the embedding.
    - A JavaScript string is held as the byte sequence of its UTF-8
      encoding, in a Rocq [string]; [Buffer.from(s, 'utf8')] is then a
      change of type.  A [Buffer] is a [list byte].
    - Everything the function does not define itself is a field of
      [Runtime]: [JSON.parse], [JSON.stringify], [fetch], the clock and the
      random source behind the boundary token, and the Busboy parser, which
      is given by the events it emits for a request.
    - The effects of a run are kept in a [World]: the requests handed to
      [fetch] and the lines written with [console.error].  Debug logging
      ([configLog]) writes to the console only and is left out. *)

From Stdlib Require Import String Ascii List NArith Lia Bool DecimalString Sorted.
From Stdlib.Strings Require Import Byte.
From Stdlib Require Import Floats.
From stdpp Require Import base option list strings gmap.
Import ListNotations.
Open Scope string_scope.
Open Scope list_scope.

(** ** Bytes and text *)

Definition Buffer := list byte.

#[global] Instance byte_eq_decision : EqDecision byte := byte_eq_dec.

(** [Buffer.from(s, 'utf8')] *)
Definition Buffer_from (s : string) : Buffer := list_byte_of_string s.

(** [Buffer.concat(chunks)] *)
Definition Buffer_concat (chunks : list Buffer) : Buffer := concat chunks.

Module Text.

(** [hay.includes(needle)] *)
Fixpoint includes (hay needle : string) : bool :=
  if String.prefix needle hay then true
  else match hay with
       | EmptyString => false
       | String _ hay' => includes hay' needle
       end.

(** The length in bytes of the white space character (ECMAScript
    WhiteSpace or LineTerminator) that [s] starts with, [0] when it starts
    with none.  One byte: TAB, LF, VT, FF, CR, SP.  Two bytes: U+00A0.
    Three bytes: U+1680, U+2000..U+200A, U+2028, U+2029, U+202F, U+205F,
    U+3000, U+FEFF. *)
Definition ws_width (s : string) : nat :=
  match list_byte_of_string s with
  | (x09 | x0a | x0b | x0c | x0d | x20) :: _ => 1
  | xc2 :: xa0 :: _ => 2
  | xe1 :: x9a :: x80 :: _ => 3
  | xe2 :: x80 :: (x80 | x81 | x82 | x83 | x84 | x85 | x86 | x87 | x88
                   | x89 | x8a | xa8 | xa9 | xaf) :: _ => 3
  | xe2 :: x81 :: x9f :: _ => 3
  | xe3 :: x80 :: x80 :: _ => 3
  | xef :: xbb :: xbf :: _ => 3
  | _ => 0
  end.

Fixpoint drop_bytes (n : nat) (s : string) : string :=
  match n, s with
  | S n', String _ s' => drop_bytes n' s'
  | _, _ => s
  end.

(** White space stripped from the front; [fuel] bounds the number of
    characters removed. *)
Fixpoint trimStart_fuel (fuel : nat) (s : string) : string :=
  match fuel with
  | 0 => s
  | S fuel' =>
      match ws_width s with
      | 0 => s
      | w => trimStart_fuel fuel' (drop_bytes w s)
      end
  end.

(** [s.trimStart()] *)
Definition trimStart (s : string) : string :=
  trimStart_fuel (String.length s) s.

(** [s.trim() === ''] : [s] is made of white space only. *)
Definition blank (s : string) : bool :=
  match trimStart s with EmptyString => true | _ => false end.

(** [s.trimEnd()] : the longest prefix that white space does not end. *)
Fixpoint trimEnd (s : string) : string :=
  if blank s then EmptyString
  else match s with
       | EmptyString => EmptyString
       | String c s' => String c (trimEnd s')
       end.

(** [s.trim()] *)
Definition trim (s : string) : string := trimEnd (trimStart s).

(** [`${n}`] for a non-negative integer. *)
Definition of_N (n : N) : string := NilEmpty.string_of_uint (N.to_uint n).

(** [s.substring(0, n)], counted in bytes of the UTF-8 form; the source
    counts UTF-16 code units, which is the same for ASCII text.  Only the
    preview written to [console.error] is cut this way. *)
Definition preview (n : nat) (s : string) : string := String.substring 0 n s.

End Text.

(** ** JavaScript objects used as maps

    An ordinary object is held as the list of its own properties in the
    order of their creation.  [Object.entries] does not list them in that
    order: the keys that are array indices (canonical decimal numerals up to
    2^32 - 2) come first, in ascending numeric order, and the other keys
    follow in creation order. *)

Module JsObject.

Definition digit_of (c : ascii) : option N :=
  let n := N_of_ascii c in
  if ((48 <=? n) && (n <=? 57))%N then Some (n - 48)%N else None.

Fixpoint digits_value (acc : N) (s : string) : option N :=
  match s with
  | EmptyString => Some acc
  | String c s' =>
      match digit_of c with
      | Some d => digits_value (10 * acc + d)%N s'
      | None => None
      end
  end.

(** The array index a property key denotes, if it is one. *)
Definition array_index (k : string) : option N :=
  match digits_value 0 k with
  | Some n =>
      if (Text.of_N n =? k) && (n <=? 4294967294)%N then Some n else None
  | None => None
  end.

Definition is_index (k : string) : bool :=
  match array_index k with Some _ => true | None => false end.

Section Props.
Context {V : Type}.

Definition has (k : string) (o : list (string * V)) : bool :=
  existsb (fun p => fst p =? k) o.

Definition replace (k : string) (v : V) (o : list (string * V)) :=
  map (fun p => if fst p =? k then (k, v) else p) o.

(** [o[k] = v] on an object whose prototype is [Object.prototype] and
    whose properties are all plain data properties.  The key
    [__proto__] reaches the inherited setter, which ignores a value
    that is neither an object nor [null]: the assignment of a string
    creates no property. *)
Definition set (k : string) (v : V) (o : list (string * V)) :=
  if k =? "__proto__" then o
  else if has k o then replace k v o
  else o ++ [(k, v)].

(** [delete o[k]] *)
Definition delete (k : string) (o : list (string * V)) :=
  List.filter (fun p => negb (fst p =? k)) o.

Fixpoint insert_index (n : N) (p : string * V)
    (l : list (N * (string * V))) : list (N * (string * V)) :=
  match l with
  | [] => [(n, p)]
  | (m, q) :: l' =>
      if (n <? m)%N then (n, p) :: l else (m, q) :: insert_index n p l'
  end.

(** The properties with an array index as key, in ascending order. *)
Fixpoint index_entries (o : list (string * V)) : list (N * (string * V)) :=
  match o with
  | [] => []
  | p :: o' =>
      match array_index (fst p) with
      | Some n => insert_index n p (index_entries o')
      | None => index_entries o'
      end
  end.

Definition named_entries (o : list (string * V)) : list (string * V) :=
  List.filter (fun p => negb (is_index (fst p))) o.

(** [Object.entries(o)] *)
Definition entries (o : list (string * V)) : list (string * V) :=
  map snd (index_entries o) ++ named_entries o.

End Props.

End JsObject.

(** ** JSON values *)

#[local] Unset Elimination Schemes.
Inductive JSON : Type :=
| JNull
| JBool (b : bool)
| JNum (x : float)
| JStr (s : string)
| JArr (items : list JSON)
| JObj (props : list (string * JSON)).
#[local] Set Elimination Schemes.

(** [delete j[k]] on a value out of [JSON.parse]: a property of an object
    is removed, an array or a primitive has no such property and is left as
    it is, and [null] has no properties at all, which is a [TypeError]. *)
Definition json_delete (k : string) (j : JSON) : string + JSON :=
  match j with
  | JNull => inl "Cannot convert undefined or null to object"
  | JObj props => inr (JObj (JsObject.delete k props))
  | _ => inr j
  end.

(** ** The host: requests, responses, the runtime and its effects *)

Inductive RequestBody :=
| TextBody (s : string)
| BinaryBody (b : Buffer).

Record Request := {
  req_url : string;
  req_method : string;
  req_authorization : string;
  req_content_type : string;
  req_body : RequestBody
}.

(** What [fetch] resolves to.  [res_content_type] is
    [headers.get('content-type')], [res_text] the body as text. *)
Record MailerResponse := {
  res_status : N;
  res_content_type : option string;
  res_text : string
}.

(** [response.ok] *)
Definition res_ok (r : MailerResponse) : bool :=
  ((200 <=? res_status r) && (res_status r <=? 299))%N.

(** The event the serverless host passes to the handler. *)
Record LambdaEvent := {
  httpMethod : string;
  ev_headers : gmap string string;
  ev_body : option string;
  isBase64Encoded : bool
}.

(** What the handler returns to the host. *)
Record HandlerResponse := {
  statusCode : N;
  headers : list (string * string);
  body : string
}.

(** The events of one multipart parse.  A file event opens a stream; the
    streams of a parse are numbered from [0] in the order of their file
    events, and the stream events carry that number. *)
Inductive PartEvent :=
| OnField (name value : string)
| OnFile (name : string) (filename : option string) (mimeType : string)
| OnData (stream : nat) (chunk : Buffer)
| OnEnd (stream : nat)
| OnFileError (stream : nat) (message : string)
| OnFinish
| OnError (message : string).

(** A thrown [Error] is held as its message. In [JSON_parse] and [fetch]
    the left injection is the exception. *)
Record Runtime := {
  JSON_parse : string -> string + JSON;
  JSON_stringify : JSON -> string;
  fetch : Request -> string + MailerResponse;
  (** [Date.now()] and [Math.random().toString(36).substr(2, 9)] at the one
      point of a request where the boundary is made *)
  Date_now : N;
  Math_random_36 : string;
  (** the events that Busboy and its file streams emit, in the order in
      which their listeners run, when the parser is given the decoded body
      of the event; a parser that cannot be set up (no boundary in the
      header) is the single event of an error *)
  Busboy : LambdaEvent -> list PartEvent
}.

(** A line of [console.error]. *)
Inductive LogLine :=
| LogSubmitError (message : string)
| LogFileError (filename message : string)
| LogParsingError (message : string)
| LogNonJson (status : N) (contentType : string) (url : option string)
    (responsePreview : string)
| LogApiError (status : N) (body : JSON).

Record World := {
  calls : list Request;
  console_error : list LogLine
}.

Definition quiet : World := {| calls := []; console_error := [] |}.

(** ** Computations with effects and exceptions *)

Inductive Completion (A : Type) : Type :=
| Normal (a : A)
| Throw (message : string).
Arguments Normal {A} a.
Arguments Throw {A} message.

Definition Eff (A : Type) : Type := World -> Completion A * World.

#[global] Instance Eff_ret : MRet Eff := fun A a w => (Normal a, w).

#[global] Instance Eff_bind : MBind Eff := fun A B k m w =>
  match m w with
  | (Normal a, w') => k a w'
  | (Throw e, w') => (Throw e, w')
  end.

Definition throw {A} (message : string) : Eff A := fun w => (Throw message, w).

(** A value that a runtime function returned or threw. *)
Definition lift {A} (r : string + A) : Eff A :=
  match r with inl e => throw e | inr a => mret a end.

(** [try { m } catch (error) { h error }] *)
Definition try_catch {A} (m : Eff A) (h : string -> Eff A) : Eff A := fun w =>
  match m w with
  | (Normal a, w') => (Normal a, w')
  | (Throw e, w') => h e w'
  end.

Definition logError (l : LogLine) : Eff unit := fun w =>
  (Normal tt, {| calls := calls w; console_error := console_error w ++ [l] |}).

(** [await fetch(...)]: the request is recorded, then the runtime answers. *)
Definition call_fetch (rt : Runtime) (req : Request) : Eff MailerResponse :=
  fun w =>
    let w' := {| calls := calls w ++ [req]; console_error := console_error w |} in
    match fetch rt req with
    | inl e => (Throw e, w')
    | inr r => (Normal r, w')
    end.

(** ** Configuration and the shared pieces of a response *)

Record Config := {
  baseUrl : option string;
  formId : option string;
  apiKey : option string
}.

(** [process.env] *)
Record ProcessEnv := {
  env_MAILER_BASE_URL : option string;
  env_MAILER_FORM_ID : option string;
  env_MAILER_FORM_API_KEY : option string
}.

(** The three settings once they are known to be present. *)
Record Settings := {
  MAILER_BASE_URL : string;
  MAILER_FORM_ID : string;
  MAILER_FORM_API_KEY : string
}.

(** A value that is [undefined] or a string is truthy when it is a string
    that is not empty. *)
Definition truthy (x : option string) : bool :=
  match x with Some (String _ _) => true | _ => false end.

(** [x || y] *)
Definition js_or (x y : option string) : option string :=
  if truthy x then x else y.

(** [x || 'literal'] *)
Definition or_else (x : option string) (d : string) : string :=
  match x with Some (String c s) => String c s | _ => d end.

Definition json_headers : list (string * string) :=
  [("Content-Type", "application/json"); ("Access-Control-Allow-Origin", "*")].

Definition missing_configuration : string :=
  "Missing required configuration: baseUrl, formId, and apiKey must be provided either via createMailerHandler() or environment variables (MAILER_BASE_URL, MAILER_FORM_ID, MAILER_FORM_API_KEY)".

(** The state of the promise a request handler returns. *)
Inductive Promise (A : Type) : Type :=
| Pending
| Resolved (a : A)
| Rejected (message : string).
Arguments Pending {A}.
Arguments Resolved {A} a.
Arguments Rejected {A} message.

(** What the host sees of a call of the handler. *)
Inductive Outcome :=
| Returns (r : HandlerResponse)
| NeverSettles.

(** ** The JSON path *)

Section Handlers.

Variable rt : Runtime.

(** [`Mailer API returned invalid response (${status}). Check mailer logs.`] *)
Definition invalid_response_message (status : N) : string :=
  "Mailer API returned invalid response (" +:+ Text.of_N status +:+
  "). Check mailer logs.".

(** The statements of [handleJsonRequest] after [await fetch(...)]:
    the reply of the mailer turned into the reply to the caller. *)
Definition relay_json (config : Settings) (mailerResponse : MailerResponse)
    : Eff HandlerResponse :=
  let responseContentType := or_else (res_content_type mailerResponse) EmptyString in
  if Text.includes responseContentType "application/json" then
    mailerJson ← lift (JSON_parse rt (res_text mailerResponse));
    if negb (res_ok mailerResponse) then
      mret {| statusCode := res_status mailerResponse;
              headers := json_headers;
              body := JSON_stringify rt mailerJson |}
    else
      mret {| statusCode := 200;
              headers := json_headers;
              body := JSON_stringify rt
                (JObj [("success", JBool true); ("data", mailerJson)]) |}
  else
    let text := res_text mailerResponse in
    _ ← logError (LogNonJson (res_status mailerResponse) responseContentType
           (Some (MAILER_BASE_URL config +:+ "/form-submissions"))
           (Text.preview 200 text));
    mret {| statusCode :=
              if (res_status mailerResponse =? 0)%N then 500%N
              else res_status mailerResponse;
            headers := json_headers;
            body := JSON_stringify rt
              (JObj [("success", JBool false);
                     ("error", JStr (invalid_response_message
                                       (res_status mailerResponse)));
                     ("details", JStr
                        (if Text.includes responseContentType "html"
                         then "Received HTML instead of JSON - check mailer URL"
                         else "Content-Type: " +:+ responseContentType))]) |}.

(** The request of the JSON path for a body that was parsed and cleaned. *)
Definition json_request (config : Settings) (formData : JSON) : Request :=
  {| req_url := MAILER_BASE_URL config +:+ "/form-submissions";
     req_method := "POST";
     req_authorization := "Bearer " +:+ MAILER_FORM_API_KEY config;
     req_content_type := "application/json";
     req_body := TextBody (JSON_stringify rt
       (JObj [("formId", JStr (MAILER_FORM_ID config));
              ("formData", formData)])) |}.

Definition handleJsonRequest (event : LambdaEvent) (config : Settings)
    : Eff HandlerResponse :=
  body ← lift (JSON_parse rt (or_else (ev_body event) "{}"));
  body ← lift (json_delete "form-name" body);
  body ← lift (json_delete "bot-field" body);
  mailerResponse ← call_fetch rt (json_request config body);
  relay_json config mailerResponse.

End Handlers.

(** ** The multipart path: what is accumulated *)

(** An element of [files]. *)
Record FilePart := {
  fp_name : string;
  fp_filename : string;
  fp_type : string;
  fp_buffer : Buffer;
  fp_size : nat
}.

(** The variables a file handler closes over, for a stream that was given
    listeners. *)
Record FileStream := {
  fs_name : string;
  fs_filename : string;
  fs_mimeType : string;
  fs_chunks : list Buffer
}.

(** The variables of one call of [handleMultipartRequest].  [streams] holds,
    per file stream, the closure of its listeners, or [None] for a stream
    that was resumed without listeners. *)
Record Submission := {
  fields : list (string * string);
  files : list FilePart;
  fieldsProcessed : bool;
  pendingFiles : nat;
  completedFiles : nat;
  streams : list (option FileStream);
  promise : Promise HandlerResponse
}.

Definition start : Submission :=
  {| fields := []; files := []; fieldsProcessed := false;
     pendingFiles := 0; completedFiles := 0; streams := [];
     promise := Pending |}.

Definition set_fields (f : list (string * string)) (s : Submission) :=
  {| fields := f; files := files s; fieldsProcessed := fieldsProcessed s;
     pendingFiles := pendingFiles s; completedFiles := completedFiles s;
     streams := streams s; promise := promise s |}.

Definition set_files (f : list FilePart) (s : Submission) :=
  {| fields := fields s; files := f; fieldsProcessed := fieldsProcessed s;
     pendingFiles := pendingFiles s; completedFiles := completedFiles s;
     streams := streams s; promise := promise s |}.

Definition set_fieldsProcessed (b : bool) (s : Submission) :=
  {| fields := fields s; files := files s; fieldsProcessed := b;
     pendingFiles := pendingFiles s; completedFiles := completedFiles s;
     streams := streams s; promise := promise s |}.

Definition set_pendingFiles (n : nat) (s : Submission) :=
  {| fields := fields s; files := files s; fieldsProcessed := fieldsProcessed s;
     pendingFiles := n; completedFiles := completedFiles s;
     streams := streams s; promise := promise s |}.

Definition set_completedFiles (n : nat) (s : Submission) :=
  {| fields := fields s; files := files s; fieldsProcessed := fieldsProcessed s;
     pendingFiles := pendingFiles s; completedFiles := n;
     streams := streams s; promise := promise s |}.

Definition set_streams (l : list (option FileStream)) (s : Submission) :=
  {| fields := fields s; files := files s; fieldsProcessed := fieldsProcessed s;
     pendingFiles := pendingFiles s; completedFiles := completedFiles s;
     streams := l; promise := promise s |}.

(** [resolve] and [reject] settle a promise that is still pending and do
    nothing to one that is settled. *)
Definition settle (p : Promise HandlerResponse) (s : Submission) :=
  match promise s with
  | Pending =>
      {| fields := fields s; files := files s;
         fieldsProcessed := fieldsProcessed s;
         pendingFiles := pendingFiles s; completedFiles := completedFiles s;
         streams := streams s; promise := p |}
  | _ => s
  end.

Definition resolve (r : HandlerResponse) := settle (Resolved r).
Definition reject (message : string) := settle (Rejected message).

(** ** The multipart path: the body that is built *)

Definition CRLF : string :=
  String (ascii_of_nat 13) (String (ascii_of_nat 10) EmptyString).

(** The double quote. *)
Definition DQ : string := String (ascii_of_nat 34) EmptyString.

(** An element of the array [parts]: a string or a [Buffer]. *)
Inductive Segment :=
| Str (s : string)
| Buf (b : Buffer).

(** [Buffer.isBuffer(part) ? part : Buffer.from(part, 'utf8')] *)
Definition to_buffer (part : Segment) : Buffer :=
  match part with
  | Buf b => b
  | Str s => Buffer_from s
  end.

(** The name is kept from the fields that are sent. *)
Definition forwarded_name (name : string) : bool :=
  negb (name =? "formId") && negb (name =? "form-name") &&
  negb (name =? "bot-field").

Definition text_part (boundary name value : string) : list Segment :=
  [ Str ("--" +:+ boundary +:+ CRLF);
    Str ("Content-Disposition: form-data; name=" +:+ DQ +:+ name +:+ DQ +:+ CRLF);
    Str CRLF;
    Str value;
    Str CRLF ].

Definition file_part (boundary : string) (file : FilePart) : list Segment :=
  [ Str ("--" +:+ boundary +:+ CRLF);
    Str ("Content-Disposition: form-data; name=" +:+ DQ +:+ fp_name file +:+ DQ
         +:+ "; filename=" +:+ DQ +:+ fp_filename file +:+ DQ +:+ CRLF);
    Str ("Content-Type: " +:+ fp_type file +:+ CRLF);
    Str CRLF;
    Buf (fp_buffer file);
    Str CRLF ].

(** The fields that get a part, in the order of the loop over
    [Object.entries(fields)]. *)
Definition forwarded_fields (flds : list (string * string))
    : list (string * string) :=
  List.filter (fun p => forwarded_name (fst p)) (JsObject.entries flds).

(** The array [parts] when the loops are done. *)
Definition build_parts (boundary formIdValue : string)
    (flds : list (string * string)) (fls : list FilePart) : list Segment :=
  text_part boundary "formId" formIdValue
  ++ flat_map (fun p => text_part boundary (fst p) (snd p)) (forwarded_fields flds)
  ++ flat_map (file_part boundary) fls
  ++ [ Str ("--" +:+ boundary +:+ "--" +:+ CRLF) ].

(** [multipartBody] *)
Definition multipart_body (boundary formIdValue : string)
    (flds : list (string * string)) (fls : list FilePart) : Buffer :=
  Buffer_concat (map to_buffer (build_parts boundary formIdValue flds fls)).

Section Multipart.

Variable rt : Runtime.
Variable config : Settings.

(** [`----formdata-${Date.now()}-${Math.random().toString(36).substr(2, 9)}`] *)
Definition make_boundary : string :=
  "----formdata-" +:+ Text.of_N (Date_now rt) +:+ "-" +:+ Math_random_36 rt.

(** The statements of [forwardRequest] after [await fetch(...)]: the
    reply of the mailer turned into the value passed to [resolve]. *)
Definition relay_upload (mailerResponse : MailerResponse)
    : Eff HandlerResponse :=
  let responseContentType := or_else (res_content_type mailerResponse) EmptyString in
  if Text.includes responseContentType "application/json" then
    mailerJson ← lift (JSON_parse rt (res_text mailerResponse));
    if negb (res_ok mailerResponse) then
      _ ← logError (LogApiError (res_status mailerResponse) mailerJson);
      mret {| statusCode := res_status mailerResponse;
              headers := json_headers;
              body := JSON_stringify rt mailerJson |}
    else
      mret {| statusCode := 200;
              headers := json_headers;
              body := JSON_stringify rt
                (JObj [("success", JBool true); ("data", mailerJson)]) |}
  else
    let text := res_text mailerResponse in
    _ ← logError (LogNonJson (res_status mailerResponse) responseContentType
           None (Text.preview 200 text));
    mret {| statusCode :=
              if (res_status mailerResponse =? 0)%N then 500%N
              else res_status mailerResponse;
            headers := json_headers;
            body := JSON_stringify rt
              (JObj [("success", JBool false);
                     ("error", JStr (invalid_response_message
                                       (res_status mailerResponse)));
                     ("details", JStr
                        (if Text.includes responseContentType "html"
                         then "Received HTML instead of JSON"
                         else "Content-Type: " +:+ responseContentType))]) |}.

(** The request of the multipart path for the fields and files at hand. *)
Definition upload_request (formIdValue : string) (s : Submission) : Request :=
  let boundary := make_boundary in
  let multipartBody := multipart_body boundary formIdValue (fields s) (files s) in
  let uploadUrl := MAILER_BASE_URL config +:+ "/form-submissions-upload" in
  {| req_url := uploadUrl;
     req_method := "POST";
     req_authorization := "Bearer " +:+ MAILER_FORM_API_KEY config;
     req_content_type := "multipart/form-data; boundary=" +:+ boundary;
     req_body := BinaryBody multipartBody |}.

(** The [try] block of [forwardRequest]; the value is what is passed to
    [resolve]. *)
Definition forwardRequest_try (s : Submission) : Eff HandlerResponse :=
  _ ← (if MAILER_FORM_ID config =? EmptyString
       then throw "MAILER_FORM_ID environment variable is not set"
       else mret tt);
  let formIdValue := Text.trim (MAILER_FORM_ID config) in
  _ ← (if formIdValue =? EmptyString
       then throw "MAILER_FORM_ID is empty or invalid"
       else mret tt);
  mailerResponse ← call_fetch rt (upload_request formIdValue s);
  relay_upload mailerResponse.

(** [forwardRequest()]: the reply of the mailer is taken at the call. *)
Definition forwardRequest (s : Submission) (w : World) : Submission * World :=
  match forwardRequest_try s w with
  | (Normal r, w') => (resolve r s, w')
  | (Throw e, w') => (reject e s, w')
  end.

Definition checkAndForward (s : Submission) (w : World) : Submission * World :=
  if fieldsProcessed s &&
     ((pendingFiles s =? 0)%nat || (completedFiles s =? pendingFiles s)%nat)
  then forwardRequest s w
  else (s, w).

(** [busboy.on('field', ...)] *)
Definition on_field (name value : string) (s : Submission) : Submission :=
  if (name =? "form-name") || (name =? "bot-field") then s
  else set_fields (JsObject.set name value (fields s)) s.

(** [!filename || filename.trim() === ''] *)
Definition no_filename (filename : option string) : bool :=
  negb (truthy filename) ||
  match filename with Some f => Text.blank f | None => true end.

(** [busboy.on('file', ...)] *)
Definition on_file (name : string) (filename : option string)
    (mimeType : string) (s : Submission) : Submission :=
  if no_filename filename then
    set_streams (streams s ++ [None]) s
  else
    set_pendingFiles (pendingFiles s + 1)
      (set_streams
         (streams s ++
            [Some {| fs_name := name; fs_filename := or_else filename EmptyString;
                     fs_mimeType := mimeType; fs_chunks := [] |}]) s).

(** [file.on('data', ...)] *)
Definition on_data (stream : nat) (chunk : Buffer) (s : Submission)
    : Submission :=
  match streams s !! stream with
  | Some (Some fs) =>
      set_streams
        (<[stream := Some {| fs_name := fs_name fs;
                             fs_filename := fs_filename fs;
                             fs_mimeType := fs_mimeType fs;
                             fs_chunks := fs_chunks fs ++ [chunk] |}]>
           (streams s)) s
  | _ => s
  end.

(** [file.on('end', ...)] *)
Definition on_end (stream : nat) (s : Submission) (w : World)
    : Submission * World :=
  match streams s !! stream with
  | Some (Some fs) =>
      let buffer := Buffer_concat (fs_chunks fs) in
      let s1 :=
        if (0 <? length buffer)%nat then
          set_files (files s ++
            [{| fp_name := fs_name fs; fp_filename := fs_filename fs;
                fp_type := fs_mimeType fs; fp_buffer := buffer;
                fp_size := length buffer |}]) s
        else s in
      checkAndForward (set_completedFiles (completedFiles s1 + 1) s1) w
  | _ => (s, w)
  end.

(** [file.on('error', ...)] *)
Definition on_file_error (stream : nat) (message : string) (s : Submission)
    (w : World) : Submission * World :=
  match streams s !! stream with
  | Some (Some fs) =>
      (s, snd (logError (LogFileError (fs_filename fs) message) w))
  | _ => (s, w)
  end.

(** [busboy.on('finish', ...)] *)
Definition on_finish (s : Submission) (w : World) : Submission * World :=
  let s1 := set_fieldsProcessed true s in
  if (pendingFiles s1 =? 0)%nat then forwardRequest s1 w
  else checkAndForward s1 w.

(** [busboy.on('error', ...)] *)
Definition on_error (message : string) (s : Submission) (w : World)
    : Submission * World :=
  (reject message s, snd (logError (LogParsingError message) w)).

(** The listener that an event reaches. *)
Definition dispatch (e : PartEvent) (s : Submission) (w : World)
    : Submission * World :=
  match e with
  | OnField name value => (on_field name value s, w)
  | OnFile name filename mimeType => (on_file name filename mimeType s, w)
  | OnData stream chunk => (on_data stream chunk s, w)
  | OnEnd stream => on_end stream s w
  | OnFileError stream message => on_file_error stream message s w
  | OnFinish => on_finish s w
  | OnError message => on_error message s w
  end.

(** The listeners run over a sequence of events. *)
Definition run (trace : list PartEvent) (sw : Submission * World)
    : Submission * World :=
  fold_left (fun sw e => dispatch e (fst sw) (snd sw)) trace sw.

Definition handleMultipartRequest (event : LambdaEvent) (w : World)
    : Promise HandlerResponse * World :=
  let sw := run (Busboy rt event) (start, w) in
  (promise (fst sw), snd sw).

End Multipart.

(** ** The handler *)

Section Handler.

Variable rt : Runtime.
Variable env : ProcessEnv.

(** The value of a setting when it is truthy. *)
Definition present (x : option string) : option string :=
  if truthy x then x else None.

(** The [catch] of the handler. *)
Definition on_exception (message : string) (w : World) : Outcome * World :=
  (Returns {| statusCode := 500;
              headers := json_headers;
              body := JSON_stringify rt
                (JObj [("success", JBool false);
                       ("error", JStr (or_else (Some message)
                                         "Internal server error"))]) |},
   snd (logError (LogSubmitError message) w)).

(** The three settings, from the argument or else from the environment,
    when none is missing: the negation of
    [!MAILER_BASE_URL || !MAILER_FORM_ID || !MAILER_FORM_API_KEY]. *)
Definition settings_of (config : Config) : option Settings :=
  let MAILER_BASE_URL := js_or (baseUrl config) (env_MAILER_BASE_URL env) in
  let MAILER_FORM_ID := js_or (formId config) (env_MAILER_FORM_ID env) in
  let MAILER_FORM_API_KEY := js_or (apiKey config) (env_MAILER_FORM_API_KEY env) in
  match present MAILER_BASE_URL, present MAILER_FORM_ID,
        present MAILER_FORM_API_KEY with
  | Some url, Some id, Some key =>
      Some {| MAILER_BASE_URL := url; MAILER_FORM_ID := id;
              MAILER_FORM_API_KEY := key |}
  | _, _, _ => None
  end.

(** [event.headers['content-type'] || event.headers['Content-Type'] || ''] *)
Definition contentType_of (event : LambdaEvent) : string :=
  or_else (js_or (ev_headers event !! "content-type")
                 (ev_headers event !! "Content-Type")) EmptyString.

Definition isMultipart (event : LambdaEvent) : bool :=
  Text.includes (contentType_of event) "multipart/form-data".

(** [createMailerHandler(config)], applied to an event. *)
Definition createMailerHandler (config : Config) (event : LambdaEvent)
    (w : World) : Outcome * World :=
  if negb (httpMethod event =? "POST") then
    (Returns {| statusCode := 405;
                headers := json_headers;
                body := JSON_stringify rt
                  (JObj [("error", JStr "Method not allowed")]) |}, w)
  else
    match settings_of config with
    | None =>
        (Returns {| statusCode := 500;
                    headers := json_headers;
                    body := JSON_stringify rt
                      (JObj [("success", JBool false);
                             ("error", JStr missing_configuration)]) |}, w)
    | Some settings =>
        if isMultipart event then
          match handleMultipartRequest rt settings event w with
          | (Resolved r, w') => (Returns r, w')
          | (Rejected e, w') => on_exception e w'
          | (Pending, w') => (NeverSettles, w')
          end
        else
          match handleJsonRequest rt event settings w with
          | (Normal r, w') => (Returns r, w')
          | (Throw e, w') => on_exception e w'
          end
    end.

(** [exports.handler] *)
Definition handler := createMailerHandler
  {| baseUrl := None; formId := None; apiKey := None |}.

End Handler.

(** ** A runtime to run the model on *)

Module Sample.

(** A printer for JSON values without numbers and without characters
    that need escaping. *)
Fixpoint print (j : JSON) : string :=
  match j with
  | JNull => "null"
  | JBool true => "true"
  | JBool false => "false"
  | JNum _ => "0"
  | JStr s => DQ +:+ s +:+ DQ
  | JArr items =>
      "[" +:+
      (fix go (l : list JSON) : string :=
         match l with
         | [] => EmptyString
         | x :: l' =>
             print x +:+ match l' with [] => EmptyString | _ => "," end +:+ go l'
         end) items +:+ "]"
  | JObj props =>
      "{" +:+
      (fix go (l : list (string * JSON)) : string :=
         match l with
         | [] => EmptyString
         | p :: l' =>
             DQ +:+ fst p +:+ DQ +:+ ":" +:+ print (snd p) +:+
             match l' with [] => EmptyString | _ => "," end +:+ go l'
         end) props +:+ "}"
  end.

Definition ann : JSON := JObj [("name", JStr "Ann"); ("message", JStr "hi")].

Definition ann_marked : JSON :=
  JObj [("form-name", JStr "contact"); ("name", JStr "Ann");
        ("bot-field", JStr EmptyString); ("message", JStr "hi")].

Definition known : list JSON :=
  [ JObj []; JNull; ann; ann_marked; JObj [("ok", JBool true)];
    JObj [("success", JBool false); ("error", JStr "Form not found")] ].

(** A parser that knows the texts of [known] and rejects the rest. *)
Definition parse (s : string) : string + JSON :=
  match find (fun j => print j =? s) known with
  | Some j => inr j
  | None => inl "Unexpected token in JSON"
  end.

(** A runtime whose mailer gives one answer and whose parser emits one
    sequence of events. *)
Definition runtime (reply : string + MailerResponse)
    (trace : list PartEvent) : Runtime :=
  {| JSON_parse := parse;
     JSON_stringify := print;
     fetch := fun _ => reply;
     Date_now := 1700000000000;
     Math_random_36 := "k3j9x0q2a";
     Busboy := fun _ => trace |}.

Definition config : Config :=
  {| baseUrl := Some "https://mailer.example/api";
     formId := Some "form-7";
     apiKey := Some "secret" |}.

Definition settings : Settings :=
  {| MAILER_BASE_URL := "https://mailer.example/api";
     MAILER_FORM_ID := "form-7";
     MAILER_FORM_API_KEY := "secret" |}.

Definition no_env : ProcessEnv :=
  {| env_MAILER_BASE_URL := None; env_MAILER_FORM_ID := None;
     env_MAILER_FORM_API_KEY := None |}.

Definition post (contentType : string) (b : option string) : LambdaEvent :=
  {| httpMethod := "POST";
     ev_headers := {[ "content-type" := contentType ]};
     ev_body := b;
     isBase64Encoded := false |}.

Definition ok_json : MailerResponse :=
  {| res_status := 200;
     res_content_type := Some "application/json; charset=utf-8";
     res_text := print (JObj [("ok", JBool true)]) |}.

Definition not_found_json : MailerResponse :=
  {| res_status := 404;
     res_content_type := Some "application/json";
     res_text :=
       print (JObj [("success", JBool false);
                    ("error", JStr "Form not found")]) |}.

Definition html_503 : MailerResponse :=
  {| res_status := 503;
     res_content_type := Some "text/html";
     res_text := "<html><body>Service Unavailable</body></html>" |}.

Definition pdf : Buffer := [x25; x50; x44; x46; x2d; x31; x2e; x34; x0a; x00].

(** One field, a file input left empty, and a file of ten bytes in two
    chunks, the parser finishing before the file has drained. *)
Definition upload : list PartEvent :=
  [ OnField "form-name" "contact";
    OnField "email" "a@b.com";
    OnFile "photo" (Some EmptyString) "application/octet-stream";
    OnFile "resume" (Some "resume.pdf") "application/pdf";
    OnEnd 0;
    OnData 1 (take 4 pdf);
    OnFinish;
    OnData 1 (drop 4 pdf);
    OnEnd 1 ].

End Sample.

(** ** The event source

    What Busboy and the file streams it hands out promise about the order
    of their events: the parser announces no field and no file once it has
    finished, and it finishes once; a stream emits data and its end only
    after its file event, ends at most once and emits nothing after its end
    or its failure. *)

Inductive StreamStatus :=
| Flowing
| Ended
| Failed.

Record Source := {
  src_finished : bool;
  src_streams : list StreamStatus
}.

Definition source_start : Source :=
  {| src_finished := false; src_streams := [] |}.

(** The source after it has emitted [e], when it may emit it. *)
Definition emit (e : PartEvent) (p : Source) : option Source :=
  match e with
  | OnField _ _ =>
      if src_finished p then None else Some p
  | OnFile _ _ _ =>
      if src_finished p then None
      else Some {| src_finished := false;
                   src_streams := src_streams p ++ [Flowing] |}
  | OnData i _ =>
      match src_streams p !! i with
      | Some Flowing => Some p
      | _ => None
      end
  | OnEnd i =>
      match src_streams p !! i with
      | Some Flowing =>
          Some {| src_finished := src_finished p;
                  src_streams := <[i := Ended]> (src_streams p) |}
      | _ => None
      end
  | OnFileError i _ =>
      match src_streams p !! i with
      | Some Flowing =>
          Some {| src_finished := src_finished p;
                  src_streams := <[i := Failed]> (src_streams p) |}
      | _ => None
      end
  | OnFinish =>
      if src_finished p then None
      else Some {| src_finished := true; src_streams := src_streams p |}
  | OnError _ => Some p
  end.

Definition source_after (trace : list PartEvent) : option Source :=
  fold_left (fun p e => p ≫= emit e) trace (Some source_start).

Definition well_formed (trace : list PartEvent) : bool :=
  match source_after trace with Some _ => true | None => false end.

(** Per file event of the trace, whether its filename is usable. *)
Definition usable_files (trace : list PartEvent) : list bool :=
  flat_map (fun e => match e with
                     | OnFile _ filename _ => [negb (no_filename filename)]
                     | _ => []
                     end) trace.

(** The number of file streams opened with a usable filename. *)
Definition opened (trace : list PartEvent) : nat :=
  length (List.filter (fun b : bool => b) (usable_files trace)).

(** The end of a stream that was opened with a usable filename. *)
Definition is_drain (trace : list PartEvent) (e : PartEvent) : bool :=
  match e with
  | OnEnd i => default false (usable_files trace !! i)
  | _ => false
  end.

(** The number of those streams that have drained. *)
Definition drained (trace : list PartEvent) : nat :=
  length (List.filter (is_drain trace) trace).

(** The parser has signalled the end of the body. *)
Definition finished (trace : list PartEvent) : bool :=
  existsb (fun e => match e with OnFinish => true | _ => false end) trace.

(** The submission is complete. *)
Definition ready (trace : list PartEvent) : bool :=
  finished trace && (drained trace =? opened trace)%nat.

(** The parser reports no error of its own. *)
Definition parses (trace : list PartEvent) : bool :=
  forallb (fun e => match e with OnError _ => false | _ => true end) trace.

(** The form identifier survives the checks of [forwardRequest]. *)
Definition formId_usable (config : Settings) : bool :=
  negb (MAILER_FORM_ID config =? EmptyString) &&
  negb (Text.trim (MAILER_FORM_ID config) =? EmptyString).

(** Per stream, whether it was given listeners. *)
Definition listened (l : list (option FileStream)) : list bool :=
  map (fun o => match o with Some _ => true | None => false end) l.

(** The number of streams that are marked in [flags] and have ended. *)
Definition count_ended (flags : list bool) (statuses : list StreamStatus) : nat :=
  length (List.filter
            (fun p : bool * StreamStatus =>
               fst p && match snd p with Ended => true | _ => false end)
            (zip flags statuses)).

Definition count_marked (flags : list bool) : nat :=
  length (List.filter (fun b : bool => b) flags).

(** What the listeners keep true along a well-formed sequence of events:
    [trace] is what has been emitted, [p] the state of the source, [s] and
    [w] the variables of the request and the effects so far, [w0] the
    effects before the request.  [Q] is a property of the promise once
    [forwardRequest] has settled it. *)
Record Invariant (Q : Promise HandlerResponse -> Prop) (w0 : World)
    (trace : list PartEvent) (p : Source) (s : Submission) (w : World)
    : Prop := {
  inv_fieldsProcessed : fieldsProcessed s = finished trace;
  inv_src_finished : src_finished p = finished trace;
  inv_listened : listened (streams s) = usable_files trace;
  inv_statuses : length (src_streams p) = length (usable_files trace);
  inv_pending : pendingFiles s = opened trace;
  inv_completed : completedFiles s = drained trace;
  inv_drained :
    drained trace = count_ended (usable_files trace) (src_streams p);
  inv_ends :
    Forall (fun e => match e with
                     | OnEnd i => i < length (usable_files trace)
                     | _ => True
                     end) trace;
  inv_calls :
    length (calls w) = length (calls w0) + (if ready trace then 1 else 0);
  inv_promise :
    parses trace = true ->
    if ready trace then Q (promise s) else promise s = Pending
}.

(** A file part as the accumulator may hold it: a usable filename and a
    payload of at least one byte, whose length is the recorded size. *)
Definition sound_file (f : FilePart) : Prop :=
  no_filename (Some (fp_filename f)) = false /\
  0 < length (fp_buffer f) /\
  fp_size f = length (fp_buffer f).

Definition sound_stream (o : option FileStream) : Prop :=
  match o with
  | Some fs => no_filename (Some (fs_filename fs)) = false
  | None => True
  end.

(** The name of a control field. *)
Definition reserved (name : string) : Prop :=
  name = "form-name" \/ name = "bot-field".

(** A parsed body that has no control field among its own properties. *)
Definition json_free (data : JSON) : Prop :=
  forall props name,
    data = JObj props -> In name (map fst props) -> ~ reserved name.

(** The events of the parser without the field events of the two control
    fields. *)
Definition without_control_events (trace : list PartEvent) : list PartEvent :=
  List.filter (fun e => match e with
                        | OnField name _ =>
                            negb ((name =? "form-name") || (name =? "bot-field"))
                        | _ => true
                        end) trace.

(** The runtime with another parser in the place of Busboy. *)
Definition with_parser (rt : Runtime)
    (parser : LambdaEvent -> list PartEvent) : Runtime :=
  {| JSON_parse := JSON_parse rt;
     JSON_stringify := JSON_stringify rt;
     fetch := fetch rt;
     Date_now := Date_now rt;
     Math_random_36 := Math_random_36 rt;
     Busboy := parser |}.

(** A file that is sent under the name of the honeypot. *)
Definition honeypot_file : list PartEvent :=
  [ OnField "email" "a@b.com";
    OnFile "bot-field" (Some "note.txt") "text/plain";
    OnData 0 [x68; x69];
    OnEnd 0;
    OnFinish ].

(** ** A stream that fails

    The parser of line 122 fails a file stream only when it fails as a
    whole: it destroys the stream that is open with an error and then
    reports an error of its own.  An upload that is cut short: *)
Definition truncated_upload : list PartEvent :=
  [ OnField "email" "a@b.com";
    OnFile "resume" (Some "resume.pdf") "application/pdf";
    OnData 0 (take 4 Sample.pdf);
    OnFileError 0 "Unexpected end of file";
    OnError "Unexpected end of form" ].

(** ** Replies of the mailer that the test of the content type turns away *)

(** A reply of the media type of RFC 7807. *)
Definition problem_json : MailerResponse :=
  {| res_status := 404;
     res_content_type := Some "application/problem+json";
     res_text :=
       Sample.print (JObj [("success", JBool false);
                           ("error", JStr "Form not found")]) |}.

(** The same type as the mailer may spell it. *)
Definition capital_json : MailerResponse :=
  {| res_status := 404;
     res_content_type := Some "Application/JSON";
     res_text :=
       Sample.print (JObj [("success", JBool false);
                           ("error", JStr "Form not found")]) |}.

(** A JSON text with white space between its tokens. *)
Definition spaced_text : string :=
  "{ " +:+ DQ +:+ "error" +:+ DQ +:+ " : " +:+ DQ +:+ "Form not found" +:+ DQ
  +:+ " }".

Definition spaced_json : MailerResponse :=
  {| res_status := 404;
     res_content_type := Some "application/json";
     res_text := spaced_text |}.

(** The sample runtime with a parser that knows [spaced_text] as well. *)
Definition lenient_runtime (reply : string + MailerResponse)
    (trace : list PartEvent) : Runtime :=
  {| JSON_parse := fun s =>
       if s =? spaced_text then inr (JObj [("error", JStr "Form not found")])
       else Sample.parse s;
     JSON_stringify := Sample.print;
     fetch := fun _ => reply;
     Date_now := 1700000000000;
     Math_random_36 := "k3j9x0q2a";
     Busboy := fun _ => trace |}.

(** ** The order in which fields were seen *)

(** The field events whose value the listener stores: the name is no control
    field and is not [__proto__]. *)
Definition stored_fields (trace : list PartEvent) : list (string * string) :=
  flat_map (fun e =>
              match e with
              | OnField name value =>
                  if (name =? "form-name") || (name =? "bot-field")
                     || (name =? "__proto__")
                  then [] else [(name, value)]
              | _ => []
              end) trace.

Definition add_new (acc : list string) (name : string) : list string :=
  if existsb (String.eqb name) acc then acc else acc ++ [name].

(** The names of a list, each at the place of its first occurrence. *)
Definition first_seen (names : list string) : list string :=
  fold_left add_new names [].

(** The names of the field parts as the specification orders them: the
    fields other than the form identifier and the control fields, in the
    order in which they were first seen. *)
Definition order_as_specified (trace : list PartEvent) : list string :=
  List.filter forwarded_name (first_seen (map fst (stored_fields trace))).

(** Two fields, the second of which has an array index as its name. *)
Definition numbered_form : list PartEvent :=
  [ OnField "b" "x"; OnField "1" "y"; OnFinish ].

(** ** Quoted strings of a header

    Not part of the function: how the receiving side reads the value of a
    parameter such as [name="..."] of a [Content-Disposition] line, after
    RFC 2045 (5.1) and RFC 822 (3.3).  A quoted-string is a double quote,
    then text in which a backslash quotes the character after it, up to the
    next double quote that is not quoted so; a bare carriage return is no
    text. *)

Module Reference.

Definition dq : byte := x22.
Definition backslash : byte := x5c.
Definition cr : byte := x0d.
Definition crlf : Buffer := [x0d; x0a].

(** The text of a quoted-string whose opening quote has been read, and
    what follows its closing quote. *)
Fixpoint quoted_text (s : Buffer) : option (Buffer * Buffer) :=
  match s with
  | [] => None
  | c :: s' =>
      if Byte.eqb c dq then Some ([], s')
      else if Byte.eqb c cr then None
      else if Byte.eqb c backslash then
        match s' with
        | [] => None
        | d :: s'' =>
            option_map (fun r => (d :: fst r, snd r)) (quoted_text s'')
        end
      else option_map (fun r => (c :: fst r, snd r)) (quoted_text s')
  end.

Definition quoted_string (s : Buffer) : option (Buffer * Buffer) :=
  match s with
  | c :: s' => if Byte.eqb c dq then quoted_text s' else None
  | [] => None
  end.

(** Text that a quoted-string holds as it stands. *)
Definition plain (s : Buffer) : bool :=
  forallb (fun b => negb (Byte.eqb b dq) && negb (Byte.eqb b backslash)
                    && negb (Byte.eqb b cr)) s.

End Reference.

(** One field, whose name holds a double quote. *)
Definition quoted_form : list PartEvent :=
  [ OnField ("who" +:+ DQ +:+ "am") "x"; OnFinish ].

(** ** Further definitions: what the accumulator is to hold *)

(** The last value stored under [name]. *)
Definition last_stored (name : string) (l : list (string * string))
    : option string :=
  option_map snd (find (fun p => fst p =? name) (rev l)).

(** The file events of a sequence, in order: name, filename, type. *)
Definition file_events (trace : list PartEvent)
    : list (string * option string * string) :=
  flat_map (fun e => match e with
                     | OnFile name filename mimeType => [(name, filename, mimeType)]
                     | _ => []
                     end) trace.

(** The bytes that the stream [i] delivered, in the order of its chunks. *)
Definition payload (i : nat) (trace : list PartEvent) : Buffer :=
  concat (flat_map (fun e => match e with
                             | OnData j chunk => if (j =? i)%nat then [chunk] else []
                             | _ => []
                             end) trace).

(** The file that the end of the stream [i] leaves, if any. *)
Definition completed_file (trace : list PartEvent) (i : nat) : list FilePart :=
  match file_events trace !! i with
  | Some (name, filename, mimeType) =>
      if no_filename filename then []
      else if (0 <? length (payload i trace))%nat then
        [{| fp_name := name; fp_filename := or_else filename EmptyString;
            fp_type := mimeType; fp_buffer := payload i trace;
            fp_size := length (payload i trace) |}]
      else []
  | None => []
  end.

(** The files of a sequence of events: per end of a stream, in the order of
    the ends, the file of that stream. *)
Definition completed_files (trace : list PartEvent) : list FilePart :=
  flat_map (fun e => match e with
                     | OnEnd i => completed_file trace i
                     | _ => []
                     end) trace.

(** The files that the streams other than [i] leave. *)
Definition completed_files_but (i : nat) (trace : list PartEvent)
    : list FilePart :=
  flat_map (fun e => match e with
                     | OnEnd j =>
                         if (j =? i)%nat then [] else completed_file trace j
                     | _ => []
                     end) trace.

(** The messages of the parser errors of a sequence. *)
Definition parser_errors (trace : list PartEvent) : list string :=
  flat_map (fun e => match e with OnError message => [message] | _ => [] end)
    trace.

(** The reply of the handler's [catch] for an exception with the given
    message. *)
Definition internal_error (rt : Runtime) (message : string) : HandlerResponse :=
  {| statusCode := 500;
     headers := json_headers;
     body := JSON_stringify rt
       (JObj [("success", JBool false);
              ("error", JStr (or_else (Some message) "Internal server error"))]) |}.

(** A parsed body without its two control fields: the other properties of
    an object, in their order; any other value as it is. *)
Definition without_control_fields (data : JSON) : JSON :=
  match data with
  | JObj props =>
      JObj (List.filter
              (fun p => negb (fst p =? "form-name") && negb (fst p =? "bot-field"))
              props)
  | _ => data
  end.

(** A form identifier that passes the check of the configuration and fails
    the checks of [forwardRequest]. *)
Definition blank_settings : Settings :=
  {| MAILER_BASE_URL := "https://mailer.example/api";
     MAILER_FORM_ID := "  ";
     MAILER_FORM_API_KEY := "secret" |}.

(** An upload that the parser gives up on: the error comes before the end. *)
Definition aborted_upload : list PartEvent :=
  [ OnField "email" "a@b.com";
    OnFile "resume" (Some "resume.pdf") "application/pdf";
    OnData 0 (take 4 Sample.pdf);
    OnError "Unexpected end of form";
    OnFinish ].

(** An answer that claims to be JSON and is not. *)
Definition garbled_json : MailerResponse :=
  {| res_status := 200;
     res_content_type := Some "application/json";
     res_text := "<html>" |}.

(** What a stream of the accumulator has to do with the events seen. *)
Definition stream_agrees (trace : list PartEvent) (i : nat)
    (ev : string * option string * string) (o : option FileStream) : Prop :=
  match o with
  | None => no_filename (snd (fst ev)) = true
  | Some fs =>
      no_filename (snd (fst ev)) = false /\
      fs_name fs = fst (fst ev) /\
      fs_filename fs = or_else (snd (fst ev)) EmptyString /\
      fs_mimeType fs = snd ev /\
      Buffer_concat (fs_chunks fs) = payload i trace
  end.

(** The events that name a stream name one that was opened. *)
Definition stream_events_in_range (n : nat) (trace : list PartEvent) : Prop :=
  Forall (fun e => match e with
                   | OnEnd i | OnData i _ => i < n
                   | _ => True
                   end) trace.

(** What the listeners keep true of the streams and the files along a
    well-formed sequence of events. *)
Record FilesInvariant (trace : list PartEvent) (p : Source) (s : Submission)
    : Prop := {
  fin_streams : length (streams s) = length (file_events trace);
  fin_agree :
    forall i ev o, file_events trace !! i = Some ev -> streams s !! i = Some o ->
                   stream_agrees trace i ev o;
  fin_files : files s = completed_files trace;
  fin_statuses : length (src_streams p) = length (file_events trace);
  fin_flowing :
    forall i, src_streams p !! i = Some Flowing -> ~ In (OnEnd i) trace;
  fin_range : stream_events_in_range (length (file_events trace)) trace
}.

(** ** Configuration, merged; the earlier handler *)

(** An environment without any of the three settings. *)
Definition empty_env : ProcessEnv :=
  {| env_MAILER_BASE_URL := None; env_MAILER_FORM_ID := None;
     env_MAILER_FORM_API_KEY := None |}.

(** The configuration with each setting taken from the environment where
    the argument has none. *)
Definition merged (env : ProcessEnv) (config : Config) : Config :=
  {| baseUrl := js_or (baseUrl config) (env_MAILER_BASE_URL env);
     formId := js_or (formId config) (env_MAILER_FORM_ID env);
     apiKey := js_or (apiKey config) (env_MAILER_FORM_API_KEY env) |}.

Definition missing_environment : string :=
  "Missing required environment variables: MAILER_BASE_URL, MAILER_FORM_ID, MAILER_FORM_API_KEY".

(** [exports.handler] of the earlier version of the function, which reads
    its settings from the environment alone; its two request handlers are
    those of the later version, debug logging apart. *)
Definition legacy_handler (rt : Runtime) (env : ProcessEnv)
    (event : LambdaEvent) (w : World) : Outcome * World :=
  if negb (httpMethod event =? "POST") then
    (Returns {| statusCode := 405;
                headers := json_headers;
                body := JSON_stringify rt
                  (JObj [("error", JStr "Method not allowed")]) |}, w)
  else
    match present (env_MAILER_BASE_URL env), present (env_MAILER_FORM_ID env),
          present (env_MAILER_FORM_API_KEY env) with
    | Some url, Some id, Some key =>
        let settings := {| MAILER_BASE_URL := url; MAILER_FORM_ID := id;
                           MAILER_FORM_API_KEY := key |} in
        if isMultipart event then
          match handleMultipartRequest rt settings event w with
          | (Resolved r, w') => (Returns r, w')
          | (Rejected e, w') => on_exception rt e w'
          | (Pending, w') => (NeverSettles, w')
          end
        else
          match handleJsonRequest rt event settings w with
          | (Normal r, w') => (Returns r, w')
          | (Throw e, w') => on_exception rt e w'
          end
    | _, _, _ =>
        (Returns {| statusCode := 500;
                    headers := json_headers;
                    body := JSON_stringify rt
                      (JObj [("success", JBool false);
                             ("error", JStr missing_environment)]) |}, w)
    end.

(** An environment with the three settings of the sample. *)
Definition sample_env : ProcessEnv :=
  {| env_MAILER_BASE_URL := Some "https://mailer.example/api";
     env_MAILER_FORM_ID := Some "form-7";
     env_MAILER_FORM_API_KEY := Some "secret" |}.

(** ** The form helper of the browser side ([form-helper.js])

    [submitMailerForm] on a form that is given by what the function reads
    of it: the value of its honeypot input, the time of the last submission
    kept in its data attributes, and its entries.  A callback of the options
    is given by whether it is there, and a call of it is an entry of the log
    of effects; callbacks are taken to return normally and to leave the form
    as it is.  Numbers are binary64 floats as in JavaScript, and the
    functions of the browser are the fields of [Browser]. *)

Module FormHelper.

Inductive FormValue :=
| TextValue (value : string)
| FileValue (filename mimeType : string) (content : Buffer).

Record FormElement := {
  (** the value of [input[name="bot-field"]] when the form has such an
      input *)
  bot_field : option string;
  (** [formElement.dataset.lastSubmission] *)
  lastSubmission : option string;
  (** what [new FormData(formElement)] holds *)
  form_data : list (string * FormValue)
}.

Record Options := {
  endpoint : option string;
  onSuccess : bool;
  onError : bool;
  onSubmit : bool;
  minSubmissionInterval : option float
}.

Record BrowserRequest := {
  url : string;
  method : string;
  body : list (string * FormValue)
}.

Record Browser := {
  Date_now : float;
  parseInt : string -> float;
  (** [Number.prototype.toString] *)
  Number_toString : float -> string;
  (** the conversion of a value that is no string to a string, as
      [new Error(value)] does it; it throws for an object whose [toString]
      and [valueOf] give no primitive value *)
  ToString : JSON -> string + string;
  (** a rejected promise is [inl] of the message of its error *)
  fetch : BrowserRequest -> string + MailerResponse;
  JSON_parse : string -> string + JSON
}.

(** What a call does that can be seen from outside. *)
Inductive Effect :=
| CalledOnSubmit
| Fetched (request : BrowserRequest)
| CalledOnSuccess (result : JSON)
| CalledOnError (message : string).

(** [result?.success] and [result?.error] for a value out of [JSON.parse]:
    the property of an object, and [undefined] for every other value (no
    prototype of such a value has one of the two names). *)
Definition get (name : string) (result : JSON) : option JSON :=
  match result with
  | JObj props => option_map snd (find (fun p => fst p =? name) props)
  | _ => None
  end.

(** Whether a value that may be [undefined] is truthy. *)
Definition js_truthy (v : option JSON) : bool :=
  match v with
  | None | Some JNull => false
  | Some (JBool b) => b
  | Some (JNum x) => negb (PrimFloat.eqb x 0%float) && negb (PrimFloat.is_nan x)
  | Some (JStr s) => negb (s =? EmptyString)
  | Some (JArr _) | Some (JObj _) => true
  end.

(** The message of [new Error(result?.error || 'Form submission failed')],
    or the message of the error that the conversion throws. *)
Definition failure_message (br : Browser) (result : JSON) : string + string :=
  if js_truthy (get "error" result) then
    match get "error" result with
    | Some (JStr m) => inr m
    | Some v => ToString br v
    | None => inr "Form submission failed"
    end
  else inr "Form submission failed".

(** [if (onError) onError(error)] *)
Definition report (options : Options) (message : string) : list Effect :=
  if onError options then [CalledOnError message] else [].

(** The request of lines 51-54. *)
Definition request_of (formElement : FormElement) (options : Options)
    : BrowserRequest :=
  {| url := default "/.netlify/functions/submit-contact" (endpoint options);
     method := "POST";
     body := form_data formElement |}.

(** The test of line 39. *)
Definition too_soon (br : Browser) (formElement : FormElement)
    (options : Options) : bool :=
  truthy (lastSubmission formElement) &&
  PrimFloat.ltb
    (PrimFloat.sub (Date_now br)
       (parseInt br (default EmptyString (lastSubmission formElement))))
    (default 5000%float (minSubmissionInterval options)).

(** [submitMailerForm(formElement, options)]: what the promise settles
    with, the form afterwards and the effects in their order. *)
Definition submitMailerForm (br : Browser) (formElement : FormElement)
    (options : Options) : Completion JSON * FormElement * list Effect :=
  if truthy (bot_field formElement) then
    (Throw "Spam detected", formElement, report options "Spam detected")
  else if too_soon br formElement options then
    (Throw "Please wait before submitting again", formElement,
     report options "Please wait before submitting again")
  else
    let started := if onSubmit options then [CalledOnSubmit] else [] in
    let request := request_of formElement options in
    match fetch br request with
    | inl e =>
        (Throw e, formElement, started ++ [Fetched request] ++ report options e)
    | inr response =>
        match JSON_parse br (res_text response) with
        | inl e =>
            (Throw e, formElement,
             started ++ [Fetched request] ++ report options e)
        | inr result =>
            if negb (res_ok response) ||
               negb (js_truthy (get "success" result))
            then
              match failure_message br result with
              | inl e =>
                  (Throw e, formElement,
                   started ++ [Fetched request] ++ report options e)
              | inr message =>
                  (Throw message, formElement,
                   started ++ [Fetched request]
                   ++ report options message ++ report options message)
              end
            else
              (Normal result,
               {| bot_field := bot_field formElement;
                  lastSubmission := Some (Number_toString br (Date_now br));
                  form_data := form_data formElement |},
               started ++ [Fetched request]
               ++ (if onSuccess options then [CalledOnSuccess result] else []))
        end
    end.

(** The requests among the effects. *)
Definition requests (log : list Effect) : list BrowserRequest :=
  flat_map (fun e => match e with Fetched r => [r] | _ => [] end) log.

(** The messages handed to [onError] among the effects. *)
Definition reported (log : list Effect) : list string :=
  flat_map (fun e => match e with CalledOnError m => [m] | _ => [] end) log.

(** The reply is one that line 58 lets through. *)
Definition accepted_reply (br : Browser) (request : BrowserRequest)
    (result : JSON) : Prop :=
  exists response,
    fetch br request = inr response /\
    JSON_parse br (res_text response) = inr result /\
    res_ok response = true /\
    js_truthy (get "success" result) = true.

(** The reply was read as JSON and line 58 turned it down, with a message
    that could be made. *)
Definition rejected_reply (br : Browser) (request : BrowserRequest)
    (message : string) : Prop :=
  exists response result,
    fetch br request = inr response /\
    JSON_parse br (res_text response) = inr result /\
    (res_ok response = false \/ js_truthy (get "success" result) = false) /\
    failure_message br result = inr message.

(** The call gets as far as the reply and turns it down. *)
Definition turned_down (br : Browser) (formElement : FormElement)
    (options : Options) (message : string) : Prop :=
  truthy (bot_field formElement) = false /\
  too_soon br formElement options = false /\
  rejected_reply br (request_of formElement options) message.

(** A browser for running the model: the clock at [now], the one time
    that matters read and written by a table, and one answer to every
    request. *)
Definition known : list JSON :=
  [ JObj [("success", JBool true)];
    JObj [("success", JBool false); ("error", JStr "Form not found")] ].

Definition sample_browser (now last : float) (reply : string + MailerResponse)
    : Browser :=
  {| Date_now := now;
     parseInt := fun s => if s =? "1700000000000" then last else PrimFloat.nan;
     Number_toString := fun _ => "1700000000000";
     ToString := fun _ => inl "Cannot convert object to primitive value";
     fetch := fun _ => reply;
     JSON_parse := fun s =>
       match find (fun j => Sample.print j =? s) known with
       | Some j => inr j
       | None => inl "Unexpected token in JSON"
       end |}.

Definition all_callbacks : Options :=
  {| endpoint := None; onSuccess := true; onError := true; onSubmit := true;
     minSubmissionInterval := None |}.

Definition contact_form : FormElement :=
  {| bot_field := Some EmptyString;
     lastSubmission := None;
     form_data := [("name", TextValue "Ann"); ("message", TextValue "hi")] |}.

Definition accepted : MailerResponse :=
  {| res_status := 200;
     res_content_type := Some "application/json";
     res_text := Sample.print (JObj [("success", JBool true)]) |}.

Definition refused : MailerResponse :=
  {| res_status := 404;
     res_content_type := Some "application/json";
     res_text :=
       Sample.print (JObj [("success", JBool false);
                           ("error", JStr "Form not found")]) |}.

End FormHelper.

(** * Checks of the model on concrete inputs *)

Example includes_json :
  Text.includes "application/json; charset=utf-8" "application/json" = true.
Proof. reflexivity. Qed.

Example includes_html : Text.includes "text/html" "application/json" = false.
Proof. reflexivity. Qed.

Example trim_plain : Text.trim "  form 7	 " = "form 7".
Proof. reflexivity. Qed.

(** U+00A0 and U+3000 are white space for [trim]. *)
Example blank_unicode :
  Text.blank (string_of_list_byte [xc2; xa0; x20; xe3; x80; x80]) = true.
Proof. reflexivity. Qed.

Example blank_not : Text.blank " a " = false.
Proof. reflexivity. Qed.

Example of_N_503 : Text.of_N 503 = "503".
Proof. reflexivity. Qed.

Example array_index_7 : JsObject.array_index "7" = Some 7%N.
Proof. reflexivity. Qed.

Example array_index_07 : JsObject.array_index "07" = None.
Proof. reflexivity. Qed.

Example array_index_max : JsObject.array_index "4294967295" = None.
Proof. reflexivity. Qed.

Example entries_order :
  JsObject.entries
    (JsObject.set "2" "c" (JsObject.set "b" "y" (JsObject.set "10" "x"
       (JsObject.set "b" "w" (JsObject.set "a" "v" [])))))
  = [("2", "c"); ("10", "x"); ("a", "v"); ("b", "y")].
Proof. reflexivity. Qed.

Example set_proto : JsObject.set "__proto__" "x" [("a", "v")] = [("a", "v")].
Proof. reflexivity. Qed.

(** The scenarios of the specification. *)

Example scenario_json :
  createMailerHandler (Sample.runtime (inr Sample.ok_json) []) Sample.no_env
    Sample.config
    (Sample.post "application/json" (Some (Sample.print Sample.ann))) quiet
  = (Returns {| statusCode := 200; headers := json_headers;
                body := Sample.print
                  (JObj [("success", JBool true);
                         ("data", JObj [("ok", JBool true)])]) |},
     {| calls :=
          [ {| req_url := "https://mailer.example/api/form-submissions";
               req_method := "POST";
               req_authorization := "Bearer secret";
               req_content_type := "application/json";
               req_body := TextBody (Sample.print
                 (JObj [("formId", JStr "form-7");
                        ("formData", Sample.ann)])) |} ];
        console_error := [] |}).
Proof. vm_compute. reflexivity. Qed.

Example scenario_upload :
  let rt := Sample.runtime (inr Sample.ok_json) Sample.upload in
  let boundary := "----formdata-1700000000000-k3j9x0q2a" in
  createMailerHandler rt Sample.no_env Sample.config
    (Sample.post "multipart/form-data; boundary=xyz" None) quiet
  = (Returns {| statusCode := 200; headers := json_headers;
                body := Sample.print
                  (JObj [("success", JBool true);
                         ("data", JObj [("ok", JBool true)])]) |},
     {| calls :=
          [ {| req_url := "https://mailer.example/api/form-submissions-upload";
               req_method := "POST";
               req_authorization := "Bearer secret";
               req_content_type := "multipart/form-data; boundary=" +:+ boundary;
               req_body := BinaryBody
                 (Buffer_from
                    ("--" +:+ boundary +:+ CRLF +:+
                     "Content-Disposition: form-data; name=" +:+ DQ +:+ "formId"
                       +:+ DQ +:+ CRLF +:+ CRLF +:+ "form-7" +:+ CRLF +:+
                     "--" +:+ boundary +:+ CRLF +:+
                     "Content-Disposition: form-data; name=" +:+ DQ +:+ "email"
                       +:+ DQ +:+ CRLF +:+ CRLF +:+ "a@b.com" +:+ CRLF +:+
                     "--" +:+ boundary +:+ CRLF +:+
                     "Content-Disposition: form-data; name=" +:+ DQ +:+ "resume"
                       +:+ DQ +:+ "; filename=" +:+ DQ +:+ "resume.pdf" +:+ DQ
                       +:+ CRLF +:+
                     "Content-Type: application/pdf" +:+ CRLF +:+ CRLF)
                  ++ Sample.pdf
                  ++ Buffer_from (CRLF +:+ "--" +:+ boundary +:+ "--" +:+ CRLF)) |} ];
        console_error := [] |}).
Proof. vm_compute. reflexivity. Qed.

Example scenario_html_503 :
  fst (createMailerHandler (Sample.runtime (inr Sample.html_503) [])
         Sample.no_env Sample.config
         (Sample.post "application/json" (Some (Sample.print Sample.ann))) quiet)
  = Returns {| statusCode := 503; headers := json_headers;
               body := Sample.print
                 (JObj [("success", JBool false);
                        ("error", JStr "Mailer API returned invalid response (503). Check mailer logs.");
                        ("details", JStr "Received HTML instead of JSON - check mailer URL")]) |}.
Proof. vm_compute. reflexivity. Qed.

Example scenario_get :
  fst (createMailerHandler (Sample.runtime (inr Sample.ok_json) [])
         Sample.no_env Sample.config
         {| httpMethod := "GET"; ev_headers := ∅; ev_body := None;
            isBase64Encoded := false |} quiet)
  = Returns {| statusCode := 405; headers := json_headers;
               body := Sample.print (JObj [("error", JStr "Method not allowed")]) |}.
Proof. vm_compute. reflexivity. Qed.

(** * Properties of the building blocks *)

Section Blocks.

Variable rt : Runtime.
Variable config : Settings.

Lemma settle_keeps p s :
  fields (settle p s) = fields s /\ files (settle p s) = files s /\
  fieldsProcessed (settle p s) = fieldsProcessed s /\
  pendingFiles (settle p s) = pendingFiles s /\
  completedFiles (settle p s) = completedFiles s /\
  streams (settle p s) = streams s.
Proof. unfold settle. destruct (promise s); simpl; auto 10. Qed.

Lemma settle_promise p s :
  promise (settle p s) = match promise s with Pending => p | q => q end.
Proof. unfold settle. destruct (promise s) eqn:E; simpl; auto. Qed.

(** The statements after the reply write to [console.error] only. *)
Lemma relay_upload_calls r w :
  calls (snd (relay_upload rt r w)) = calls w.
Proof.
  unfold relay_upload, mbind, Eff_bind, lift, throw, mret, Eff_ret, logError.
  repeat (case_match; simpl in *; simplify_eq; try reflexivity).
Qed.

Lemma relay_json_calls r w :
  calls (snd (relay_json rt config r w)) = calls w.
Proof.
  unfold relay_json, mbind, Eff_bind, lift, throw, mret, Eff_ret, logError.
  repeat (case_match; simpl in *; simplify_eq; try reflexivity).
Qed.

(** With a usable form identifier [forwardRequest] hands exactly one
    request to [fetch] and settles the promise with what came of it. *)
Lemma forwardRequest_sends s w :
  formId_usable config = true ->
  exists p w',
    forwardRequest rt config s w = (settle p s, w') /\
    calls w' = calls w ++
      [upload_request rt config (Text.trim (MAILER_FORM_ID config)) s] /\
    p <> Pending /\
    (forall r x,
        fetch rt (upload_request rt config
                    (Text.trim (MAILER_FORM_ID config)) s) = inr r ->
        (forall w2, fst (relay_upload rt r w2) = Normal x) ->
        p = Resolved x).
Proof.
  intros Hid. unfold formId_usable in Hid.
  apply andb_true_iff in Hid as [H1 H2].
  apply negb_true_iff in H1, H2.
  unfold forwardRequest, forwardRequest_try.
  unfold mbind at 1. unfold Eff_bind at 1. rewrite H1. simpl.
  unfold mbind at 1. unfold Eff_bind at 1. rewrite H2. simpl.
  unfold mbind, Eff_bind, call_fetch.
  set (req := upload_request rt config _ s).
  destruct (fetch rt req) as [e | r] eqn:Hf.
  - exists (Rejected e). eexists. split; [reflexivity |]. simpl.
    repeat split; try discriminate.
  - set (w1 := {| calls := calls w ++ [req];
                  console_error := console_error w |}).
    pose proof (relay_upload_calls r w1) as Hc.
    destruct (relay_upload rt r w1) as [[x | e] w2] eqn:Hr; simpl in Hc.
    + exists (Resolved x), w2. repeat split; try discriminate; auto.
      intros r' x' Hr' Hx. simplify_eq. specialize (Hx w1).
      rewrite Hr in Hx. simpl in Hx. congruence.
    + exists (Rejected e), w2. repeat split; try discriminate; auto.
      intros r' x' Hr' Hx. simplify_eq. specialize (Hx w1).
      rewrite Hr in Hx. simpl in Hx. congruence.
Qed.

End Blocks.

(** * Counting streams *)

Lemma usable_files_app a b :
  usable_files (a ++ b) = usable_files a ++ usable_files b.
Proof. unfold usable_files. apply flat_map_app. Qed.

Lemma count_marked_app a b :
  count_marked (a ++ b) = count_marked a + count_marked b.
Proof. unfold count_marked. rewrite List.filter_app, length_app. reflexivity. Qed.

Lemma count_ended_nil_r flags : count_ended flags [] = 0.
Proof. destruct flags; reflexivity. Qed.

Lemma count_ended_cons b st flags sts :
  count_ended (b :: flags) (st :: sts) =
  (if b && match st with Ended => true | _ => false end then 1 else 0)
  + count_ended flags sts.
Proof. unfold count_ended. simpl. case_match; reflexivity. Qed.

Lemma count_marked_cons b flags :
  count_marked (b :: flags) = (if b then 1 else 0) + count_marked flags.
Proof. unfold count_marked. simpl. destruct b; reflexivity. Qed.

Lemma count_ended_snoc flags sts b st :
  length sts = length flags ->
  count_ended (flags ++ [b]) (sts ++ [st]) =
  count_ended flags sts
  + (if b && match st with Ended => true | _ => false end then 1 else 0).
Proof.
  revert sts. induction flags as [| c flags IH]; intros [| t sts] Hl;
    simpl in Hl; try discriminate.
  - unfold count_ended. simpl. case_match; reflexivity.
  - simpl. rewrite !count_ended_cons, IH by lia. lia.
Qed.

Lemma count_ended_le flags sts : count_ended flags sts <= count_marked flags.
Proof.
  revert sts. induction flags as [| c flags IH]; intros [| t sts].
  - reflexivity.
  - reflexivity.
  - rewrite count_ended_nil_r. lia.
  - rewrite count_ended_cons, count_marked_cons. specialize (IH sts).
    destruct c, t; simpl; lia.
Qed.

(** A marked stream that has not ended keeps the count of the ended ones
    below the count of the marked ones. *)
Lemma count_ended_lt flags sts i st :
  flags !! i = Some true -> sts !! i = Some st -> st <> Ended ->
  count_ended flags sts < count_marked flags.
Proof.
  revert sts i. induction flags as [| c flags IH]; intros [| t sts] [| i] Hf Hs Hne;
    simpl in *; try discriminate.
  - simplify_eq. rewrite count_ended_cons, count_marked_cons.
    pose proof (count_ended_le flags sts). destruct st; simpl; try lia.
    congruence.
  - rewrite count_ended_cons, count_marked_cons.
    specialize (IH sts i Hf Hs Hne). destruct c, t; simpl; lia.
Qed.

Lemma count_ended_end flags sts i :
  sts !! i = Some Flowing ->
  count_ended flags (<[i := Ended]> sts) =
  count_ended flags sts + (if default false (flags !! i) then 1 else 0).
Proof.
  revert sts i. induction flags as [| c flags IH]; intros [| t sts] [| i] Hs;
    simpl in *; try discriminate.
  - reflexivity.
  - reflexivity.
  - simplify_eq. rewrite !count_ended_cons. destruct c; simpl; lia.
  - rewrite !count_ended_cons, IH by assumption. lia.
Qed.

Lemma count_ended_fail flags sts i :
  sts !! i = Some Flowing ->
  count_ended flags (<[i := Failed]> sts) = count_ended flags sts.
Proof.
  revert sts i. induction flags as [| c flags IH]; intros [| t sts] [| i] Hs;
    simpl in *; try discriminate.
  - reflexivity.
  - reflexivity.
  - simplify_eq. rewrite !count_ended_cons. destruct c; reflexivity.
  - rewrite !count_ended_cons, IH by assumption. reflexivity.
Qed.

Lemma listened_lookup l i :
  listened l !! i =
  match l !! i with
  | Some (Some _) => Some true
  | Some None => Some false
  | None => None
  end.
Proof.
  unfold listened. rewrite list_lookup_fmap.
  destruct (l !! i) as [[?|]|]; reflexivity.
Qed.

Lemma listened_insert l i fs fs' :
  l !! i = Some (Some fs) -> listened (<[i := Some fs']> l) = listened l.
Proof.
  intros H. unfold listened.
  rewrite list_fmap_insert. apply list_insert_id.
  rewrite list_lookup_fmap, H. reflexivity.
Qed.

(** * The invariant of the accumulator *)

Lemma run_snoc rt config trace e sw :
  run rt config (trace ++ [e]) sw =
  dispatch rt config e (fst (run rt config trace sw))
    (snd (run rt config trace sw)).
Proof. unfold run. rewrite fold_left_app. reflexivity. Qed.

Lemma source_after_snoc trace e :
  source_after (trace ++ [e]) = source_after trace ≫= emit e.
Proof. unfold source_after. rewrite fold_left_app. reflexivity. Qed.

Lemma finished_snoc trace e :
  finished (trace ++ [e]) =
  finished trace || match e with OnFinish => true | _ => false end.
Proof. unfold finished. rewrite existsb_app. simpl. rewrite orb_false_r. reflexivity. Qed.

Lemma parses_snoc trace e :
  parses (trace ++ [e]) =
  parses trace && match e with OnError _ => false | _ => true end.
Proof. unfold parses. rewrite forallb_app. simpl. rewrite andb_true_r. reflexivity. Qed.

Lemma opened_eq trace : opened trace = count_marked (usable_files trace).
Proof. reflexivity. Qed.

(** Events that are no file events leave the earlier drains what they were. *)
Lemma drained_snoc trace e :
  Forall (fun e => match e with
                   | OnEnd i => i < length (usable_files trace)
                   | _ => True
                   end) trace ->
  drained (trace ++ [e]) =
  drained trace + (if is_drain (trace ++ [e]) e then 1 else 0).
Proof.
  intros Hends. unfold drained.
  rewrite List.filter_app, length_app. f_equal.
  - f_equal. apply List.filter_ext_in. intros e' Hin.
    rewrite List.Forall_forall in Hends. specialize (Hends e' Hin).
    destruct e'; try reflexivity. simpl.
    rewrite usable_files_app, lookup_app_l by assumption. reflexivity.
  - simpl. destruct (is_drain (trace ++ [e]) e); reflexivity.
Qed.

Lemma ends_snoc trace e :
  Forall (fun e => match e with
                   | OnEnd i => i < length (usable_files trace)
                   | _ => True
                   end) trace ->
  match e with OnEnd i => i < length (usable_files trace) | _ => True end ->
  Forall (fun e' => match e' with
                    | OnEnd i => i < length (usable_files (trace ++ [e]))
                    | _ => True
                    end) (trace ++ [e]).
Proof.
  intros H He. rewrite usable_files_app, length_app.
  apply Forall_app. split.
  - eapply Forall_impl; [exact H |]. intros [] ?; simpl in *; auto; lia.
  - constructor; [| constructor]. destruct e; auto; lia.
Qed.

Section Accumulator.

Variable rt : Runtime.
Variable config : Settings.
Variable Q : Promise HandlerResponse -> Prop.
Hypothesis Hid : formId_usable config = true.
Hypothesis HQ : forall s w,
  promise s = Pending -> Q (promise (fst (forwardRequest rt config s w))).

Lemma forward_effect s w :
  let s' := fst (forwardRequest rt config s w) in
  let w' := snd (forwardRequest rt config s w) in
  fields s' = fields s /\ files s' = files s /\
  fieldsProcessed s' = fieldsProcessed s /\
  pendingFiles s' = pendingFiles s /\
  completedFiles s' = completedFiles s /\
  streams s' = streams s /\
  length (calls w') = length (calls w) + 1 /\
  (promise s = Pending -> Q (promise s')) /\
  promise s' <> Pending.
Proof.
  pose proof (HQ s w) as Hq.
  destruct (forwardRequest_sends rt config s w Hid) as (p & w' & E & Hc & Hp & _).
  rewrite E in *. simpl in *.
  pose proof (settle_keeps p s) as (? & ? & ? & ? & ? & ?).
  repeat split; auto.
  - rewrite Hc, length_app. reflexivity.
  - rewrite settle_promise. destruct (promise s); auto; discriminate.
Qed.

Lemma check_effect s w :
  let go := fieldsProcessed s &&
            ((pendingFiles s =? 0)%nat || (completedFiles s =? pendingFiles s)%nat) in
  let s' := fst (checkAndForward rt config s w) in
  let w' := snd (checkAndForward rt config s w) in
  fields s' = fields s /\ files s' = files s /\
  fieldsProcessed s' = fieldsProcessed s /\
  pendingFiles s' = pendingFiles s /\
  completedFiles s' = completedFiles s /\
  streams s' = streams s /\
  length (calls w') = length (calls w) + (if go then 1 else 0) /\
  (promise s = Pending -> if go then Q (promise s') else promise s' = Pending).
Proof.
  unfold checkAndForward.
  destruct (fieldsProcessed s && _) eqn:E; simpl.
  - pose proof (forward_effect s w) as H. simpl in H.
    destruct H as (?&?&?&?&?&?&?&?&?). repeat split; auto.
  - repeat split; auto.
Qed.

Lemma invariant_start w0 : Invariant Q w0 [] source_start start w0.
Proof. split; simpl; auto. Qed.

Lemma on_field_keeps name value s :
  let s' := on_field name value s in
  files s' = files s /\ fieldsProcessed s' = fieldsProcessed s /\
  pendingFiles s' = pendingFiles s /\ completedFiles s' = completedFiles s /\
  streams s' = streams s /\ promise s' = promise s.
Proof. unfold on_field. case_match; simpl; auto 10. Qed.

Lemma on_data_keeps i chunk s :
  let s' := on_data i chunk s in
  fields s' = fields s /\
  files s' = files s /\ fieldsProcessed s' = fieldsProcessed s /\
  pendingFiles s' = pendingFiles s /\ completedFiles s' = completedFiles s /\
  listened (streams s') = listened (streams s) /\ promise s' = promise s.
Proof.
  unfold on_data. destruct (streams s !! i) as [[fs |] |] eqn:E; simpl; auto 10.
  repeat split; auto. eapply listened_insert; eauto.
Qed.

Lemma usable_files_snoc trace e :
  usable_files (trace ++ [e]) =
  usable_files trace ++
    match e with
    | OnFile _ filename _ => [negb (no_filename filename)]
    | _ => []
    end.
Proof. rewrite usable_files_app. simpl. rewrite app_nil_r. reflexivity. Qed.

Ltac ends_goal := solve [apply ends_snoc; simpl; auto].

Lemma invariant_step w0 trace p s w e p' :
  Invariant Q w0 trace p s w ->
  emit e p = Some p' ->
  Invariant Q w0 (trace ++ [e]) p'
    (fst (dispatch rt config e s w)) (snd (dispatch rt config e s w)).
Proof.
  intros [I1 I2 I3 I4 I5 I6 I7 I8 I9 I10] He.
  pose proof (drained_snoc trace e I8) as Hd.
  pose proof (count_ended_le (usable_files trace) (src_streams p)) as Hle.
  rewrite <- I7 in Hle. fold (count_marked (usable_files trace)) in Hle.
  rewrite <- opened_eq in Hle.
  pose proof (usable_files_snoc trace e) as Hu.
  pose proof (finished_snoc trace e) as Hf.
  pose proof (parses_snoc trace e) as Hp.
  destruct e as [name value | name filename mimeType | i chunk | i | i msg | | msg];
    simpl in He, Hu, Hf, Hp, Hd |- *; rewrite ?app_nil_r in Hu;
    rewrite ?orb_false_r, ?andb_true_r, ?Nat.add_0_r in *.
  - (* field *)
    destruct (src_finished p) eqn:Hfin; [discriminate |]. simplify_eq.
    destruct (on_field_keeps name value s) as (K1 & K2 & K3 & K4 & K5 & K6).
    assert (Hr : ready (trace ++ [OnField name value]) = false)
      by (unfold ready; rewrite Hf, <- I2; reflexivity).
    assert (Hr0 : ready trace = false) by (unfold ready; rewrite <- I2; reflexivity).
    rewrite Hr0 in *.
    split; try ends_goal; rewrite ?Hr, ?Hf, ?Hd, ?Hp, ?K2, ?K3, ?K4, ?K5, ?K6;
      try rewrite Hu; auto; try congruence.
    + unfold opened. rewrite Hu. exact I5.
  - (* file *)
    destruct (src_finished p) eqn:Hfin; [discriminate |]. simplify_eq.
    assert (Hr : ready (trace ++ [OnFile name filename mimeType]) = false)
      by (unfold ready; rewrite Hf, <- I2; reflexivity).
    assert (Hr0 : ready trace = false) by (unfold ready; rewrite <- I2; reflexivity).
    rewrite Hr0 in *. simpl in *.
    assert (Ho : opened (trace ++ [OnFile name filename mimeType]) =
                 opened trace + (if no_filename filename then 0 else 1)).
    { rewrite !opened_eq, Hu, count_marked_app. f_equal.
      destruct (no_filename filename); reflexivity. }
    unfold on_file.
    split; try ends_goal; rewrite ?Hr, ?Hf, ?Hd, ?Hp, ?Ho; simpl; auto.
    + destruct (no_filename filename); simpl; auto.
    + rewrite Hu. destruct (no_filename filename); simpl;
        unfold listened; rewrite map_app; simpl; fold (listened (streams s));
        rewrite I3; reflexivity.
    + rewrite Hu, !length_app. simpl. lia.
    + destruct (no_filename filename); simpl; lia.
    + destruct (no_filename filename); simpl; lia.
    + rewrite Hu, count_ended_snoc by assumption.
      rewrite andb_false_r. lia.
    + destruct (no_filename filename); simpl; auto.
  - (* data *)
    destruct (src_streams p !! i) as [[] |] eqn:Hst; try discriminate. simplify_eq.
    destruct (on_data_keeps i chunk s) as (K0 & K1 & K2 & K3 & K4 & K5 & K6).
    assert (Hr : ready (trace ++ [OnData i chunk]) = ready trace)
      by (unfold ready; rewrite Hf, Hd, !opened_eq, Hu; reflexivity).
    split; try ends_goal; rewrite ?Hr, ?Hf, ?Hd, ?Hp, ?K2, ?K3, ?K4, ?K5, ?K6;
      try rewrite Hu; auto; try congruence.
    + rewrite opened_eq, Hu. exact I5.
  - (* end *)
    destruct (src_streams p !! i) as [[] |] eqn:Hst; try discriminate. simplify_eq.
    simpl.
    assert (Hi : i < length (usable_files trace)).
    { rewrite <- I4. eapply lookup_lt_Some; eauto. }
    pose proof (listened_lookup (streams s) i) as Hl. rewrite I3 in Hl.
    pose proof (count_ended_end (usable_files trace) (src_streams p) i Hst) as Hce.
    rewrite Hu in Hd.
    assert (Hop : opened (trace ++ [OnEnd i]) = opened trace)
      by (rewrite !opened_eq, Hu; reflexivity).
    unfold on_end.
    destruct (streams s !! i) as [[fs |] |] eqn:Hsi.
    + (* a stream with listeners *)
      rewrite Hl in Hd, Hce. simpl in Hd, Hce.
      pose proof (count_ended_lt _ _ _ _ Hl Hst ltac:(discriminate)) as Hlt.
      rewrite <- I7, <- opened_eq in Hlt.
      set (s1 := if (0 <? length (Buffer_concat (fs_chunks fs)))%nat
                 then set_files _ s else s).
      assert (Hs1 : fieldsProcessed s1 = fieldsProcessed s /\
                    pendingFiles s1 = pendingFiles s /\
                    completedFiles s1 = completedFiles s /\
                    streams s1 = streams s /\ promise s1 = promise s)

        by (subst s1; destruct (0 <? length (Buffer_concat (fs_chunks fs)))%nat;
            simpl; auto 10).
      destruct Hs1 as (S1 & S2 & S3 & S4 & S5).
      set (s2 := set_completedFiles (completedFiles s1 + 1) s1).
      pose proof (check_effect s2 w) as Hc. simpl in Hc.
      destruct Hc as (C1 & C2 & C3 & C4 & C5 & C6 & C7 & C8).
      assert (Hr0 : ready trace = false).
      { unfold ready. replace (drained trace =? opened trace)%nat with false.
        - apply andb_false_r.
        - symmetry. apply Nat.eqb_neq. lia. }
      assert (Hgo : fieldsProcessed s1 &&
                    ((pendingFiles s1 =? 0)%nat ||
                     (completedFiles s1 + 1 =? pendingFiles s1)%nat)
                    = ready (trace ++ [OnEnd i])).
      { unfold ready. rewrite Hf, Hd, Hop, S1, S2, S3, I1, I5, I6.
        f_equal. replace (opened trace =? 0)%nat with false; [reflexivity |].
        symmetry. apply Nat.eqb_neq. lia. }
      rewrite Hgo in C7, C8. rewrite Hr0 in I9, I10.
      split; try ends_goal; rewrite ?Hf, ?Hd, ?Hop, ?Hp; try rewrite Hu; simpl; auto.
      * rewrite C3. simpl. congruence.
      * rewrite C6. simpl. congruence.
      * rewrite length_insert. assumption.
      * rewrite C4. simpl. congruence.
      * rewrite C5. simpl. lia.
      * rewrite Hce. lia.
      * rewrite C7, I9. lia.
      * intros Hpar. apply C8. simpl. rewrite S5. auto.
    + (* a stream that was resumed *)
      rewrite Hl in Hd, Hce. simpl in Hd, Hce.
      rewrite Nat.add_0_r in Hd, Hce.
      assert (Hr : ready (trace ++ [OnEnd i]) = ready trace)
        by (unfold ready; rewrite Hf, Hd, Hop; reflexivity).
      split; try ends_goal; rewrite ?Hr, ?Hf, ?Hd, ?Hop, ?Hp; try rewrite Hu; simpl; auto;
        try congruence.
      * rewrite length_insert. assumption.
    + exfalso. apply lookup_ge_None in Hl. lia.
  - (* failure of a stream *)
    destruct (src_streams p !! i) as [[] |] eqn:Hst; try discriminate. simplify_eq.
    simpl.
    pose proof (count_ended_fail (usable_files trace) (src_streams p) i Hst) as Hce.
    assert (Hop : opened (trace ++ [OnFileError i msg]) = opened trace)
      by (rewrite !opened_eq, Hu; reflexivity).
    assert (Hr : ready (trace ++ [OnFileError i msg]) = ready trace)
      by (unfold ready; rewrite Hf, Hd, Hop; reflexivity).
    assert (Hk : fst (on_file_error i msg s w) = s /\
                 calls (snd (on_file_error i msg s w)) = calls w).
    { unfold on_file_error. destruct (streams s !! i) as [[fs |] |]; auto. }
    destruct Hk as [K1 K2].
    split; try ends_goal; rewrite ?Hr, ?Hf, ?Hd, ?Hop, ?Hp, ?K1, ?K2; try rewrite Hu; simpl; auto;
      try congruence.
    + rewrite length_insert. assumption.
  - (* finish *)
    destruct (src_finished p) eqn:Hfin; [discriminate |]. simplify_eq. simpl.
    assert (Hop : opened (trace ++ [OnFinish]) = opened trace)
      by (rewrite !opened_eq, Hu; reflexivity).
    assert (Hr0 : ready trace = false) by (unfold ready; rewrite <- I2; reflexivity).
    assert (Hr : ready (trace ++ [OnFinish]) = (drained trace =? opened trace)%nat)
      by (unfold ready; rewrite Hf, Hd, Hop, orb_true_r; reflexivity).
    rewrite Hr0 in I9, I10.
    unfold on_finish. simpl.
    set (s1 := set_fieldsProcessed true s).
    destruct (pendingFiles s =? 0)%nat eqn:Hz.
    + apply Nat.eqb_eq in Hz.
      assert (Hrt : ready (trace ++ [OnFinish]) = true).
      { rewrite Hr. apply Nat.eqb_eq. lia. }
      pose proof (forward_effect s1 w) as Hc. simpl in Hc.
      destruct Hc as (C1 & C2 & C3 & C4 & C5 & C6 & C7 & C8 & C9).
      split; try ends_goal; rewrite ?Hrt, ?Hf, ?Hd, ?Hop, ?Hp, ?orb_true_r;
        try rewrite Hu; simpl; auto; try congruence.
      * rewrite C7, I9. lia.
    + apply Nat.eqb_neq in Hz.
      pose proof (check_effect s1 w) as Hc. simpl in Hc.
      destruct Hc as (C1 & C2 & C3 & C4 & C5 & C6 & C7 & C8).
      rewrite (proj2 (Nat.eqb_neq _ _) Hz) in C7, C8. simpl in C7, C8.
      rewrite I5, I6, <- Hr in C7, C8.
      split; try ends_goal; rewrite ?Hf, ?Hd, ?Hop, ?Hp, ?orb_true_r;
        try rewrite Hu; simpl; auto; try congruence.
      * rewrite C7, I9. lia.
      * intros Hpar. apply C8. auto.
  - (* error of the parser *)
    simplify_eq. simpl.
    assert (Hop : opened (trace ++ [OnError msg]) = opened trace)
      by (rewrite !opened_eq, Hu; reflexivity).
    assert (Hr : ready (trace ++ [OnError msg]) = ready trace)
      by (unfold ready; rewrite Hf, Hd, Hop; reflexivity).
    pose proof (settle_keeps (Rejected msg) s) as (K1 & K2 & K3 & K4 & K5 & K6).
    unfold reject.
    split; try ends_goal; rewrite ?Hr, ?Hf, ?Hd, ?Hop, ?Hp, ?K3, ?K4, ?K5, ?K6;
      try rewrite Hu; simpl; auto; try congruence.
    + rewrite andb_false_r. discriminate.
Qed.

Lemma invariant_run w0 trace p :
  source_after trace = Some p ->
  Invariant Q w0 trace p
    (fst (run rt config trace (start, w0)))
    (snd (run rt config trace (start, w0))).
Proof.
  revert p. induction trace as [| e trace IH] using rev_ind; intros p Hp.
  - unfold source_after in Hp. simpl in Hp. simplify_eq. apply invariant_start.
  - rewrite source_after_snoc in Hp.
    destruct (source_after trace) as [p0 |] eqn:E; [| discriminate].
    simpl in Hp. rewrite run_snoc. eapply invariant_step; eauto.
Qed.

End Accumulator.

Lemma source_after_prefix pre post p :
  source_after (pre ++ post) = Some p -> exists q, source_after pre = Some q.
Proof.
  unfold source_after. rewrite fold_left_app.
  destruct (fold_left _ pre _) as [q |] eqn:E; [eauto |].
  intros H. exfalso. clear E. induction post as [| e post IH]; simpl in H;
    [discriminate | auto].
Qed.

Lemma well_formed_prefix pre post :
  well_formed (pre ++ post) = true -> well_formed pre = true.
Proof.
  unfold well_formed. destruct (source_after (pre ++ post)) eqn:E; [| discriminate].
  apply source_after_prefix in E as [q ->]. reflexivity.
Qed.

Lemma opened_zero_ready trace :
  well_formed trace = true -> opened trace = 0 -> ready trace = finished trace.
Proof.
  unfold well_formed. destruct (source_after trace) as [p |] eqn:E; [| discriminate].
  intros _ Hz.
  pose proof (invariant_run (Sample.runtime (inl EmptyString) []) Sample.settings
                (fun _ => True) eq_refl (fun _ _ _ => I) quiet trace p E) as Inv.
  pose proof (count_ended_le (usable_files trace) (src_streams p)) as Hle.
  rewrite <- (inv_drained _ _ _ _ _ _ Inv) in Hle.
  fold (count_marked (usable_files trace)) in Hle. rewrite <- opened_eq in Hle.
  unfold ready. replace (drained trace) with 0 by lia. rewrite Hz.
  apply andb_true_r.
Qed.

(** * The claims *)

(** C1.  Along every well-formed sequence of parser and stream events,
    whatever their interleaving, and at every point of it: the counters of
    the handler are the counts of the events seen, and the number of
    requests handed to [fetch] is one if the parser has finished and as many
    streams have drained as were opened with a usable filename, and zero
    otherwise.  When no such stream was opened, the request goes out in the
    handling of the finish event itself. *)
Theorem C1_forward_exactly_when_complete
    (rt : Runtime) (config : Settings) (w0 : World) (trace : list PartEvent) :
  formId_usable config = true ->
  well_formed trace = true ->
  (forall pre post, trace = pre ++ post ->
     let s := fst (run rt config pre (start, w0)) in
     let w := snd (run rt config pre (start, w0)) in
     fieldsProcessed s = finished pre /\
     pendingFiles s = opened pre /\
     completedFiles s = drained pre /\
     length (calls w) = length (calls w0) + (if ready pre then 1 else 0)) /\
  (forall pre post, trace = pre ++ OnFinish :: post ->
     opened pre = 0 ->
     length (calls (snd (run rt config pre (start, w0)))) = length (calls w0) /\
     length (calls (snd (run rt config (pre ++ [OnFinish]) (start, w0))))
     = length (calls w0) + 1).
Proof.
  intros Hid Hwf.
  assert (Hpre : forall pre post, trace = pre ++ post ->
            exists p, source_after pre = Some p).
  { intros pre post ->. unfold well_formed in Hwf.
    destruct (source_after (pre ++ post)) eqn:E; [| discriminate].
    eapply source_after_prefix; eauto. }
  split.
  - intros pre post Heq. destruct (Hpre pre post Heq) as [p Hp].
    pose proof (invariant_run rt config (fun _ => True) Hid (fun _ _ _ => I)
                  w0 pre p Hp) as Inv.
    destruct Inv; simpl; auto.
  - intros pre post Heq Hz.
    assert (Heq' : trace = (pre ++ [OnFinish]) ++ post)
      by (rewrite <- app_assoc; exact Heq).
    destruct (Hpre _ _ Heq) as [p Hp]. destruct (Hpre _ _ Heq') as [p' Hp'].
    pose proof (invariant_run rt config (fun _ => True) Hid (fun _ _ _ => I)
                  w0 pre p Hp) as Inv.
    pose proof (invariant_run rt config (fun _ => True) Hid (fun _ _ _ => I)
                  w0 _ p' Hp') as Inv'.
    rewrite (inv_calls _ _ _ _ _ _ Inv), (inv_calls _ _ _ _ _ _ Inv').
    assert (Hfin : finished pre = false).
    { rewrite source_after_snoc, Hp in Hp'. simpl in Hp'.
      rewrite <- (inv_src_finished _ _ _ _ _ _ Inv).
      destruct (src_finished p); [discriminate | reflexivity]. }
    assert (Hr : ready pre = false) by (unfold ready; rewrite Hfin; reflexivity).
    assert (Hr' : ready (pre ++ [OnFinish]) = true).
    { rewrite opened_zero_ready.
      - rewrite finished_snoc. apply orb_true_r.
      - unfold well_formed. rewrite Hp'. reflexivity.
      - rewrite opened_eq, usable_files_app, count_marked_app.
        rewrite <- opened_eq, Hz. reflexivity. }
    rewrite Hr, Hr'. lia.
Qed.

(** C1 on the sample upload: the parser finishes while one stream is still
    flowing, and the request goes out when that stream drains. *)
Lemma C1_witness :
  let rt := Sample.runtime (inr Sample.ok_json) Sample.upload in
  length (calls (snd (run rt Sample.settings (take 7 Sample.upload) (start, quiet)))) = 0
  /\ length (calls (snd (run rt Sample.settings Sample.upload (start, quiet)))) = 1.
Proof.
  pose proof (C1_forward_exactly_when_complete
                (Sample.runtime (inr Sample.ok_json) Sample.upload)
                Sample.settings quiet Sample.upload eq_refl eq_refl) as [H _].
  split.
  - exact (proj2 (proj2 (proj2 (H (take 7 Sample.upload) (drop 7 Sample.upload) eq_refl)))).
  - exact (proj2 (proj2 (proj2 (H Sample.upload [] eq_refl)))).
Defined.

(** * The reply of the mailer, relayed *)

Section Relay.

Variable rt : Runtime.
Variable config : Settings.

Lemma relay_upload_non_json r w :
  Text.includes (or_else (res_content_type r) EmptyString) "application/json" = false ->
  fst (relay_upload rt r w) =
  Normal {| statusCode := if (res_status r =? 0)%N then 500%N else res_status r;
            headers := json_headers;
            body := JSON_stringify rt
              (JObj [("success", JBool false);
                     ("error", JStr (invalid_response_message (res_status r)));
                     ("details", JStr
                        (if Text.includes (or_else (res_content_type r) EmptyString) "html"
                         then "Received HTML instead of JSON"
                         else "Content-Type: " +:+
                              or_else (res_content_type r) EmptyString))]) |}.
Proof. intros H. unfold relay_upload. rewrite H. reflexivity. Qed.

Lemma relay_json_non_json r w :
  Text.includes (or_else (res_content_type r) EmptyString) "application/json" = false ->
  fst (relay_json rt config r w) =
  Normal {| statusCode := if (res_status r =? 0)%N then 500%N else res_status r;
            headers := json_headers;
            body := JSON_stringify rt
              (JObj [("success", JBool false);
                     ("error", JStr (invalid_response_message (res_status r)));
                     ("details", JStr
                        (if Text.includes (or_else (res_content_type r) EmptyString) "html"
                         then "Received HTML instead of JSON - check mailer URL"
                         else "Content-Type: " +:+
                              or_else (res_content_type r) EmptyString))]) |}.
Proof. intros H. unfold relay_json. rewrite H. reflexivity. Qed.

Lemma relay_upload_json r j w :
  Text.includes (or_else (res_content_type r) EmptyString) "application/json" = true ->
  JSON_parse rt (res_text r) = inr j ->
  fst (relay_upload rt r w) =
  Normal (if res_ok r
          then {| statusCode := 200; headers := json_headers;
                  body := JSON_stringify rt
                    (JObj [("success", JBool true); ("data", j)]) |}
          else {| statusCode := res_status r; headers := json_headers;
                  body := JSON_stringify rt j |}).
Proof.
  intros H Hj. unfold relay_upload. rewrite H.
  unfold mbind, Eff_bind, lift. rewrite Hj. simpl.
  destruct (res_ok r); reflexivity.
Qed.

Lemma relay_json_json r j w :
  Text.includes (or_else (res_content_type r) EmptyString) "application/json" = true ->
  JSON_parse rt (res_text r) = inr j ->
  fst (relay_json rt config r w) =
  Normal (if res_ok r
          then {| statusCode := 200; headers := json_headers;
                  body := JSON_stringify rt
                    (JObj [("success", JBool true); ("data", j)]) |}
          else {| statusCode := res_status r; headers := json_headers;
                  body := JSON_stringify rt j |}).
Proof.
  intros H Hj. unfold relay_json. rewrite H.
  unfold mbind, Eff_bind, lift. rewrite Hj. simpl.
  destruct (res_ok r); reflexivity.
Qed.

End Relay.

(** * The two paths through the handler *)

Section Paths.

Variable rt : Runtime.
Variable env : ProcessEnv.
Variable config : Config.
Variable settings : Settings.
Hypothesis Hsettings : settings_of env config = Some settings.

Lemma json_delete_object k data :
  data <> JNull ->
  exists data', json_delete k data = inr data' /\ data' <> JNull.
Proof.
  destruct data; simpl; intros H; try congruence; eexists; split;
    try reflexivity; discriminate.
Qed.

(** The JSON path when the body parses and the mailer answers [r]. *)
Lemma json_path_returns event w data r x :
  httpMethod event = "POST" ->
  isMultipart event = false ->
  JSON_parse rt (or_else (ev_body event) "{}") = inr data ->
  data <> JNull ->
  (forall req, fetch rt req = inr r) ->
  (forall w', fst (relay_json rt settings r w') = Normal x) ->
  exists w',
    createMailerHandler rt env config event w = (Returns x, w') /\
    length (calls w') = length (calls w) + 1.
Proof.
  intros Hpost Hmp Hparse Hnull Hfetch Hrelay.
  unfold createMailerHandler. rewrite Hpost, Hsettings, Hmp. simpl.
  unfold handleJsonRequest.
  destruct (json_delete_object "form-name" data Hnull) as (d1 & E1 & N1).
  destruct (json_delete_object "bot-field" d1 N1) as (d2 & E2 & N2).
  unfold mbind, Eff_bind, lift, call_fetch. rewrite Hparse. simpl.
  rewrite E1. simpl. rewrite E2. simpl. rewrite Hfetch.
  set (w1 := {| calls := _; console_error := _ |}).
  pose proof (Hrelay w1) as Hx. pose proof (relay_json_calls rt settings r w1) as Hc.
  destruct (relay_json rt settings r w1) as [c w2]. simpl in Hx, Hc. subst c.
  exists w2. split; [reflexivity |]. rewrite Hc. subst w1. simpl.
  rewrite length_app. reflexivity.
Qed.

(** The multipart path when the submission gets complete, the parser
    reports no error and the mailer answers [r]. *)
Lemma multipart_path_returns event w r x :
  httpMethod event = "POST" ->
  isMultipart event = true ->
  formId_usable settings = true ->
  well_formed (Busboy rt event) = true ->
  ready (Busboy rt event) = true ->
  parses (Busboy rt event) = true ->
  (forall req, fetch rt req = inr r) ->
  (forall w', fst (relay_upload rt r w') = Normal x) ->
  exists w',
    createMailerHandler rt env config event w = (Returns x, w') /\
    length (calls w') = length (calls w) + 1.
Proof.
  intros Hpost Hmp Hid Hwf Hready Hparses Hfetch Hrelay.
  unfold createMailerHandler. rewrite Hpost, Hsettings, Hmp. simpl.
  unfold handleMultipartRequest.
  unfold well_formed in Hwf.
  destruct (source_after (Busboy rt event)) as [p |] eqn:Hp; [| discriminate].
  assert (HQ : forall s w1, promise s = Pending ->
             promise (fst (forwardRequest rt settings s w1)) = Resolved x).
  { intros s w1 Hpend.
    destruct (forwardRequest_sends rt settings s w1 Hid) as (q & w2 & E & _ & _ & Hq).
    rewrite E. simpl. rewrite settle_promise, Hpend.
    eapply Hq; eauto. }
  pose proof (invariant_run rt settings (fun q => q = Resolved x) Hid HQ w _ p Hp)
    as Inv.
  pose proof (inv_promise _ _ _ _ _ _ Inv Hparses) as Hprom.
  pose proof (inv_calls _ _ _ _ _ _ Inv) as Hcalls.
  rewrite Hready in Hprom, Hcalls. rewrite Hprom.
  eexists. split; [reflexivity | exact Hcalls].
Qed.

End Paths.



(** C6, amended.  When the mailer answers with a content type that holds
    the text [application/json], in this spelling, and a body that [json()]
    reads, the caller gets, under a failing status, the value that was read,
    serialised again, under the status of the mailer, and under a status
    from 200 to 299 the status 200 with [{success: true, data: <the value
    that was read>}].  This holds on the JSON path and on the multipart
    path. *)
Theorem C6_json_reply
    (rt : Runtime) (env : ProcessEnv) (config : Config) (settings : Settings)
    (r : MailerResponse) (mailerJson : JSON) :
  settings_of env config = Some settings ->
  (forall req, fetch rt req = inr r) ->
  Text.includes (or_else (res_content_type r) EmptyString) "application/json" = true ->
  JSON_parse rt (res_text r) = inr mailerJson ->
  let reply :=
    if res_ok r
    then {| statusCode := 200; headers := json_headers;
            body := JSON_stringify rt
              (JObj [("success", JBool true); ("data", mailerJson)]) |}
    else {| statusCode := res_status r; headers := json_headers;
            body := JSON_stringify rt mailerJson |} in
  (forall event w data,
     httpMethod event = "POST" ->
     isMultipart event = false ->
     JSON_parse rt (or_else (ev_body event) "{}") = inr data ->
     data <> JNull ->
     exists w',
       createMailerHandler rt env config event w = (Returns reply, w') /\
       length (calls w') = length (calls w) + 1) /\
  (forall event w,
     httpMethod event = "POST" ->
     isMultipart event = true ->
     formId_usable settings = true ->
     well_formed (Busboy rt event) = true ->
     ready (Busboy rt event) = true ->
     parses (Busboy rt event) = true ->
     exists w',
       createMailerHandler rt env config event w = (Returns reply, w') /\
       length (calls w') = length (calls w) + 1).
Proof.
  intros Hs Hfetch Hct Hjson reply. split.
  - intros event w data Hpost Hmp Hparse Hnull.
    eapply json_path_returns; eauto.
    intros w'. apply relay_json_json; assumption.
  - intros event w Hpost Hmp Hid Hwf Hready Hparses.
    eapply multipart_path_returns; eauto.
    intros w'. apply relay_upload_json; assumption.
Qed.

(** C6 on a 404 with a JSON body, on both paths. *)
Lemma C6_witness :
  let reply :=
    {| statusCode := 404; headers := json_headers;
       body := Sample.print
         (JObj [("success", JBool false); ("error", JStr "Form not found")]) |} in
  (exists w',
     createMailerHandler (Sample.runtime (inr Sample.not_found_json) Sample.upload)
       Sample.no_env Sample.config
       (Sample.post "application/json" (Some (Sample.print Sample.ann))) quiet
     = (Returns reply, w') /\ length (calls w') = 1) /\
  (exists w',
     createMailerHandler (Sample.runtime (inr Sample.not_found_json) Sample.upload)
       Sample.no_env Sample.config
       (Sample.post "multipart/form-data; boundary=xyz" None) quiet
     = (Returns reply, w') /\ length (calls w') = 1).
Proof.
  pose proof (C6_json_reply
                (Sample.runtime (inr Sample.not_found_json) Sample.upload)
                Sample.no_env Sample.config Sample.settings Sample.not_found_json
                (JObj [("success", JBool false); ("error", JStr "Form not found")])
                eq_refl (fun _ => eq_refl) eq_refl eq_refl) as [Hjson Hmulti].
  split.
  - refine (Hjson (Sample.post "application/json" (Some (Sample.print Sample.ann)))
                  quiet Sample.ann eq_refl eq_refl eq_refl _).
    discriminate.
  - exact (Hmulti (Sample.post "multipart/form-data; boundary=xyz" None) quiet
                  eq_refl eq_refl eq_refl eq_refl eq_refl eq_refl).
Defined.

(** C6 as it is stated fails.  A reply of a JSON type that does not hold
    the text [application/json] as the code looks for it, such as
    [application/problem+json] or [Application/JSON], is no JSON reply for
    the handler: the caller gets a description in the place of the JSON of
    the mailer, on both paths.  And where the reply is taken as JSON, what
    the caller gets is the value serialised again, which need not be the
    body of the mailer byte for byte. *)
Lemma C6_counterexample :
  let turned_away contentType :=
    Returns {| statusCode := 404; headers := json_headers;
               body := Sample.print
                 (JObj [("success", JBool false);
                        ("error", JStr "Mailer API returned invalid response (404). Check mailer logs.");
                        ("details", JStr ("Content-Type: " +:+ contentType))]) |} in
  fst (createMailerHandler (Sample.runtime (inr problem_json) Sample.upload)
         Sample.no_env Sample.config
         (Sample.post "application/json" (Some (Sample.print Sample.ann))) quiet)
  = turned_away "application/problem+json" /\
  fst (createMailerHandler (Sample.runtime (inr problem_json) Sample.upload)
         Sample.no_env Sample.config
         (Sample.post "multipart/form-data; boundary=xyz" None) quiet)
  = turned_away "application/problem+json" /\
  fst (createMailerHandler (Sample.runtime (inr capital_json) Sample.upload)
         Sample.no_env Sample.config
         (Sample.post "application/json" (Some (Sample.print Sample.ann))) quiet)
  = turned_away "Application/JSON" /\
  Sample.parse (res_text problem_json)
  = inr (JObj [("success", JBool false); ("error", JStr "Form not found")]) /\
  (exists reply,
     fst (createMailerHandler (lenient_runtime (inr spaced_json) Sample.upload)
            Sample.no_env Sample.config
            (Sample.post "application/json" (Some (Sample.print Sample.ann)))
            quiet)
     = Returns reply /\
     statusCode reply = 404%N /\
     body reply = Sample.print (JObj [("error", JStr "Form not found")]) /\
     body reply <> res_text spaced_json).
Proof.
  repeat split; try reflexivity.
  eexists. repeat split; try reflexivity. vm_compute. discriminate.
Qed.

(** C9.  A POST that finds one of the three settings missing (undefined or
    empty, in the argument and in the environment) is answered with 500,
    [success: false] and the message that names the settings; nothing is
    handed to [fetch] and nothing else happens. *)
Theorem C9_missing_configuration
    (rt : Runtime) (env : ProcessEnv) (config : Config) (event : LambdaEvent)
    (w : World) :
  httpMethod event = "POST" ->
  truthy (js_or (baseUrl config) (env_MAILER_BASE_URL env)) = false \/
  truthy (js_or (formId config) (env_MAILER_FORM_ID env)) = false \/
  truthy (js_or (apiKey config) (env_MAILER_FORM_API_KEY env)) = false ->
  createMailerHandler rt env config event w =
    (Returns {| statusCode := 500; headers := json_headers;
                body := JSON_stringify rt
                  (JObj [("success", JBool false);
                         ("error", JStr missing_configuration)]) |}, w)
  /\ calls (snd (createMailerHandler rt env config event w)) = calls w.
Proof.
  intros Hpost Hmiss.
  assert (Hnone : settings_of env config = None).
  { unfold settings_of, present.
    destruct Hmiss as [H | [H | H]]; rewrite H;
      repeat case_match; reflexivity. }
  unfold createMailerHandler. rewrite Hpost, Hnone. simpl. auto.
Qed.

(** C9 on the scenario of the specification: no credential. *)
Lemma C9_witness :
  let rt := Sample.runtime (inr Sample.ok_json) Sample.upload in
  let config := {| baseUrl := Some "https://mailer.example/api";
                   formId := Some "form-7"; apiKey := Some EmptyString |} in
  let event := Sample.post "multipart/form-data; boundary=xyz" None in
  createMailerHandler rt Sample.no_env config event quiet =
    (Returns {| statusCode := 500; headers := json_headers;
                body := Sample.print
                  (JObj [("success", JBool false);
                         ("error", JStr missing_configuration)]) |}, quiet)
  /\ calls (snd (createMailerHandler rt Sample.no_env config event quiet)) = [].
Proof.
  exact (C9_missing_configuration
           (Sample.runtime (inr Sample.ok_json) Sample.upload) Sample.no_env
           {| baseUrl := Some "https://mailer.example/api";
              formId := Some "form-7"; apiKey := Some EmptyString |}
           (Sample.post "multipart/form-data; boundary=xyz" None) quiet
           eq_refl (or_intror (or_intror eq_refl))).
Defined.

(** C10.  A POST on the JSON path whose body is a string that is not empty
    and that [JSON.parse] rejects is answered with 500, [success: false] and
    the message of the exception (the fixed text [Internal server error]
    were that message empty); the exception is logged and nothing is handed
    to [fetch]. *)
Theorem C10_invalid_json_body
    (rt : Runtime) (env : ProcessEnv) (config : Config) (settings : Settings)
    (event : LambdaEvent) (w : World) (c : ascii) (b message : string) :
  httpMethod event = "POST" ->
  settings_of env config = Some settings ->
  isMultipart event = false ->
  ev_body event = Some (String c b) ->
  JSON_parse rt (String c b) = inl message ->
  createMailerHandler rt env config event w =
    (Returns {| statusCode := 500; headers := json_headers;
                body := JSON_stringify rt
                  (JObj [("success", JBool false);
                         ("error", JStr (or_else (Some message)
                                           "Internal server error"))]) |},
     {| calls := calls w;
        console_error := console_error w ++ [LogSubmitError message] |})
  /\ (message <> EmptyString -> or_else (Some message) "Internal server error" = message).
Proof.
  intros Hpost Hs Hmp Hbody Hparse. split.
  - unfold createMailerHandler. rewrite Hpost, Hs, Hmp. simpl.
    unfold handleJsonRequest, mbind, Eff_bind, lift, throw.
    rewrite Hbody. simpl. rewrite Hparse. reflexivity.
  - destruct message; [congruence | reflexivity].
Qed.

(** C10 on a body that is cut short. *)
Lemma C10_witness :
  createMailerHandler (Sample.runtime (inr Sample.ok_json) []) Sample.no_env
    Sample.config (Sample.post "application/json" (Some "{name:")) quiet =
    (Returns {| statusCode := 500; headers := json_headers;
                body := Sample.print
                  (JObj [("success", JBool false);
                         ("error", JStr "Unexpected token in JSON")]) |},
     {| calls := [];
        console_error := [LogSubmitError "Unexpected token in JSON"] |}).
Proof.
  exact (proj1 (C10_invalid_json_body
                  (Sample.runtime (inr Sample.ok_json) []) Sample.no_env
                  Sample.config Sample.settings
                  (Sample.post "application/json" (Some "{name:")) quiet
                  "{"%char "name:" "Unexpected token in JSON"
                  eq_refl eq_refl eq_refl eq_refl eq_refl)).
Defined.

(** * What the accumulator holds, for any sequence of events *)

Section Holdings.

Variable rt : Runtime.
Variable config : Settings.

Lemma forwardRequest_keeps s w :
  let s' := fst (forwardRequest rt config s w) in
  fields s' = fields s /\ files s' = files s /\
  fieldsProcessed s' = fieldsProcessed s /\
  pendingFiles s' = pendingFiles s /\
  completedFiles s' = completedFiles s /\
  streams s' = streams s.
Proof.
  unfold forwardRequest.
  destruct (forwardRequest_try rt config s w) as [[r | e] w']; simpl;
    apply settle_keeps.
Qed.

Lemma checkAndForward_keeps s w :
  let s' := fst (checkAndForward rt config s w) in
  fields s' = fields s /\ files s' = files s /\
  fieldsProcessed s' = fieldsProcessed s /\
  pendingFiles s' = pendingFiles s /\
  completedFiles s' = completedFiles s /\
  streams s' = streams s.
Proof.
  unfold checkAndForward. case_match; [apply forwardRequest_keeps | simpl; auto 10].
Qed.

Lemma on_finish_keeps s w :
  let s' := fst (on_finish rt config s w) in
  fields s' = fields s /\ files s' = files s /\
  pendingFiles s' = pendingFiles s /\
  completedFiles s' = completedFiles s /\
  streams s' = streams s.
Proof.
  unfold on_finish. simpl.
  case_match;
    [ destruct (forwardRequest_keeps (set_fieldsProcessed true s) w)
        as (? & ? & ? & ? & ? & ?)
    | destruct (checkAndForward_keeps (set_fieldsProcessed true s) w)
        as (? & ? & ? & ? & ? & ?) ];
    simpl in *; auto 10.
Qed.

(** The end of a stream with listeners: the file is appended when it has
    at least one byte, and the stream is counted in either case. *)
Lemma on_end_listened i fs s w :
  streams s !! i = Some (Some fs) ->
  let buffer := Buffer_concat (fs_chunks fs) in
  let s' := fst (on_end rt config i s w) in
  fields s' = fields s /\
  files s' =
    files s ++
      (if (0 <? length buffer)%nat
       then [{| fp_name := fs_name fs; fp_filename := fs_filename fs;
                fp_type := fs_mimeType fs; fp_buffer := buffer;
                fp_size := length buffer |}]
       else []) /\
  pendingFiles s' = pendingFiles s /\
  completedFiles s' = completedFiles s + 1 /\
  streams s' = streams s.
Proof.
  intros Hi. unfold on_end. rewrite Hi. simpl.
  match goal with
  | |- context [checkAndForward rt config ?s2 w] =>
      destruct (checkAndForward_keeps s2 w) as (K1 & K2 & K3 & K4 & K5 & K6)
  end.
  simpl in *. rewrite K1, K2, K4, K5, K6.
  destruct (0 <? length (Buffer_concat (fs_chunks fs)))%nat; simpl;
    rewrite ?app_nil_r; auto 10.
Qed.

Lemma on_end_deaf i s w :
  streams s !! i = Some None \/ streams s !! i = None ->
  on_end rt config i s w = (s, w).
Proof. intros [H | H]; unfold on_end; rewrite H; reflexivity. Qed.

Lemma on_data_deaf i chunk s :
  streams s !! i = Some None \/ streams s !! i = None ->
  on_data i chunk s = s.
Proof. intros [H | H]; unfold on_data; rewrite H; reflexivity. Qed.

Lemma sound_stream_filename filename :
  no_filename filename = false ->
  no_filename (Some (or_else filename EmptyString)) = false.
Proof. destruct filename as [[| c f] |]; simpl; auto. Qed.

(** One step keeps the streams and the files sound. *)
Lemma dispatch_sound e s w :
  Forall sound_stream (streams s) -> Forall sound_file (files s) ->
  let s' := fst (dispatch rt config e s w) in
  Forall sound_stream (streams s') /\ Forall sound_file (files s').
Proof.
  intros Hst Hfi.
  destruct e as [name value | name filename mimeType | i chunk | i | i msg | | msg];
    simpl.
  - destruct (on_field_keeps name value s) as (K1 & _ & _ & _ & K5 & _).
    rewrite K1, K5. auto.
  - unfold on_file. destruct (no_filename filename) eqn:E; simpl; split; auto;
      apply Forall_app; split; auto; repeat constructor.
    simpl. apply sound_stream_filename. exact E.
  - unfold on_data. destruct (streams s !! i) as [[fs |] |] eqn:E; simpl; auto.
    split; auto. apply Forall_insert; auto.
    simpl. exact (proj1 (Forall_lookup _ _) Hst i (Some fs) E).
  - destruct (streams s !! i) as [[fs |] |] eqn:E.
    + destruct (on_end_listened i fs s w E) as (_ & K2 & _ & _ & K5).
      rewrite K2, K5. split; auto.
      apply Forall_app. split; auto.
      destruct (0 <? length (Buffer_concat (fs_chunks fs)))%nat eqn:El;
        constructor; [| constructor].
      split; simpl.
      * exact (proj1 (Forall_lookup _ _) Hst i (Some fs) E).
      * apply Nat.ltb_lt in El. auto.
    + rewrite on_end_deaf by auto. auto.
    + rewrite on_end_deaf by auto. auto.
  - unfold on_file_error. destruct (streams s !! i) as [[fs |] |]; simpl; auto.
  - destruct (on_finish_keeps s w) as (_ & K2 & _ & _ & K5). rewrite K2, K5. auto.
  - destruct (settle_keeps (Rejected msg) s) as (_ & K2 & _ & _ & _ & K6).
    unfold reject. rewrite K2, K6. auto.
Qed.

Lemma run_sound trace w0 :
  let s := fst (run rt config trace (start, w0)) in
  Forall sound_stream (streams s) /\ Forall sound_file (files s).
Proof.
  induction trace as [| e trace IH] using rev_ind.
  - simpl. split; constructor.
  - rewrite run_snoc. destruct IH as [H1 H2]. apply dispatch_sound; assumption.
Qed.

(** The pending counter counts the file events with a usable filename,
    well-formed sequence or not. *)
Lemma run_pending trace w0 :
  let s := fst (run rt config trace (start, w0)) in
  pendingFiles s = opened trace /\ listened (streams s) = usable_files trace.
Proof.
  induction trace as [| e trace IH] using rev_ind.
  - simpl. auto.
  - rewrite run_snoc. destruct IH as [H1 H2].
    set (s := fst (run rt config trace (start, w0))) in *.
    set (w := snd (run rt config trace (start, w0))) in *.
    rewrite opened_eq, usable_files_snoc.
    destruct e as [name value | name filename mimeType | i chunk | i | i msg | | msg];
      simpl; rewrite ?app_nil_r, <- ?opened_eq.
    + destruct (on_field_keeps name value s) as (_ & _ & K3 & _ & K5 & _).
      rewrite K3, K5. auto.
    + rewrite count_marked_app, <- opened_eq. unfold on_file.
      destruct (no_filename filename); simpl; unfold listened in *;
        rewrite map_app, H2; simpl; split; auto;
        unfold count_marked; simpl; lia.
    + destruct (on_data_keeps i chunk s) as (_ & _ & _ & K3 & _ & K5 & _).
      rewrite K3, K5. auto.
    + destruct (streams s !! i) as [[fs |] |] eqn:E.
      * destruct (on_end_listened i fs s w E) as (_ & _ & K3 & _ & K5).
        rewrite K3, K5. auto.
      * rewrite on_end_deaf by auto. auto.
      * rewrite on_end_deaf by auto. auto.
    + unfold on_file_error. destruct (streams s !! i) as [[fs |] |]; simpl; auto.
    + destruct (on_finish_keeps s w) as (_ & _ & K3 & _ & K5). rewrite K3, K5. auto.
    + destruct (settle_keeps (Rejected msg) s) as (_ & _ & _ & K4 & _ & K6).
      unfold reject. rewrite K4, K6. auto.
Qed.

End Holdings.

(** * The requests that go out *)

Section Outgoing.

Variable rt : Runtime.

Lemma delete_not_in {V} (k name : string) (o : list (string * V)) :
  In name (map fst (JsObject.delete k o)) -> name <> k /\ In name (map fst o).
Proof.
  unfold JsObject.delete. rewrite in_map_iff.
  intros [[n v] [<- Hin]]. apply List.filter_In in Hin as [Hin Hk]. simpl in *.
  split.
  - apply negb_true_iff in Hk. apply String.eqb_neq in Hk. exact Hk.
  - apply in_map_iff. exists (n, v). auto.
Qed.

Lemma forwarded_fields_free flds name :
  In name (map fst (forwarded_fields flds)) -> ~ reserved name.
Proof.
  unfold forwarded_fields. rewrite in_map_iff.
  intros [[n v] [<- Hin]]. apply List.filter_In in Hin as [_ Hk]. simpl in *.
  unfold forwarded_name in Hk.
  apply andb_true_iff in Hk as [Hk H3]. apply andb_true_iff in Hk as [H1 H2].
  apply negb_true_iff in H2, H3. apply String.eqb_neq in H2, H3.
  intros [-> | ->]; congruence.
Qed.

Lemma forwardRequest_calls config s w :
  exists l, calls (snd (forwardRequest rt config s w)) = calls w ++ l.
Proof.
  unfold forwardRequest, forwardRequest_try.
  unfold mbind at 1. unfold Eff_bind at 1.
  destruct (MAILER_FORM_ID config =? EmptyString).
  { exists []. simpl. rewrite app_nil_r. auto. }
  simpl. unfold mbind at 1. unfold Eff_bind at 1.
  destruct (Text.trim (MAILER_FORM_ID config) =? EmptyString).
  { exists []. simpl. rewrite app_nil_r. auto. }
  simpl. unfold mbind, Eff_bind, call_fetch.
  set (req := upload_request rt config _ s).
  exists [req].
  destruct (fetch rt req) as [e | r]; simpl; [reflexivity |].
  match goal with
  | |- context [relay_upload rt r ?w1] =>
      pose proof (relay_upload_calls rt r w1) as Hc;
      destruct (relay_upload rt r w1) as [[x | e] w2]
  end; simpl in *; exact Hc.
Qed.

Lemma dispatch_calls config e s w :
  exists l, calls (snd (dispatch rt config e s w)) = calls w ++ l.
Proof.
  assert (Hnil : exists l, calls w = calls w ++ l)
    by (exists []; rewrite app_nil_r; auto).
  destruct e as [name value | name filename mimeType | i chunk | i | i msg | | msg];
    simpl; auto.
  - unfold on_end. destruct (streams s !! i) as [[fs |] |]; simpl; auto.
    unfold checkAndForward. case_match; simpl; auto.
    apply forwardRequest_calls.
  - unfold on_file_error. destruct (streams s !! i) as [[fs |] |]; simpl; auto.
  - unfold on_finish, checkAndForward. simpl.
    repeat case_match; simpl; auto; apply forwardRequest_calls.
Qed.

Lemma run_calls config trace s w :
  exists l, calls (snd (run rt config trace (s, w))) = calls w ++ l.
Proof.
  induction trace as [| e trace IH] using rev_ind.
  - exists []. simpl. rewrite app_nil_r. auto.
  - rewrite run_snoc. destruct IH as (l & El).
    destruct (dispatch_calls config e (fst (run rt config trace (s, w)))
                (snd (run rt config trace (s, w)))) as (l' & El').
    exists (l ++ l'). rewrite El', El, app_assoc. reflexivity.
Qed.

Lemma without_control_fields_free data : json_free (without_control_fields data).
Proof.
  intros props name E Hin Hres. destruct data; simpl in E; simplify_eq.
  apply in_map_iff in Hin as [[n v] [Hn Hin]]. simpl in Hn. subst n.
  apply List.filter_In in Hin as [_ Hk]. cbn [fst] in Hk.
  apply andb_true_iff in Hk as [H1 H2]. apply negb_true_iff in H1, H2.
  apply String.eqb_neq in H1, H2. destruct Hres; congruence.
Qed.

Lemma json_delete_both data d1 d2 :
  json_delete "form-name" data = inr d1 ->
  json_delete "bot-field" d1 = inr d2 ->
  d2 = without_control_fields data.
Proof.
  intros H1 H2.
  destruct data; simpl in H1; simplify_eq; simpl in H2; simplify_eq;
    try reflexivity.
  simpl. f_equal. unfold JsObject.delete.
  induction props as [| p props IH]; [reflexivity |].
  simpl. destruct (fst p =? "form-name"); simpl; [exact IH |].
  destruct (fst p =? "bot-field"); simpl; rewrite IH; reflexivity.
Qed.

(** The requests of the JSON path: none, or the one for the parsed body
    without its control fields. *)
Lemma handleJsonRequest_calls event config w :
  exists l, calls (snd (handleJsonRequest rt event config w)) = calls w ++ l /\
            Forall (fun r => exists data,
                      JSON_parse rt (or_else (ev_body event) "{}") = inr data /\
                      r = json_request rt config (without_control_fields data)) l.
Proof.
  assert (Hnil : exists l, calls w = calls w ++ l /\
            Forall (fun r => exists data,
                      JSON_parse rt (or_else (ev_body event) "{}") = inr data /\
                      r = json_request rt config (without_control_fields data)) l)
    by (exists []; rewrite app_nil_r; auto).
  unfold handleJsonRequest, mbind, Eff_bind, lift, throw, mret, Eff_ret.
  destruct (JSON_parse rt _) as [e | data] eqn:E0; simpl; auto.
  destruct (json_delete "form-name" data) as [e | d1] eqn:E1; simpl; auto.
  destruct (json_delete "bot-field" d1) as [e | d2] eqn:E2; simpl; auto.
  unfold call_fetch.
  exists [json_request rt config d2]. split.
  - destruct (fetch rt _) as [e | r]; simpl; [reflexivity |].
    match goal with
    | |- context [relay_json rt config r ?w1] =>
        pose proof (relay_json_calls rt config r w1) as Hc;
        destruct (relay_json rt config r w1) as [[x | e] w2]
    end; simpl in *; exact Hc.
  - constructor; [| constructor]. exists data. split; [reflexivity |].
    rewrite (json_delete_both data d1 d2 E1 E2). reflexivity.
Qed.

Lemma set_keys {V} (k name : string) (v : V) (o : list (string * V)) :
  In name (map fst (JsObject.set k v o)) -> name = k \/ In name (map fst o).
Proof.
  unfold JsObject.set. destruct (k =? "__proto__"); auto.
  destruct (JsObject.has k o).
  - unfold JsObject.replace. rewrite map_map, in_map_iff.
    intros [[n x] [<- Hin]]. simpl.
    destruct (n =? k) eqn:E; simpl; auto.
    right. apply in_map_iff. exists (n, x). auto.
  - rewrite map_app, in_app_iff. simpl. intuition.
Qed.

Lemma run_fields_free config trace w name :
  In name (map fst (fields (fst (run rt config trace (start, w))))) ->
  ~ reserved name.
Proof.
  induction trace as [| e trace IH] using rev_ind; [simpl; tauto |].
  rewrite run_snoc.
  set (s := fst (run rt config trace (start, w))) in *.
  set (w1 := snd (run rt config trace (start, w))) in *.
  destruct e as [n value | n filename mimeType | i chunk | i | i msg | | msg];
    simpl.
  - unfold on_field.
    destruct ((n =? "form-name") || (n =? "bot-field")) eqn:E; simpl; auto.
    intros Hin. apply set_keys in Hin as [-> | Hin]; auto.
    apply orb_false_iff in E as [E1 E2]. apply String.eqb_neq in E1, E2.
    intros [-> | ->]; congruence.
  - unfold on_file. destruct (no_filename filename); simpl; auto.
  - destruct (on_data_keeps i chunk s) as (K & _). rewrite K. auto.
  - destruct (streams s !! i) as [[fs |] |] eqn:E.
    + destruct (on_end_listened rt config i fs s w1 E) as (K & _).
      rewrite K. auto.
    + rewrite on_end_deaf by auto. auto.
    + rewrite on_end_deaf by auto. auto.
  - unfold on_file_error. destruct (streams s !! i) as [[fs |] |]; simpl; auto.
  - destruct (on_finish_keeps rt config s w1) as (K & _). rewrite K. auto.
  - destruct (settle_keeps (Rejected msg) s) as (K & _). unfold reject.
    rewrite K. auto.
Qed.

End Outgoing.

(** ** The control fields have no influence *)

Lemma run_without_control_events rt config trace sw :
  run rt config (without_control_events trace) sw = run rt config trace sw.
Proof.
  unfold run, without_control_events.
  revert sw. induction trace as [| e trace IH]; intros sw; [reflexivity |].
  destruct e as [name value | name filename mimeType | i chunk | i | i msg | | msg];
    try (cbn [List.filter fold_left]; apply IH).
  cbn [List.filter fold_left dispatch]. unfold on_field.
  destruct ((name =? "form-name") || (name =? "bot-field")) eqn:E;
    cbn [negb fold_left dispatch].
  - rewrite IH. destruct sw; reflexivity.
  - unfold on_field. rewrite E. apply IH.
Qed.

Lemma with_parser_run rt parser config trace sw :
  run (with_parser rt parser) config trace sw = run rt config trace sw.
Proof. reflexivity. Qed.




(** C7.  A file event without a usable filename (undefined, empty or white
    space only) leaves the pending counter and the files as they are and
    gives the stream no listener, so that the data and the end of that
    stream change nothing.  The end of a stream with listeners that carried
    no byte adds no file and still counts the stream as completed.  Hence,
    for any sequence of events, the pending counter is the number of file
    events with a usable filename, and every file that is held, and with it
    every file part of the body that is built, has a usable filename and at
    least one byte. *)
Theorem C7_unusable_and_empty_files_left_out (rt : Runtime) (config : Settings) :
  (forall name filename mimeType s,
     no_filename filename = true ->
     on_file name filename mimeType s = set_streams (streams s ++ [None]) s) /\
  (forall i chunk s w,
     streams s !! i = Some None ->
     on_data i chunk s = s /\ on_end rt config i s w = (s, w)) /\
  (forall i fs s w,
     streams s !! i = Some (Some fs) ->
     Buffer_concat (fs_chunks fs) = [] ->
     files (fst (on_end rt config i s w)) = files s /\
     completedFiles (fst (on_end rt config i s w)) = completedFiles s + 1 /\
     pendingFiles (fst (on_end rt config i s w)) = pendingFiles s) /\
  (forall trace w0,
     let s := fst (run rt config trace (start, w0)) in
     pendingFiles s = opened trace /\
     listened (streams s) = usable_files trace /\
     Forall sound_file (files s) /\
     forall boundary formIdValue,
       build_parts boundary formIdValue (fields s) (files s) =
       text_part boundary "formId" formIdValue
       ++ flat_map (fun p => text_part boundary (fst p) (snd p))
            (forwarded_fields (fields s))
       ++ flat_map (file_part boundary) (files s)
       ++ [ Str ("--" +:+ boundary +:+ "--" +:+ CRLF) ]).
Proof.
  repeat split.
  - intros name filename mimeType s H. unfold on_file. rewrite H. reflexivity.
  - apply on_data_deaf. auto.
  - apply on_end_deaf. auto.
  - destruct (on_end_listened rt config i fs s w H) as (_ & K & _).
    rewrite K, H0. simpl. apply app_nil_r.
  - destruct (on_end_listened rt config i fs s w H) as (_ & _ & _ & K & _).
    exact K.
  - destruct (on_end_listened rt config i fs s w H) as (_ & _ & K & _).
    exact K.
  - apply run_pending.
  - apply run_pending.
  - apply run_sound.
Qed.

(** C7 on the sample upload: the file input left empty is the stream 0. *)
Lemma C7_witness :
  let rt := Sample.runtime (inr Sample.ok_json) Sample.upload in
  let s := fst (run rt Sample.settings (take 3 Sample.upload) (start, quiet)) in
  on_file "photo" (Some "  ") "application/octet-stream" s
  = set_streams (streams s ++ [None]) s
  /\ on_end rt Sample.settings 0 s quiet = (s, quiet).
Proof.
  pose proof (C7_unusable_and_empty_files_left_out
                (Sample.runtime (inr Sample.ok_json) Sample.upload)
                Sample.settings) as (H1 & H2 & _).
  split.
  - exact (H1 "photo" (Some "  ") "application/octet-stream" _ eq_refl).
  - exact (proj2 (H2 0 []
             (fst (run (Sample.runtime (inr Sample.ok_json) Sample.upload)
                     Sample.settings (take 3 Sample.upload) (start, quiet)))
             quiet eq_refl)).
Defined.

(** * A stream that fails *)

Lemma source_after_app pre more :
  source_after (pre ++ more) =
  fold_left (fun p e => p ≫= emit e) more (source_after pre).
Proof. unfold source_after. apply fold_left_app. Qed.

Lemma emit_keeps_failed e p p' i :
  emit e p = Some p' ->
  src_streams p !! i = Some Failed -> src_streams p' !! i = Some Failed.
Proof.
  intros He Hi.
  destruct e as [name value | name filename mimeType | j chunk | j | j msg | | msg];
    simpl in He; repeat case_match; simplify_eq; simpl; auto.
  - apply lookup_app_l_Some. exact Hi.
  - rewrite list_lookup_insert_ne; [exact Hi | congruence].
  - rewrite list_lookup_insert_ne; [exact Hi | congruence].
Qed.

Lemma failed_stays more p q i :
  fold_left (fun p e => p ≫= emit e) more (Some p) = Some q ->
  src_streams p !! i = Some Failed -> src_streams q !! i = Some Failed.
Proof.
  revert p. induction more as [| e more IH]; intros p Hq Hi; simpl in Hq.
  - simplify_eq. exact Hi.
  - destruct (emit e p) as [p' |] eqn:E.
    + eapply IH; eauto. eapply emit_keeps_failed; eauto.
    + exfalso. clear -Hq. induction more as [| e' more IH]; simpl in Hq;
        [discriminate | auto].
Qed.

(** A stream with listeners that has failed keeps the submission
    incomplete. *)
Lemma failed_blocks trace p i :
  source_after trace = Some p ->
  usable_files trace !! i = Some true ->
  src_streams p !! i = Some Failed ->
  ready trace = false.
Proof.
  intros Hp Hu Hf.
  pose proof (invariant_run (Sample.runtime (inl EmptyString) []) Sample.settings
                (fun _ => True) eq_refl (fun _ _ _ => I) quiet trace p Hp) as Inv.
  pose proof (count_ended_lt _ _ _ _ Hu Hf ltac:(discriminate)) as Hlt.
  rewrite <- (inv_drained _ _ _ _ _ _ Inv), <- opened_eq in Hlt.
  unfold ready. replace (drained trace =? opened trace)%nat with false.
  - apply andb_false_r.
  - symmetry. apply Nat.eqb_neq. lia.
Qed.


(** * The order of the parts *)

Lemma has_keys {V} (k : string) (o : list (string * V)) :
  JsObject.has k o = existsb (String.eqb k) (map fst o).
Proof.
  unfold JsObject.has. induction o as [| p o IH]; simpl; [reflexivity |].
  rewrite IH, (String.eqb_sym (fst p) k). reflexivity.
Qed.

Lemma replace_keys {V} (k : string) (v : V) (o : list (string * V)) :
  map fst (JsObject.replace k v o) = map fst o.
Proof.
  unfold JsObject.replace. rewrite map_map. apply map_ext_in.
  intros p _. destruct (fst p =? k) eqn:E; [| reflexivity].
  apply String.eqb_eq in E. simpl. congruence.
Qed.

Lemma set_keys_eq {V} (k : string) (v : V) (o : list (string * V)) :
  (k =? "__proto__") = false ->
  map fst (JsObject.set k v o) = add_new (map fst o) k.
Proof.
  intros Hk. unfold JsObject.set, add_new. rewrite Hk, has_keys.
  destruct (existsb _ _).
  - apply replace_keys.
  - rewrite map_app. reflexivity.
Qed.

Lemma set_proto_eq {V} (k : string) (v : V) (o : list (string * V)) :
  (k =? "__proto__") = true -> JsObject.set k v o = o.
Proof. intros Hk. unfold JsObject.set. rewrite Hk. reflexivity. Qed.

Lemma stored_fields_snoc trace e :
  stored_fields (trace ++ [e]) =
  stored_fields trace ++
    match e with
    | OnField name value =>
        if (name =? "form-name") || (name =? "bot-field") || (name =? "__proto__")
        then [] else [(name, value)]
    | _ => []
    end.
Proof.
  unfold stored_fields. rewrite flat_map_app. simpl. rewrite app_nil_r.
  reflexivity.
Qed.

(** The keys of the accumulated fields are the stored names in the order of
    their first occurrence. *)
Lemma run_field_keys rt config trace w0 :
  map fst (fields (fst (run rt config trace (start, w0)))) =
  first_seen (map fst (stored_fields trace)).
Proof.
  induction trace as [| e trace IH] using rev_ind; [reflexivity |].
  rewrite run_snoc, stored_fields_snoc, map_app.
  unfold first_seen in *. rewrite fold_left_app, <- IH.
  set (s := fst (run rt config trace (start, w0))).
  set (w := snd (run rt config trace (start, w0))).
  destruct e as [n value | n filename mimeType | i chunk | i | i msg | | msg];
    simpl.
  - unfold on_field.
    destruct ((n =? "form-name") || (n =? "bot-field")) eqn:E; simpl;
      [reflexivity |].
    destruct (n =? "__proto__") eqn:Ep; simpl.
    + rewrite set_proto_eq by assumption. reflexivity.
    + apply set_keys_eq. assumption.
  - unfold on_file. destruct (no_filename filename); reflexivity.
  - destruct (on_data_keeps i chunk s) as (K & _). rewrite K. reflexivity.
  - destruct (streams s !! i) as [[fs |] |] eqn:E.
    + destruct (on_end_listened rt config i fs s w E) as (K & _).
      rewrite K. reflexivity.
    + rewrite on_end_deaf by auto. reflexivity.
    + rewrite on_end_deaf by auto. reflexivity.
  - unfold on_file_error. destruct (streams s !! i) as [[fs |] |]; reflexivity.
  - destruct (on_finish_keeps rt config s w) as (K & _). rewrite K. reflexivity.
  - destruct (settle_keeps (Rejected msg) s) as (K & _). unfold reject.
    rewrite K. reflexivity.
Qed.

Lemma named_entries_keys {V} (o : list (string * V)) :
  map fst (JsObject.named_entries o) =
  List.filter (fun k => negb (JsObject.is_index k)) (map fst o).
Proof.
  unfold JsObject.named_entries. induction o as [| p o IH]; simpl; [reflexivity |].
  destruct (negb (JsObject.is_index (fst p))); simpl; rewrite IH; reflexivity.
Qed.

Lemma insert_index_sorted {V} n (p : string * V) l :
  StronglySorted N.le (map fst l) ->
  StronglySorted N.le (map fst (JsObject.insert_index n p l)).
Proof.
  induction l as [| [m q] l IH]; simpl; intros Hs.
  - repeat constructor.
  - inversion Hs as [| ? ? Hs' Hall]; subst.
    destruct (n <? m)%N eqn:E; simpl.
    + apply N.ltb_lt in E. constructor; [exact Hs |].
      constructor; [lia |]. eapply Forall_impl; [exact Hall |].
      intros x Hx. simpl in Hx. lia.
    + apply N.ltb_ge in E. constructor; [apply IH; exact Hs' |].
      clear IH Hs Hs'. induction l as [| [m' q'] l IHl]; simpl.
      * repeat constructor. exact E.
      * inversion Hall; subst. destruct (n <? m')%N; simpl.
        -- constructor; [exact E |]. constructor; assumption.
        -- constructor; [assumption |]. apply IHl. assumption.
Qed.

Lemma index_entries_sorted {V} (o : list (string * V)) :
  StronglySorted N.le (map fst (JsObject.index_entries o)).
Proof.
  induction o as [| p o IH]; simpl; [constructor |].
  destruct (JsObject.array_index (fst p)); [| exact IH].
  apply insert_index_sorted. exact IH.
Qed.

Lemma insert_index_key {V} n (p : string * V) l :
  Forall (fun e => JsObject.array_index (fst (snd e)) = Some (fst e)) l ->
  JsObject.array_index (fst p) = Some n ->
  Forall (fun e => JsObject.array_index (fst (snd e)) = Some (fst e))
    (JsObject.insert_index n p l).
Proof.
  induction l as [| [m q] l IH]; simpl; intros Hl Hp.
  - repeat constructor. exact Hp.
  - inversion Hl; subst. destruct (n <? m)%N; constructor; auto.
Qed.

Lemma index_entries_key {V} (o : list (string * V)) :
  Forall (fun e => JsObject.array_index (fst (snd e)) = Some (fst e))
    (JsObject.index_entries o).
Proof.
  induction o as [| p o IH]; simpl; [constructor |].
  destruct (JsObject.array_index (fst p)) eqn:E; [| exact IH].
  apply insert_index_key; assumption.
Qed.

Lemma index_entries_none {V} (o : list (string * V)) :
  Forall (fun k => JsObject.is_index k = false) (map fst o) ->
  JsObject.index_entries o = [] /\ JsObject.named_entries o = o.
Proof.
  unfold JsObject.named_entries.
  induction o as [| p o IH]; simpl; intros H; [auto |].
  inversion H as [| ? ? Hp Ho]; subst. destruct (IH Ho) as [I1 I2].
  rewrite Hp. simpl. rewrite I2. unfold JsObject.is_index in Hp.
  destruct (JsObject.array_index (fst p)); [discriminate | auto].
Qed.

Lemma filter_keys (f : string -> bool) (l : list (string * string)) :
  map fst (List.filter (fun p => f (fst p)) l) = List.filter f (map fst l).
Proof.
  induction l as [| p l IH]; simpl; [reflexivity |].
  destruct (f (fst p)); simpl; rewrite IH; reflexivity.
Qed.

Lemma multipart_body_closing boundary formIdValue flds fls :
  exists front,
    multipart_body boundary formIdValue flds fls =
    front ++ Buffer_from ("--" +:+ boundary +:+ "--" +:+ CRLF).
Proof.
  unfold multipart_body, build_parts, Buffer_concat.
  rewrite !app_assoc, map_app, concat_app.
  eexists. f_equal. cbn [map concat to_buffer]. apply app_nil_r.
Qed.

Lemma first_seen_Forall (P : string -> Prop) names :
  Forall P names -> Forall P (first_seen names).
Proof.
  unfold first_seen. generalize (@nil string) (List.Forall_nil P).
  induction names as [| n names IH]; intros acc Hacc Hn; simpl; [exact Hacc |].
  inversion Hn; subst. apply IH; [| assumption].
  unfold add_new. destruct (existsb _ _); [exact Hacc |].
  apply Forall_app. split; [exact Hacc | repeat constructor; assumption].
Qed.

Lemma dispatch_files rt config e s w :
  exists added, files (fst (dispatch rt config e s w)) = files s ++ added.
Proof.
  destruct e as [n value | n filename mimeType | i chunk | i | i msg | | msg];
    simpl.
  - destruct (on_field_keeps n value s) as (K & _). rewrite K.
    exists []. symmetry. apply app_nil_r.
  - exists []. unfold on_file. destruct (no_filename filename); simpl;
      symmetry; apply app_nil_r.
  - destruct (on_data_keeps i chunk s) as (_ & K & _). rewrite K.
    exists []. symmetry. apply app_nil_r.
  - destruct (streams s !! i) as [[fs |] |] eqn:E.
    + destruct (on_end_listened rt config i fs s w E) as (_ & K & _).
      rewrite K. eexists. reflexivity.
    + rewrite on_end_deaf by auto. exists []. symmetry. apply app_nil_r.
    + rewrite on_end_deaf by auto. exists []. symmetry. apply app_nil_r.
  - exists []. unfold on_file_error.
    destruct (streams s !! i) as [[fs |] |]; simpl; symmetry; apply app_nil_r.
  - destruct (on_finish_keeps rt config s w) as (_ & K & _). rewrite K.
    exists []. symmetry. apply app_nil_r.
  - destruct (settle_keeps (Rejected msg) s) as (_ & K & _). unfold reject.
    rewrite K. exists []. symmetry. apply app_nil_r.
Qed.




(** * A name with a double quote *)

Lemma Buffer_from_app a b :
  Buffer_from (a +:+ b) = Buffer_from a ++ Buffer_from b.
Proof.
  unfold Buffer_from, list_byte_of_string.
  induction a as [| c a IH]; simpl; [reflexivity |].
  f_equal. exact IH.
Qed.

(** Plain text is read up to the double quote that follows it. *)
Lemma quoted_text_plain pre rest :
  Reference.plain pre = true ->
  Reference.quoted_text (pre ++ Reference.dq :: rest) = Some (pre, rest).
Proof.
  induction pre as [| c pre IH]; intros Hp; [reflexivity |].
  simpl in Hp. apply andb_true_iff in Hp as [Hc Hp].
  apply andb_true_iff in Hc as [Hc Hcr]. apply andb_true_iff in Hc as [Hdq Hbs].
  apply negb_true_iff in Hdq, Hbs, Hcr.
  change (Reference.quoted_text ((c :: pre) ++ Reference.dq :: rest))
    with (if Byte.eqb c Reference.dq then Some ([], pre ++ Reference.dq :: rest)
          else if Byte.eqb c Reference.cr then None
          else if Byte.eqb c Reference.backslash then
            match pre ++ Reference.dq :: rest with
            | [] => None
            | d :: s'' =>
                option_map (fun r => (d :: fst r, snd r))
                  (Reference.quoted_text s'')
            end
          else option_map (fun r => (c :: fst r, snd r))
                 (Reference.quoted_text (pre ++ Reference.dq :: rest))).
  rewrite Hdq, Hcr, Hbs, (IH Hp). reflexivity.
Qed.

(** The bytes of the part of a field: the name stands between two double
    quotes as it is. *)
Lemma text_part_bytes boundary name value :
  concat (map to_buffer (text_part boundary name value)) =
  Buffer_from ("--" +:+ boundary +:+ CRLF)
  ++ Buffer_from "Content-Disposition: form-data; name="
  ++ Reference.dq :: Buffer_from name
  ++ Reference.dq :: Reference.crlf ++ Reference.crlf
  ++ Buffer_from value ++ Reference.crlf.
Proof.
  unfold text_part. cbn [map concat to_buffer app].
  rewrite !Buffer_from_app, <- !app_assoc, !app_nil_r. reflexivity.
Qed.

(** C2, what the code does.  The name of a field is written into its
    [Content-Disposition] line between two double quotes as it is, with no
    escaping.  When the name holds a double quote, the quoted-string that a
    reader of the line finds after [name=] ends at that quote: what is
    read back is the part of the name before it, and the rest of the name
    is left over in the line.  The name does not come back. *)
Theorem C2_name_is_not_escaped
    (boundary formIdValue : string) (flds : list (string * string))
    (fls : list FilePart) (name value pre post : string) :
  In (name, value) (forwarded_fields flds) ->
  name = pre +:+ DQ +:+ post ->
  Reference.plain (Buffer_from pre) = true ->
  exists before after,
    multipart_body boundary formIdValue flds fls =
      before ++ Buffer_from "Content-Disposition: form-data; name="
      ++ Reference.dq :: Buffer_from name ++ Reference.dq :: after /\
    Reference.quoted_string
      (Reference.dq :: Buffer_from name ++ Reference.dq :: after)
    = Some (Buffer_from pre, Buffer_from post ++ Reference.dq :: after) /\
    Buffer_from pre <> Buffer_from name.
Proof.
  intros Hin -> Hplain.
  apply in_split in Hin as (l1 & l2 & Hsplit).
  exists (concat (map to_buffer
            (text_part boundary "formId" formIdValue
             ++ flat_map (fun p => text_part boundary (fst p) (snd p)) l1))
          ++ Buffer_from ("--" +:+ boundary +:+ CRLF)),
         (Reference.crlf ++ Reference.crlf ++ Buffer_from value ++ Reference.crlf
          ++ concat (map to_buffer
               (flat_map (fun p => text_part boundary (fst p) (snd p)) l2
                ++ flat_map (file_part boundary) fls
                ++ [ Str ("--" +:+ boundary +:+ "--" +:+ CRLF) ]))).
  split; [| split].
  - unfold multipart_body, build_parts, Buffer_concat. rewrite Hsplit.
    rewrite flat_map_app. cbn [flat_map fst snd].
    rewrite !map_app, !concat_app.
    rewrite (text_part_bytes boundary (pre +:+ DQ +:+ post) value).
    repeat first [rewrite <- app_assoc | progress cbn [app]]. reflexivity.
  - rewrite !Buffer_from_app.
    change (Buffer_from DQ) with [Reference.dq].
    rewrite <- !app_assoc. cbn [app].
    apply quoted_text_plain. exact Hplain.
  - rewrite !Buffer_from_app. intros E.
    apply (f_equal (@length byte)) in E. rewrite !length_app in E.
    change (length (Buffer_from DQ)) with 1 in E. lia.
Qed.

(** C2 on the field whose name is [who], a double quote and [am]: what is
    read back is [who]. *)
Lemma C2_witness :
  let rt := Sample.runtime (inr Sample.ok_json) quoted_form in
  let s := fst (run rt Sample.settings quoted_form (start, quiet)) in
  exists before after,
    multipart_body (make_boundary rt) "form-7" (fields s) (files s) =
      before ++ Buffer_from "Content-Disposition: form-data; name="
      ++ Reference.dq :: Buffer_from ("who" +:+ DQ +:+ "am")
      ++ Reference.dq :: after /\
    Reference.quoted_string
      (Reference.dq :: Buffer_from ("who" +:+ DQ +:+ "am")
       ++ Reference.dq :: after)
    = Some (Buffer_from "who", Buffer_from "am" ++ Reference.dq :: after) /\
    Buffer_from "who" <> Buffer_from ("who" +:+ DQ +:+ "am").
Proof.
  apply (C2_name_is_not_escaped
           (make_boundary (Sample.runtime (inr Sample.ok_json) quoted_form))
           "form-7"
           (fields (fst (run (Sample.runtime (inr Sample.ok_json) quoted_form)
                           Sample.settings quoted_form (start, quiet))))
           (files (fst (run (Sample.runtime (inr Sample.ok_json) quoted_form)
                          Sample.settings quoted_form (start, quiet))))
           ("who" +:+ DQ +:+ "am") "x" "who" "am").
  - left. reflexivity.
  - reflexivity.
  - reflexivity.
Defined.

(** * Further properties of the handler *)

(** ** A promise settles once *)

Lemma forwardRequest_settled rt config s w :
  promise s <> Pending ->
  promise (fst (forwardRequest rt config s w)) = promise s.
Proof.
  intros H. unfold forwardRequest.
  destruct (forwardRequest_try rt config s w) as [[r | e] w']; simpl;
    unfold resolve, reject; rewrite settle_promise;
    destruct (promise s); congruence.
Qed.

Lemma dispatch_settled rt config e s w :
  promise s <> Pending ->
  promise (fst (dispatch rt config e s w)) = promise s.
Proof.
  intros H.
  destruct e as [n value | n filename mimeType | i chunk | i | i msg | | msg];
    simpl.
  - destruct (on_field_keeps n value s) as (_ & _ & _ & _ & _ & K). exact K.
  - unfold on_file. destruct (no_filename filename); reflexivity.
  - destruct (on_data_keeps i chunk s) as (_ & _ & _ & _ & _ & _ & K). exact K.
  - unfold on_end. destruct (streams s !! i) as [[fs |] |]; simpl; auto.
    unfold checkAndForward. case_match; simpl.
    + rewrite forwardRequest_settled; simpl; case_match; simpl; auto.
    + case_match; reflexivity.
  - unfold on_file_error. destruct (streams s !! i) as [[fs |] |]; reflexivity.
  - unfold on_finish, checkAndForward. simpl.
    repeat case_match; simpl; auto; rewrite forwardRequest_settled; simpl; auto.
  - unfold reject. rewrite settle_promise. destruct (promise s); congruence.
Qed.

Lemma run_settled rt config trace s w :
  promise s <> Pending ->
  promise (fst (run rt config trace (s, w))) = promise s.
Proof.
  intros H. induction trace as [| e trace IH] using rev_ind; [reflexivity |].
  rewrite run_snoc, dispatch_settled; [exact IH | rewrite IH; exact H].
Qed.

Lemma run_app rt config pre post sw :
  run rt config (pre ++ post) sw = run rt config post (run rt config pre sw).
Proof. unfold run. apply fold_left_app. Qed.

(** X1.  A parser error that arrives before a well-formed submission is
    complete aborts it: nothing has been sent when it arrives, and whatever
    events follow, the handler answers 500 with the message of that
    error. *)
Theorem X1_parser_error_aborts
    (rt : Runtime) (env : ProcessEnv) (config : Config) (settings : Settings)
    (event : LambdaEvent) (w : World) (pre : list PartEvent)
    (message : string) (post : list PartEvent) :
  httpMethod event = "POST" ->
  settings_of env config = Some settings ->
  isMultipart event = true ->
  formId_usable settings = true ->
  Busboy rt event = pre ++ OnError message :: post ->
  well_formed pre = true -> parses pre = true -> ready pre = false ->
  fst (createMailerHandler rt env config event w)
    = Returns (internal_error rt message) /\
  length (calls (snd (run rt settings pre (start, w)))) = length (calls w).
Proof.
  intros Hpost Hs Hmp Hid Hb Hwf Hpar Hnr.
  unfold well_formed in Hwf.
  destruct (source_after pre) as [p |] eqn:Hp; [| discriminate].
  pose proof (invariant_run rt settings (fun _ => True) Hid (fun _ _ _ => I)
                w pre p Hp) as Inv.
  pose proof (inv_promise _ _ _ _ _ _ Inv Hpar) as Hprom.
  pose proof (inv_calls _ _ _ _ _ _ Inv) as Hcalls.
  rewrite Hnr in Hprom, Hcalls.
  split; [| lia].
  unfold createMailerHandler, handleMultipartRequest.
  rewrite Hpost, Hs, Hmp, Hb. simpl.
  change (pre ++ OnError message :: post) with (pre ++ [OnError message] ++ post).
  rewrite !run_app.
  destruct (run rt settings pre (start, w)) as [s1 w1] eqn:E1. simpl in Hprom.
  assert (Hrej : promise (fst (run rt settings [OnError message] (s1, w1)))
                 = Rejected message).
  { simpl. unfold reject. rewrite settle_promise, Hprom. reflexivity. }
  destruct (run rt settings [OnError message] (s1, w1)) as [s2 w2] eqn:E2.
  simpl in Hrej.
  rewrite (run_settled rt settings post s2 w2) by (rewrite Hrej; discriminate).
  rewrite Hrej. reflexivity.
Qed.

Lemma X1_witness :
  fst (createMailerHandler (Sample.runtime (inr Sample.ok_json) aborted_upload)
         Sample.no_env Sample.config
         (Sample.post "multipart/form-data; boundary=xyz" None) quiet)
  = Returns (internal_error (Sample.runtime (inr Sample.ok_json) aborted_upload)
               "Unexpected end of form").
Proof.
  exact (proj1 (X1_parser_error_aborts
                  (Sample.runtime (inr Sample.ok_json) aborted_upload)
                  Sample.no_env Sample.config Sample.settings
                  (Sample.post "multipart/form-data; boundary=xyz" None) quiet
                  (take 3 aborted_upload) "Unexpected end of form" [OnFinish]
                  eq_refl eq_refl eq_refl eq_refl eq_refl eq_refl eq_refl eq_refl)).
Defined.

(** ** The headers of every reply *)

Lemma relay_upload_headers rt r w x :
  fst (relay_upload rt r w) = Normal x -> headers x = json_headers.
Proof.
  unfold relay_upload, mbind, Eff_bind, lift, throw, mret, Eff_ret, logError.
  repeat (case_match; simpl in *; simplify_eq); intros Hx; simplify_eq;
    reflexivity.
Qed.

Lemma relay_json_headers rt config r w x :
  fst (relay_json rt config r w) = Normal x -> headers x = json_headers.
Proof.
  unfold relay_json, mbind, Eff_bind, lift, throw, mret, Eff_ret, logError.
  repeat (case_match; simpl in *; simplify_eq); intros Hx; simplify_eq;
    reflexivity.
Qed.

Lemma forwardRequest_try_value rt config s w x w' :
  forwardRequest_try rt config s w = (Normal x, w') ->
  exists r w1, fst (relay_upload rt r w1) = Normal x.
Proof.
  unfold forwardRequest_try.
  unfold mbind at 1. unfold Eff_bind at 1.
  destruct (MAILER_FORM_ID config =? EmptyString); [discriminate |]. simpl.
  unfold mbind at 1. unfold Eff_bind at 1.
  destruct (Text.trim (MAILER_FORM_ID config) =? EmptyString); [discriminate |].
  simpl. unfold mbind, Eff_bind, call_fetch.
  destruct (fetch rt _) as [e | r]; [discriminate |].
  intros E. eexists r, _. rewrite E. reflexivity.
Qed.

Lemma forwardRequest_headers rt config s w x :
  (forall y, promise s = Resolved y -> headers y = json_headers) ->
  promise (fst (forwardRequest rt config s w)) = Resolved x ->
  headers x = json_headers.
Proof.
  intros Hs. unfold forwardRequest.
  destruct (forwardRequest_try rt config s w) as [[r | e] w'] eqn:E; simpl;
    unfold resolve, reject; rewrite settle_promise.
  - destruct (promise s) eqn:Ep; intros Hx; simplify_eq; auto.
    apply forwardRequest_try_value in E as (r' & w1 & E).
    eapply relay_upload_headers; eauto.
  - destruct (promise s) eqn:Ep; intros Hx; simplify_eq; auto.
Qed.

Lemma dispatch_headers rt config e s w :
  (forall y, promise s = Resolved y -> headers y = json_headers) ->
  forall x, promise (fst (dispatch rt config e s w)) = Resolved x ->
            headers x = json_headers.
Proof.
  intros Hs x.
  destruct e as [n value | n filename mimeType | i chunk | i | i msg | | msg];
    simpl.
  - destruct (on_field_keeps n value s) as (_ & _ & _ & _ & _ & K).
    rewrite K. auto.
  - unfold on_file. destruct (no_filename filename); simpl; auto.
  - destruct (on_data_keeps i chunk s) as (_ & _ & _ & _ & _ & _ & K).
    rewrite K. auto.
  - unfold on_end. destruct (streams s !! i) as [[fs |] |]; simpl; auto.
    unfold checkAndForward. case_match.
    + apply forwardRequest_headers. simpl. case_match; simpl; auto.
    + simpl. case_match; simpl; auto.
  - unfold on_file_error. destruct (streams s !! i) as [[fs |] |]; simpl; auto.
  - unfold on_finish, checkAndForward. simpl.
    repeat case_match; simpl; auto; apply forwardRequest_headers; simpl; auto.
  - unfold reject. rewrite settle_promise.
    destruct (promise s) eqn:Ep; intros Hx; simplify_eq; auto.
Qed.

Lemma run_headers rt config trace w x :
  promise (fst (run rt config trace (start, w))) = Resolved x ->
  headers x = json_headers.
Proof.
  revert x. induction trace as [| e trace IH] using rev_ind; intros x.
  - simpl. discriminate.
  - rewrite run_snoc. apply dispatch_headers. exact IH.
Qed.

(** X2.  Whatever the event, the configuration and the runtime, a reply of
    the handler carries the JSON content type and the header that allows
    every origin. *)
Theorem X2_reply_headers
    (rt : Runtime) (env : ProcessEnv) (config : Config) (event : LambdaEvent)
    (w : World) (r : HandlerResponse) :
  fst (createMailerHandler rt env config event w) = Returns r ->
  headers r =
    [("Content-Type", "application/json"); ("Access-Control-Allow-Origin", "*")].
Proof.
  unfold createMailerHandler.
  destruct (negb (httpMethod event =? "POST"));
    [simpl; intros H; simplify_eq; reflexivity |].
  destruct (settings_of env config) as [settings |];
    [| simpl; intros H; simplify_eq; reflexivity].
  destruct (isMultipart event).
  - unfold handleMultipartRequest.
    pose proof (run_headers rt settings (Busboy rt event) w) as Hh.
    destruct (promise _) as [| x | e]; simpl; intros H; simplify_eq.
    + apply Hh. reflexivity.
    + reflexivity.
  - pose proof (fun x => relay_json_headers rt settings x) as Hr.
    destruct (handleJsonRequest rt event settings w) as [[x | e] w'] eqn:E;
      simpl; intros H; simplify_eq; [| reflexivity].
    revert E. unfold handleJsonRequest, mbind, Eff_bind, lift, throw, mret,
      Eff_ret, call_fetch.
    destruct (JSON_parse rt _) as [e | data]; simpl; [discriminate |].
    destruct (json_delete "form-name" data) as [e | d1]; simpl; [discriminate |].
    destruct (json_delete "bot-field" d1) as [e | d2]; simpl; [discriminate |].
    destruct (fetch rt _) as [e | m]; [discriminate |].
    intros E. eapply Hr. rewrite E. reflexivity.
Qed.

Lemma X2_witness :
  headers {| statusCode := 200; headers := json_headers;
             body := Sample.print
               (JObj [("success", JBool true);
                      ("data", JObj [("ok", JBool true)])]) |}
  = [("Content-Type", "application/json"); ("Access-Control-Allow-Origin", "*")].
Proof.
  exact (X2_reply_headers (Sample.runtime (inr Sample.ok_json) Sample.upload)
           Sample.no_env Sample.config
           (Sample.post "multipart/form-data; boundary=xyz" None) quiet _ eq_refl).
Defined.

(** ** What goes out on the JSON path *)

Lemma delete_twice (props : list (string * JSON)) :
  JsObject.delete "bot-field" (JsObject.delete "form-name" props) =
  List.filter
    (fun p => negb (fst p =? "form-name") && negb (fst p =? "bot-field")) props.
Proof.
  unfold JsObject.delete. induction props as [| p props IH]; [reflexivity |].
  simpl. destruct (fst p =? "form-name"); simpl; [exact IH |].
  destruct (fst p =? "bot-field"); simpl; rewrite IH; reflexivity.
Qed.

Lemma json_delete_twice data :
  data <> JNull ->
  exists d1,
    json_delete "form-name" data = inr d1 /\
    json_delete "bot-field" d1 = inr (without_control_fields data).
Proof.
  destruct data; simpl; try congruence; eauto.
  intros _. eexists. split; [reflexivity |]. simpl.
  rewrite delete_twice. reflexivity.
Qed.

(** X3.  On the JSON path a body that parses to a value other than [null]
    makes the handler send exactly one request, whatever the mailer does
    with it: a POST to [<base>/form-submissions] with the bearer credential
    and the JSON content type, whose body is
    [{formId: <the form identifier as configured, not trimmed>, formData:
    <the parsed body>}], the parsed body having lost the properties
    [form-name] and [bot-field] and nothing else. *)
Theorem X3_json_request
    (rt : Runtime) (env : ProcessEnv) (config : Config) (settings : Settings)
    (event : LambdaEvent) (w : World) (data : JSON) :
  httpMethod event = "POST" ->
  settings_of env config = Some settings ->
  isMultipart event = false ->
  JSON_parse rt (or_else (ev_body event) "{}") = inr data ->
  data <> JNull ->
  calls (snd (createMailerHandler rt env config event w)) =
    calls w ++
    [ {| req_url := MAILER_BASE_URL settings +:+ "/form-submissions";
         req_method := "POST";
         req_authorization := "Bearer " +:+ MAILER_FORM_API_KEY settings;
         req_content_type := "application/json";
         req_body := TextBody (JSON_stringify rt
           (JObj [("formId", JStr (MAILER_FORM_ID settings));
                  ("formData", without_control_fields data)])) |} ].
Proof.
  intros Hpost Hs Hmp Hparse Hnull.
  unfold createMailerHandler. rewrite Hpost, Hs, Hmp. simpl.
  destruct (json_delete_twice data Hnull) as (d1 & E1 & E2).
  unfold handleJsonRequest, mbind, Eff_bind, lift, call_fetch.
  rewrite Hparse. simpl. rewrite E1. simpl. rewrite E2. simpl.
  fold (json_request rt settings (without_control_fields data)).
  destruct (fetch rt _) as [e | r]; simpl; [reflexivity |].
  match goal with
  | |- context [relay_json rt settings r ?w1] =>
      pose proof (relay_json_calls rt settings r w1) as Hc;
      destruct (relay_json rt settings r w1) as [[x | e] w2]
  end; simpl in *; exact Hc.
Qed.

Lemma X3_witness :
  calls (snd (createMailerHandler (Sample.runtime (inl "ECONNREFUSED") [])
                Sample.no_env Sample.config
                (Sample.post "application/json"
                   (Some (Sample.print Sample.ann_marked))) quiet))
  = [ {| req_url := "https://mailer.example/api/form-submissions";
         req_method := "POST";
         req_authorization := "Bearer secret";
         req_content_type := "application/json";
         req_body := TextBody (Sample.print
           (JObj [("formId", JStr "form-7"); ("formData", Sample.ann)])) |} ].
Proof.
  refine (X3_json_request (Sample.runtime (inl "ECONNREFUSED") [])
            Sample.no_env Sample.config Sample.settings
            (Sample.post "application/json"
               (Some (Sample.print Sample.ann_marked))) quiet Sample.ann_marked
            eq_refl eq_refl eq_refl eq_refl _).
  discriminate.
Defined.

(** X6.  On the JSON path a body that parses to [null] cannot lose a
    property: the handler answers 500 with the message of that exception
    and sends nothing. *)
Theorem X6_json_null_body
    (rt : Runtime) (env : ProcessEnv) (config : Config) (settings : Settings)
    (event : LambdaEvent) (w : World) :
  httpMethod event = "POST" ->
  settings_of env config = Some settings ->
  isMultipart event = false ->
  JSON_parse rt (or_else (ev_body event) "{}") = inr JNull ->
  exists message,
    message <> EmptyString /\
    createMailerHandler rt env config event w =
      (Returns (internal_error rt message),
       {| calls := calls w;
          console_error := console_error w ++ [LogSubmitError message] |}).
Proof.
  intros Hpost Hs Hmp Hparse.
  unfold createMailerHandler. rewrite Hpost, Hs, Hmp. simpl.
  unfold handleJsonRequest, mbind, Eff_bind, lift, throw.
  rewrite Hparse. simpl.
  eexists. split; [| reflexivity]. discriminate.
Qed.

Lemma X6_witness :
  exists message,
    message <> EmptyString /\
    createMailerHandler (Sample.runtime (inr Sample.ok_json) [])
      Sample.no_env Sample.config
      (Sample.post "application/json" (Some "null")) quiet =
      (Returns (internal_error (Sample.runtime (inr Sample.ok_json) []) message),
       {| calls := []; console_error := [LogSubmitError message] |}).
Proof.
  exact (X6_json_null_body (Sample.runtime (inr Sample.ok_json) [])
           Sample.no_env Sample.config Sample.settings
           (Sample.post "application/json" (Some "null")) quiet
           eq_refl eq_refl eq_refl eq_refl).
Defined.

(** ** Failures after the request was sent *)

Lemma forwardRequest_usable rt config s w :
  formId_usable config = true ->
  forwardRequest rt config s w =
  let req := upload_request rt config (Text.trim (MAILER_FORM_ID config)) s in
  let w1 := {| calls := calls w ++ [req]; console_error := console_error w |} in
  match fetch rt req with
  | inl e => (reject e s, w1)
  | inr r =>
      match relay_upload rt r w1 with
      | (Normal x, w2) => (resolve x s, w2)
      | (Throw e, w2) => (reject e s, w2)
      end
  end.
Proof.
  intros Hid. unfold formId_usable in Hid.
  apply andb_true_iff in Hid as [H1 H2]. apply negb_true_iff in H1, H2.
  unfold forwardRequest, forwardRequest_try.
  unfold mbind at 1. unfold Eff_bind at 1. rewrite H1. simpl.
  unfold mbind at 1. unfold Eff_bind at 1. rewrite H2. simpl.
  unfold mbind, Eff_bind, call_fetch.
  destruct (fetch rt _) as [e | r]; [reflexivity |].
  destruct (relay_upload rt r _) as [[x | e] w2]; reflexivity.
Qed.

Lemma relay_upload_unparsed rt r e w :
  Text.includes (or_else (res_content_type r) EmptyString) "application/json" = true ->
  JSON_parse rt (res_text r) = inl e ->
  relay_upload rt r w = (Throw e, w).
Proof.
  intros Hct Hp. unfold relay_upload. rewrite Hct.
  unfold mbind, Eff_bind, lift, throw. rewrite Hp. reflexivity.
Qed.

Lemma relay_json_unparsed rt config r e w :
  Text.includes (or_else (res_content_type r) EmptyString) "application/json" = true ->
  JSON_parse rt (res_text r) = inl e ->
  relay_json rt config r w = (Throw e, w).
Proof.
  intros Hct Hp. unfold relay_json. rewrite Hct.
  unfold mbind, Eff_bind, lift, throw. rewrite Hp. reflexivity.
Qed.

Section Failures.

Variable rt : Runtime.
Variable env : ProcessEnv.
Variable config : Config.
Variable settings : Settings.
Hypothesis Hsettings : settings_of env config = Some settings.

(** The multipart path when the submission gets complete, the parser
    reports no error and [forwardRequest] rejects with [e]. *)
Lemma multipart_path_rejects event w e :
  httpMethod event = "POST" ->
  isMultipart event = true ->
  formId_usable settings = true ->
  well_formed (Busboy rt event) = true ->
  ready (Busboy rt event) = true ->
  parses (Busboy rt event) = true ->
  (forall s w1, promise s = Pending ->
                promise (fst (forwardRequest rt settings s w1)) = Rejected e) ->
  exists w',
    createMailerHandler rt env config event w =
      (Returns (internal_error rt e), w') /\
    length (calls w') = length (calls w) + 1.
Proof.
  intros Hpost Hmp Hid Hwf Hready Hparses HQ.
  unfold createMailerHandler. rewrite Hpost, Hsettings, Hmp. simpl.
  unfold handleMultipartRequest. unfold well_formed in Hwf.
  destruct (source_after (Busboy rt event)) as [p |] eqn:Hp; [| discriminate].
  pose proof (invariant_run rt settings (fun q => q = Rejected e) Hid HQ w _ p Hp)
    as Inv.
  pose proof (inv_promise _ _ _ _ _ _ Inv Hparses) as Hprom.
  pose proof (inv_calls _ _ _ _ _ _ Inv) as Hcalls.
  rewrite Hready in Hprom, Hcalls. rewrite Hprom.
  eexists. split; [reflexivity |]. simpl. exact Hcalls.
Qed.

(** The JSON path when the body parses and what follows [fetch] throws. *)
Lemma json_path_throws event w data e :
  httpMethod event = "POST" ->
  isMultipart event = false ->
  JSON_parse rt (or_else (ev_body event) "{}") = inr data ->
  data <> JNull ->
  (forall req w1,
     match fetch rt req with
     | inl e' => e' = e
     | inr r => relay_json rt settings r w1 = (Throw e, w1)
     end) ->
  createMailerHandler rt env config event w =
    (Returns (internal_error rt e),
     {| calls := calls w ++ [json_request rt settings (without_control_fields data)];
        console_error := console_error w ++ [LogSubmitError e] |}).
Proof.
  intros Hpost Hmp Hparse Hnull Hthrow.
  unfold createMailerHandler. rewrite Hpost, Hsettings, Hmp. simpl.
  destruct (json_delete_twice data Hnull) as (d1 & E1 & E2).
  unfold handleJsonRequest, mbind, Eff_bind, lift, call_fetch.
  rewrite Hparse. simpl. rewrite E1. simpl. rewrite E2. simpl.
  match goal with
  | |- context [fetch rt ?req] =>
      match goal with
      | |- context [(Throw _, ?w1)] => pose proof (Hthrow req w1) as Ht
      end
  end.
  destruct (fetch rt _) as [e' | r]; simpl.
  - subst e'. reflexivity.
  - rewrite Ht. reflexivity.
Qed.

End Failures.

(** X4.  When [fetch] fails, the caller gets 500 with the message of the
    failure, on the JSON path and on the multipart path; the one request
    was made and is not repeated. *)
Theorem X4_network_failure
    (rt : Runtime) (env : ProcessEnv) (config : Config) (settings : Settings)
    (e : string) :
  settings_of env config = Some settings ->
  (forall req, fetch rt req = inl e) ->
  (forall event w data,
     httpMethod event = "POST" ->
     isMultipart event = false ->
     JSON_parse rt (or_else (ev_body event) "{}") = inr data ->
     data <> JNull ->
     createMailerHandler rt env config event w =
       (Returns (internal_error rt e),
        {| calls := calls w ++
                    [json_request rt settings (without_control_fields data)];
           console_error := console_error w ++ [LogSubmitError e] |})) /\
  (forall event w,
     httpMethod event = "POST" ->
     isMultipart event = true ->
     formId_usable settings = true ->
     well_formed (Busboy rt event) = true ->
     ready (Busboy rt event) = true ->
     parses (Busboy rt event) = true ->
     exists w',
       createMailerHandler rt env config event w =
         (Returns (internal_error rt e), w') /\
       length (calls w') = length (calls w) + 1).
Proof.
  intros Hs Hfetch. split.
  - intros event w data Hpost Hmp Hparse Hnull.
    eapply json_path_throws; eauto.
    intros req w1. rewrite Hfetch. reflexivity.
  - intros event w Hpost Hmp Hid Hwf Hready Hparses.
    eapply multipart_path_rejects; eauto.
    intros s w1 Hpend. rewrite forwardRequest_usable by exact Hid.
    simpl. rewrite Hfetch. simpl. unfold reject.
    rewrite settle_promise, Hpend. reflexivity.
Qed.

Lemma X4_witness :
  let rt := Sample.runtime (inl "fetch failed") Sample.upload in
  fst (createMailerHandler rt Sample.no_env Sample.config
         (Sample.post "application/json" (Some (Sample.print Sample.ann))) quiet)
  = Returns (internal_error rt "fetch failed") /\
  exists w',
    createMailerHandler rt Sample.no_env Sample.config
      (Sample.post "multipart/form-data; boundary=xyz" None) quiet
    = (Returns (internal_error rt "fetch failed"), w') /\
    length (calls w') = 1.
Proof.
  pose proof (X4_network_failure
                (Sample.runtime (inl "fetch failed") Sample.upload)
                Sample.no_env Sample.config Sample.settings "fetch failed"
                eq_refl (fun _ => eq_refl)) as [Hjson Hmulti].
  split.
  - rewrite (Hjson (Sample.post "application/json" (Some (Sample.print Sample.ann)))
               quiet Sample.ann eq_refl eq_refl eq_refl ltac:(discriminate)).
    reflexivity.
  - exact (Hmulti (Sample.post "multipart/form-data; boundary=xyz" None) quiet
             eq_refl eq_refl eq_refl eq_refl eq_refl eq_refl).
Defined.

(** X5.  When the mailer answers with a content type that contains
    [application/json] and a body that [json()] rejects, the caller gets 500
    with the message of that exception, on both paths; the request is not
    repeated. *)
Theorem X5_unreadable_json_reply
    (rt : Runtime) (env : ProcessEnv) (config : Config) (settings : Settings)
    (r : MailerResponse) (e : string) :
  settings_of env config = Some settings ->
  (forall req, fetch rt req = inr r) ->
  Text.includes (or_else (res_content_type r) EmptyString) "application/json" = true ->
  JSON_parse rt (res_text r) = inl e ->
  (forall event w data,
     httpMethod event = "POST" ->
     isMultipart event = false ->
     JSON_parse rt (or_else (ev_body event) "{}") = inr data ->
     data <> JNull ->
     createMailerHandler rt env config event w =
       (Returns (internal_error rt e),
        {| calls := calls w ++
                    [json_request rt settings (without_control_fields data)];
           console_error := console_error w ++ [LogSubmitError e] |})) /\
  (forall event w,
     httpMethod event = "POST" ->
     isMultipart event = true ->
     formId_usable settings = true ->
     well_formed (Busboy rt event) = true ->
     ready (Busboy rt event) = true ->
     parses (Busboy rt event) = true ->
     exists w',
       createMailerHandler rt env config event w =
         (Returns (internal_error rt e), w') /\
       length (calls w') = length (calls w) + 1).
Proof.
  intros Hs Hfetch Hct Hbad. split.
  - intros event w data Hpost Hmp Hparse Hnull.
    eapply json_path_throws; eauto.
    intros req w1. rewrite Hfetch. apply relay_json_unparsed; assumption.
  - intros event w Hpost Hmp Hid Hwf Hready Hparses.
    eapply multipart_path_rejects; eauto.
    intros s w1 Hpend. rewrite forwardRequest_usable by exact Hid.
    simpl. rewrite Hfetch.
    rewrite (relay_upload_unparsed rt r e) by assumption.
    simpl. unfold reject. rewrite settle_promise, Hpend. reflexivity.
Qed.

Lemma X5_witness :
  let rt := Sample.runtime (inr garbled_json) Sample.upload in
  fst (createMailerHandler rt Sample.no_env Sample.config
         (Sample.post "application/json" (Some (Sample.print Sample.ann))) quiet)
  = Returns (internal_error rt "Unexpected token in JSON") /\
  exists w',
    createMailerHandler rt Sample.no_env Sample.config
      (Sample.post "multipart/form-data; boundary=xyz" None) quiet
    = (Returns (internal_error rt "Unexpected token in JSON"), w') /\
    length (calls w') = 1.
Proof.
  pose proof (X5_unreadable_json_reply
                (Sample.runtime (inr garbled_json) Sample.upload)
                Sample.no_env Sample.config Sample.settings garbled_json
                "Unexpected token in JSON"
                eq_refl (fun _ => eq_refl) eq_refl eq_refl) as [Hjson Hmulti].
  split.
  - rewrite (Hjson (Sample.post "application/json" (Some (Sample.print Sample.ann)))
               quiet Sample.ann eq_refl eq_refl eq_refl ltac:(discriminate)).
    reflexivity.
  - exact (Hmulti (Sample.post "multipart/form-data; boundary=xyz" None) quiet
             eq_refl eq_refl eq_refl eq_refl eq_refl eq_refl).
Defined.

(** ** A form identifier of white space *)

Lemma forwardRequest_unusable rt config s w :
  formId_usable config = false ->
  forwardRequest rt config s w =
  (reject (if MAILER_FORM_ID config =? EmptyString
           then "MAILER_FORM_ID environment variable is not set"
           else "MAILER_FORM_ID is empty or invalid") s, w).
Proof.
  intros Hid. unfold formId_usable in Hid.
  unfold forwardRequest, forwardRequest_try.
  unfold mbind at 1. unfold Eff_bind at 1.
  destruct (MAILER_FORM_ID config =? EmptyString) eqn:E1; [reflexivity |].
  simpl in Hid |- *. apply negb_false_iff in Hid.
  unfold mbind at 1. unfold Eff_bind at 1. rewrite Hid. reflexivity.
Qed.

Lemma settings_of_formId env config settings :
  settings_of env config = Some settings ->
  (MAILER_FORM_ID settings =? EmptyString) = false.
Proof.
  unfold settings_of, present.
  destruct (truthy (js_or (baseUrl config) (env_MAILER_BASE_URL env)));
    [| discriminate].
  destruct (js_or (baseUrl config) (env_MAILER_BASE_URL env)); [| discriminate].
  destruct (truthy (js_or (formId config) (env_MAILER_FORM_ID env))) eqn:Et;
    [| discriminate].
  destruct (js_or (formId config) (env_MAILER_FORM_ID env)) as [[| c id] |];
    try discriminate.
  repeat case_match; intros Hx; simplify_eq; reflexivity.
Qed.

Lemma parser_errors_snoc trace e :
  parser_errors (trace ++ [e]) =
  parser_errors trace ++ match e with OnError m => [m] | _ => [] end.
Proof.
  unfold parser_errors. rewrite flat_map_app. simpl. rewrite app_nil_r.
  reflexivity.
Qed.

Lemma run_unusable rt config trace w0 :
  formId_usable config = false ->
  let m := if MAILER_FORM_ID config =? EmptyString
           then "MAILER_FORM_ID environment variable is not set"
           else "MAILER_FORM_ID is empty or invalid" in
  let s := fst (run rt config trace (start, w0)) in
  calls (snd (run rt config trace (start, w0))) = calls w0 /\
  (promise s = Pending \/
   exists e, promise s = Rejected e /\ (e = m \/ In e (parser_errors trace))).
Proof.
  intros Hid m. induction trace as [| ev trace IH] using rev_ind.
  - simpl. auto.
  - rewrite run_snoc, parser_errors_snoc.
    destruct IH as [Hc Hp].
    set (s := fst (run rt config trace (start, w0))) in *.
    set (w := snd (run rt config trace (start, w0))) in *.
    assert (Hfw : forall s1,
               promise s1 = promise s ->
               calls (snd (forwardRequest rt config s1 w)) = calls w0 /\
               (promise (fst (forwardRequest rt config s1 w)) = Pending \/
                exists e, promise (fst (forwardRequest rt config s1 w)) = Rejected e /\
                          (e = m \/ In e (parser_errors trace ++
                             match ev with OnError m => [m] | _ => [] end)))).
    { intros s1 Hs1. rewrite forwardRequest_unusable by exact Hid. simpl.
      split; [exact Hc |]. right. unfold reject. rewrite settle_promise, Hs1.
      destruct Hp as [Hp | (e & Hp & He)]; rewrite Hp.
      - exists m. auto.
      - exists e. split; [reflexivity |].
        destruct He; [auto | right; apply in_or_app; auto]. }
    assert (Hsame : calls w = calls w0 /\
               (promise s = Pending \/
                exists e, promise s = Rejected e /\
                          (e = m \/ In e (parser_errors trace ++
                             match ev with OnError m => [m] | _ => [] end)))).
    { split; [exact Hc |]. destruct Hp as [Hp | (e & Hp & He)]; [auto |].
      right. exists e. split; [exact Hp |].
      destruct He; [auto | right; apply in_or_app; auto]. }
    destruct ev as [n value | n filename mimeType | i chunk | i | i msg | | msg];
      simpl.
    + destruct (on_field_keeps n value s) as (_ & _ & _ & _ & _ & K).
      rewrite K. exact Hsame.
    + unfold on_file. destruct (no_filename filename); exact Hsame.
    + destruct (on_data_keeps i chunk s) as (_ & _ & _ & _ & _ & _ & K).
      rewrite K. exact Hsame.
    + unfold on_end. destruct (streams s !! i) as [[fs |] |]; simpl;
        try exact Hsame.
      unfold checkAndForward. case_match.
      * apply Hfw. simpl. case_match; reflexivity.
      * simpl. case_match; exact Hsame.
    + unfold on_file_error. destruct (streams s !! i) as [[fs |] |]; simpl;
        exact Hsame.
    + unfold on_finish, checkAndForward. simpl.
      repeat case_match; try (apply Hfw; reflexivity). exact Hsame.
    + split; [exact Hc |]. right. unfold reject. rewrite settle_promise.
      destruct Hp as [Hp | (e & Hp & He)]; rewrite Hp.
      * exists msg. split; [reflexivity |]. right. apply in_or_app. simpl. auto.
      * exists e. split; [reflexivity |].
        destruct He; [auto | right; apply in_or_app; auto].
Qed.

(** X7.  A form identifier made of white space passes the check of the
    configuration, and then no multipart submission is ever sent: whatever
    the parser emits, [fetch] is not called, and the handler either never
    answers or answers 500, with [MAILER_FORM_ID is empty or invalid] or
    with the message of a parser error. *)
Theorem X7_blank_form_id
    (rt : Runtime) (env : ProcessEnv) (config : Config) (settings : Settings)
    (event : LambdaEvent) (w : World) :
  httpMethod event = "POST" ->
  settings_of env config = Some settings ->
  isMultipart event = true ->
  Text.trim (MAILER_FORM_ID settings) = EmptyString ->
  calls (snd (createMailerHandler rt env config event w)) = calls w /\
  (fst (createMailerHandler rt env config event w) = NeverSettles \/
   exists message,
     fst (createMailerHandler rt env config event w)
       = Returns (internal_error rt message) /\
     (message = "MAILER_FORM_ID is empty or invalid" \/
      In message (parser_errors (Busboy rt event)))).
Proof.
  intros Hpost Hs Hmp Hblank.
  assert (Hid : formId_usable settings = false).
  { unfold formId_usable. rewrite Hblank. apply andb_false_r. }
  pose proof (run_unusable rt settings (Busboy rt event) w Hid) as [Hc Hp].
  rewrite (settings_of_formId _ _ _ Hs) in Hp.
  unfold createMailerHandler, handleMultipartRequest.
  rewrite Hpost, Hs, Hmp. simpl.
  destruct Hp as [Hp | (e & Hp & He)]; rewrite Hp; simpl.
  - auto.
  - split; [exact Hc |]. right. exists e. auto.
Qed.

Lemma X7_witness :
  let rt := Sample.runtime (inr Sample.ok_json) Sample.upload in
  let config := {| baseUrl := Some "https://mailer.example/api";
                   formId := Some "  "; apiKey := Some "secret" |} in
  calls (snd (createMailerHandler rt Sample.no_env config
                (Sample.post "multipart/form-data; boundary=xyz" None) quiet)) = [].
Proof.
  exact (proj1 (X7_blank_form_id
                  (Sample.runtime (inr Sample.ok_json) Sample.upload)
                  Sample.no_env
                  {| baseUrl := Some "https://mailer.example/api";
                     formId := Some "  "; apiKey := Some "secret" |}
                  blank_settings
                  (Sample.post "multipart/form-data; boundary=xyz" None) quiet
                  eq_refl eq_refl eq_refl eq_refl)).
Defined.

(** ** The request of a complete submission *)

Lemma upload_request_ext rt config formIdValue s s' :
  fields s = fields s' -> files s = files s' ->
  upload_request rt config formIdValue s = upload_request rt config formIdValue s'.
Proof. intros H1 H2. unfold upload_request. rewrite H1, H2. reflexivity. Qed.

Lemma forwardRequest_request rt config s w :
  formId_usable config = true ->
  let s' := fst (forwardRequest rt config s w) in
  calls (snd (forwardRequest rt config s w)) =
  calls w ++ [upload_request rt config (Text.trim (MAILER_FORM_ID config)) s'].
Proof.
  intros Hid. destruct (forwardRequest_sends rt config s w Hid)
    as (p & w' & E & Hc & _).
  rewrite E. simpl. rewrite Hc. f_equal. f_equal.
  destruct (settle_keeps p s) as (K1 & K2 & _).
  apply upload_request_ext; auto.
Qed.

Lemma length_app_nil {A} (l l' : list A) :
  length (l ++ l') = length l -> l' = [].
Proof.
  rewrite length_app. destruct l'; [reflexivity | simpl; lia].
Qed.

Section Complete.

Variable rt : Runtime.
Variable config : Settings.
Hypothesis Hid : formId_usable config = true.

Let request (s : Submission) : Request :=
  upload_request rt config (Text.trim (MAILER_FORM_ID config)) s.

Lemma complete_step w0 pre e p0 p :
  source_after pre = Some p0 -> emit e p0 = Some p ->
  ready (pre ++ [e]) = true ->
  let s := fst (run rt config pre (start, w0)) in
  let w := snd (run rt config pre (start, w0)) in
  (ready pre = true -> calls w = calls w0 ++ [request s]) ->
  calls (snd (dispatch rt config e s w)) =
  calls w0 ++ [request (fst (dispatch rt config e s w))].
Proof.
  intros Hp0 He Hr' s w IH.
  assert (Hp : source_after (pre ++ [e]) = Some p)
    by (rewrite source_after_snoc, Hp0; exact He).
  pose proof (invariant_run rt config (fun _ => True) Hid (fun _ _ _ => I)
                w0 pre p0 Hp0) as Inv.
  pose proof (invariant_run rt config (fun _ => True) Hid (fun _ _ _ => I)
                w0 _ p Hp) as Inv'.
  rewrite run_snoc in Inv'. fold s w in Inv, Inv'.
  pose proof (inv_calls _ _ _ _ _ _ Inv) as Hc.
  pose proof (inv_calls _ _ _ _ _ _ Inv') as Hc'. rewrite Hr' in Hc'.
  destruct (run_calls rt config pre start w0) as (l & El). fold w in El.
  destruct (ready pre) eqn:Hr.
  - (* complete before: nothing changes *)
    specialize (IH eq_refl).
    assert (Hfin : src_finished p0 = true).
    { rewrite (inv_src_finished _ _ _ _ _ _ Inv).
      unfold ready in Hr. apply andb_true_iff in Hr as [Hr _]. exact Hr. }
    assert (Hkeep : fields (fst (dispatch rt config e s w)) = fields s /\
                    files (fst (dispatch rt config e s w)) = files s).
    { destruct e as [n value | n filename mimeType | i chunk | i | i msg | | msg];
        simpl in He |- *; rewrite ?Hfin in He; try discriminate.
      - destruct (on_data_keeps i chunk s) as (K1 & K2 & _). auto.
      - destruct (src_streams p0 !! i) as [[] |] eqn:Hst; try discriminate.
        destruct (streams s !! i) as [[fs |] |] eqn:Hsi.
        + exfalso.
          pose proof (listened_lookup (streams s) i) as Hl.
          rewrite (inv_listened _ _ _ _ _ _ Inv), Hsi in Hl.
          pose proof (count_ended_lt _ _ _ _ Hl Hst ltac:(discriminate)) as Hlt.
          rewrite <- (inv_drained _ _ _ _ _ _ Inv), <- opened_eq in Hlt.
          unfold ready in Hr. apply andb_true_iff in Hr as [_ Hr].
          apply Nat.eqb_eq in Hr. lia.
        + rewrite on_end_deaf by auto. auto.
        + rewrite on_end_deaf by auto. auto.
      - unfold on_file_error. destruct (streams s !! i) as [[fs |] |]; auto.
      - destruct (settle_keeps (Rejected msg) s) as (K1 & K2 & _). auto. }
    destruct Hkeep as [K1 K2].
    destruct (dispatch_calls rt config e s w) as (l' & El').
    assert (l' = []).
    { apply (length_app_nil (calls w)). rewrite <- El'. lia. }
    subst l'. rewrite app_nil_r in El'. rewrite El', IH. f_equal. f_equal.
    unfold request. apply upload_request_ext; auto.
  - (* completed by this event *)
    clear IH.
    assert (l = []).
    { apply (length_app_nil (calls w0)). rewrite <- El. lia. }
    subst l. rewrite app_nil_r in El.
    assert (Hno : calls (snd (dispatch rt config e s w)) = calls w -> False)
      by (intros E; rewrite E in Hc'; lia).
    assert (Hfw : forall s1,
               calls (snd (forwardRequest rt config s1 w)) =
               calls w0 ++ [request (fst (forwardRequest rt config s1 w))]).
    { intros s1. rewrite forwardRequest_request by exact Hid.
      rewrite El. reflexivity. }
    destruct e as [n value | n filename mimeType | i chunk | i | i msg | | msg];
      simpl in Hno |- *; try (exfalso; apply Hno; reflexivity).
    + revert Hno. unfold on_end.
      destruct (streams s !! i) as [[fs |] |];
        try (intros Hno; exfalso; apply Hno; reflexivity).
      unfold checkAndForward. case_match.
      * intros _. apply Hfw.
      * intros Hno. exfalso. apply Hno. reflexivity.
    + exfalso. apply Hno. unfold on_file_error.
      destruct (streams s !! i) as [[fs |] |]; reflexivity.
    + revert Hno. unfold on_finish, checkAndForward. simpl.
      repeat case_match; try (intros _; apply Hfw).
      intros Hno. exfalso. apply Hno. reflexivity.
Qed.

Lemma complete_run w0 trace p :
  source_after trace = Some p ->
  ready trace = true ->
  calls (snd (run rt config trace (start, w0))) =
  calls w0 ++ [request (fst (run rt config trace (start, w0)))].
Proof.
  revert p. induction trace as [| e trace IH] using rev_ind; intros p Hp Hr.
  - discriminate.
  - pose proof Hp as Hp'. rewrite source_after_snoc in Hp'.
    destruct (source_after trace) as [p0 |] eqn:Hp0; [| discriminate].
    simpl in Hp'. rewrite run_snoc.
    eapply complete_step; eauto.
Qed.

End Complete.

(** X8.  When a well-formed sequence of events is complete, exactly one
    request has gone out, and it is the request for the fields and the
    files that the accumulator holds at the end: a POST to
    [<base>/form-submissions-upload] with the bearer credential, whose
    content type names the boundary of its body.  Nothing that was
    accumulated is missing from it and nothing is accumulated after it. *)
Theorem X8_request_of_complete_submission
    (rt : Runtime) (config : Settings) (w0 : World) (trace : list PartEvent) :
  formId_usable config = true ->
  well_formed trace = true ->
  ready trace = true ->
  let s := fst (run rt config trace (start, w0)) in
  calls (snd (run rt config trace (start, w0))) =
    calls w0 ++
    [ {| req_url := MAILER_BASE_URL config +:+ "/form-submissions-upload";
         req_method := "POST";
         req_authorization := "Bearer " +:+ MAILER_FORM_API_KEY config;
         req_content_type :=
           "multipart/form-data; boundary=" +:+ make_boundary rt;
         req_body := BinaryBody
           (multipart_body (make_boundary rt)
              (Text.trim (MAILER_FORM_ID config)) (fields s) (files s)) |} ].
Proof.
  intros Hid Hwf Hr s. unfold well_formed in Hwf.
  destruct (source_after trace) as [p |] eqn:Hp; [| discriminate].
  exact (complete_run rt config Hid w0 trace p Hp Hr).
Qed.

Lemma X8_witness :
  let rt := Sample.runtime (inr Sample.ok_json) Sample.upload in
  let s := fst (run rt Sample.settings Sample.upload (start, quiet)) in
  calls (snd (run rt Sample.settings Sample.upload (start, quiet))) =
    [ {| req_url := "https://mailer.example/api/form-submissions-upload";
         req_method := "POST";
         req_authorization := "Bearer secret";
         req_content_type :=
           "multipart/form-data; boundary=----formdata-1700000000000-k3j9x0q2a";
         req_body := BinaryBody
           (multipart_body "----formdata-1700000000000-k3j9x0q2a" "form-7"
              (fields s) (files s)) |} ].
Proof.
  exact (X8_request_of_complete_submission
           (Sample.runtime (inr Sample.ok_json) Sample.upload)
           Sample.settings quiet Sample.upload eq_refl eq_refl eq_refl).
Defined.

(** ** The fields that are held *)

Lemma set_In (k x n v : string) (o : list (string * string)) :
  (k =? "__proto__") = false ->
  In (n, v) (JsObject.set k x o) <-> (n = k /\ v = x) \/ (n <> k /\ In (n, v) o).
Proof.
  intros Hk. unfold JsObject.set. rewrite Hk.
  destruct (JsObject.has k o) eqn:Hh.
  - unfold JsObject.replace. rewrite in_map_iff. split.
    + intros [[n' v'] [E Hin]]. simpl in E.
      destruct (n' =? k) eqn:En; simplify_eq; [auto |].
      right. split; [| exact Hin]. apply String.eqb_neq. exact En.
    + intros [[-> ->] | [Hne Hin]].
      * unfold JsObject.has in Hh. apply existsb_exists in Hh as [[n' v'] [Hin E]].
        exists (n', v'). simpl in E |- *. rewrite E. auto.
      * exists (n, v). simpl. apply String.eqb_neq in Hne. rewrite Hne. auto.
  - rewrite in_app_iff. simpl. split.
    + intros [Hin | [E | []]]; simplify_eq; [| auto].
      right. split; [| exact Hin]. intros ->.
      assert (JsObject.has k o = true); [| congruence].
      unfold JsObject.has. apply existsb_exists. exists (k, v). simpl.
      rewrite String.eqb_refl. auto.
    + intros [[-> ->] | [_ Hin]]; auto.
Qed.

Lemma last_stored_snoc n l k x :
  last_stored n (l ++ [(k, x)]) = if k =? n then Some x else last_stored n l.
Proof.
  unfold last_stored. rewrite rev_app_distr. simpl.
  destruct (k =? n); reflexivity.
Qed.

Lemma first_seen_NoDup names : NoDup (first_seen names).
Proof.
  unfold first_seen. generalize (@nil string) (NoDup_nil_2 (A := string)).
  induction names as [| n names IH]; intros acc Hacc; simpl; [exact Hacc |].
  apply IH. unfold add_new. destruct (existsb (String.eqb n) acc) eqn:E;
    [exact Hacc |].
  apply NoDup_app. split; [exact Hacc |]. split; [| apply NoDup_singleton].
  intros x Hx Hn. apply list_elem_of_singleton in Hn. subst x.
  assert (existsb (String.eqb n) acc = true); [| congruence].
  apply existsb_exists. exists n. split.
  - apply list_elem_of_In. exact Hx.
  - apply String.eqb_refl.
Qed.

(** X9.  The accumulated fields hold each name once, and under a name the
    value of the last field event that was stored under it: a repeated name
    keeps its first place and takes the last value.  Stored are the field
    events whose name is neither [form-name] nor [bot-field] nor
    [__proto__]. *)
Theorem X9_last_write_wins
    (rt : Runtime) (config : Settings) (trace : list PartEvent) (w0 : World) :
  let s := fst (run rt config trace (start, w0)) in
  NoDup (map fst (fields s)) /\
  forall name value,
    In (name, value) (fields s) <->
    last_stored name (stored_fields trace) = Some value.
Proof.
  split.
  - rewrite run_field_keys. apply first_seen_NoDup.
  - induction trace as [| e trace IH] using rev_ind; intros name value.
    + simpl. split; [tauto | discriminate].
    + rewrite run_snoc, stored_fields_snoc.
      set (s := fst (run rt config trace (start, w0))) in *.
      set (w := snd (run rt config trace (start, w0))) in *.
      destruct e as [n x | n filename mimeType | i chunk | i | i msg | | msg];
        simpl; rewrite ?app_nil_r.
      * unfold on_field.
        destruct ((n =? "form-name") || (n =? "bot-field")) eqn:E; simpl;
          rewrite ?app_nil_r; [apply IH |].
        destruct (n =? "__proto__") eqn:Ep; simpl.
        -- rewrite set_proto_eq, app_nil_r by assumption. apply IH.
        -- rewrite set_In by assumption. rewrite last_stored_snoc.
           destruct (n =? name) eqn:En.
           ++ apply String.eqb_eq in En. subst n. split.
              ** intros [[_ ->] | [Hne _]]; congruence.
              ** intros Hv. simplify_eq. auto.
           ++ apply String.eqb_neq in En. rewrite <- IH. split.
              ** intros [[-> _] | [_ Hin]]; [congruence | exact Hin].
              ** intros Hin. right. split; [congruence | exact Hin].
      * unfold on_file. destruct (no_filename filename); apply IH.
      * destruct (on_data_keeps i chunk s) as (K & _). rewrite K. apply IH.
      * destruct (streams s !! i) as [[fs |] |] eqn:E.
        -- destruct (on_end_listened rt config i fs s w E) as (K & _).
           rewrite K. apply IH.
        -- rewrite on_end_deaf by auto. apply IH.
        -- rewrite on_end_deaf by auto. apply IH.
      * unfold on_file_error. destruct (streams s !! i) as [[fs |] |]; apply IH.
      * destruct (on_finish_keeps rt config s w) as (K & _). rewrite K. apply IH.
      * destruct (settle_keeps (Rejected msg) s) as (K & _). unfold reject.
        rewrite K. apply IH.
Qed.

Lemma X9_witness :
  let trace := [ OnField "a" "1"; OnField "b" "2"; OnField "a" "3" ] in
  fields (fst (run (Sample.runtime (inr Sample.ok_json) []) Sample.settings
                 trace (start, quiet)))
  = [("a", "3"); ("b", "2")] /\
  In ("a", "3")
     (fields (fst (run (Sample.runtime (inr Sample.ok_json) []) Sample.settings
                     trace (start, quiet)))).
Proof.
  split; [reflexivity |].
  apply (proj2 (X9_last_write_wins (Sample.runtime (inr Sample.ok_json) [])
                  Sample.settings
                  [ OnField "a" "1"; OnField "b" "2"; OnField "a" "3" ] quiet)).
  reflexivity.
Defined.

(** ** Every field gets its part *)

Lemma insert_index_perm {V} n (p : string * V) l :
  map snd (JsObject.insert_index n p l) ≡ₚ p :: map snd l.
Proof.
  induction l as [| [m q] l IH]; simpl; [reflexivity |].
  destruct (n <? m)%N; simpl; [reflexivity |].
  rewrite IH. apply perm_swap.
Qed.

Lemma entries_perm {V} (o : list (string * V)) : JsObject.entries o ≡ₚ o.
Proof.
  unfold JsObject.entries, JsObject.named_entries.
  induction o as [| p o IH]; simpl; [reflexivity |].
  unfold JsObject.is_index at 1.
  destruct (JsObject.array_index (fst p)); simpl.
  - rewrite insert_index_perm. simpl. constructor. exact IH.
  - rewrite <- Permutation_middle. constructor. exact IH.
Qed.

Lemma filter_perm {A} (f : A -> bool) (l l' : list A) :
  l ≡ₚ l' -> List.filter f l ≡ₚ List.filter f l'.
Proof.
  induction 1; simpl; repeat case_match; eauto using Permutation.
Qed.

(** X10.  The loop over [Object.entries(fields)] reorders the fields and
    does no more: the fields that are given a part are, up to their order,
    the fields held whose name is not [formId], [form-name] or [bot-field],
    each once.  The body has five segments for the form identifier, five
    per such field, six per file and one closing segment. *)
Theorem X10_every_field_gets_its_part
    (boundary formIdValue : string) (flds : list (string * string))
    (fls : list FilePart) :
  forwarded_fields flds ≡ₚ List.filter (fun p => forwarded_name (fst p)) flds /\
  (forall name value,
     In (name, value) (forwarded_fields flds) <->
     In (name, value) flds /\ forwarded_name name = true) /\
  length (build_parts boundary formIdValue flds fls) =
    5 + 5 * length (List.filter (fun p => forwarded_name (fst p)) flds)
    + 6 * length fls + 1.
Proof.
  assert (Hp : forwarded_fields flds ≡ₚ
               List.filter (fun p => forwarded_name (fst p)) flds)
    by (unfold forwarded_fields; apply filter_perm, entries_perm).
  split; [exact Hp |]. split.
  - intros name value. rewrite <- !list_elem_of_In, Hp, !list_elem_of_In.
    rewrite List.filter_In. reflexivity.
  - unfold build_parts. rewrite !length_app.
    rewrite <- (Permutation_length Hp).
    assert (Hl : forall A (f : A -> list Segment) n (l : list A),
               (forall x, length (f x) = n) ->
               length (flat_map f l) = n * length l).
    { intros A f n l Hf. induction l as [| x l IH]; simpl; [lia |].
      rewrite length_app, Hf, IH. lia. }
    rewrite (Hl _ _ 5) by reflexivity. rewrite (Hl _ _ 6) by reflexivity.
    simpl. lia.
Qed.

Lemma X10_witness :
  In ("1", "y") (forwarded_fields [("b", "x"); ("formId", "z"); ("1", "y")]).
Proof.
  apply (proj1 (proj2 (X10_every_field_gets_its_part "B" "form-7"
                         [("b", "x"); ("formId", "z"); ("1", "y")] []))).
  split; [simpl; auto | reflexivity].
Defined.

(** ** The files that are held *)

Lemma file_events_snoc trace e :
  file_events (trace ++ [e]) =
  file_events trace ++
    match e with
    | OnFile name filename mimeType => [(name, filename, mimeType)]
    | _ => []
    end.
Proof.
  unfold file_events. rewrite flat_map_app. simpl. rewrite app_nil_r.
  reflexivity.
Qed.

Lemma payload_snoc i trace e :
  payload i (trace ++ [e]) =
  payload i trace ++
    match e with
    | OnData j chunk => if (j =? i)%nat then chunk else []
    | _ => []
    end.
Proof.
  unfold payload. rewrite flat_map_app, concat_app. f_equal.
  destruct e; simpl; try reflexivity.
  destruct (stream =? i)%nat; simpl; rewrite ?app_nil_r; reflexivity.
Qed.

Lemma payload_none i trace :
  stream_events_in_range i trace -> payload i trace = [].
Proof.
  unfold stream_events_in_range, payload.
  induction trace as [| e trace IH]; intros H; [reflexivity |].
  inversion H as [| ? ? He Ht]; subst. simpl. rewrite concat_app, (IH Ht).
  destruct e; simpl; try reflexivity.
  destruct (stream =? i)%nat eqn:E; [| reflexivity].
  apply Nat.eqb_eq in E. lia.
Qed.

Lemma in_range_weaken n m trace :
  n <= m -> stream_events_in_range n trace -> stream_events_in_range m trace.
Proof.
  intros Hnm H. eapply Forall_impl; [exact H |].
  intros [] ?; simpl in *; auto; lia.
Qed.

(** The file of a stream that an event does not touch is what it was. *)
Lemma completed_file_snoc trace e i :
  i < length (file_events trace) ->
  match e with OnData j _ => j <> i | _ => True end ->
  completed_file (trace ++ [e]) i = completed_file trace i.
Proof.
  intros Hi He. unfold completed_file.
  rewrite file_events_snoc, lookup_app_l by exact Hi.
  rewrite payload_snoc.
  replace (match e with
           | OnData j chunk => if (j =? i)%nat then chunk else []
           | _ => []
           end) with (@nil byte).
  - rewrite app_nil_r. reflexivity.
  - destruct e; try reflexivity.
    destruct (stream =? i)%nat eqn:E; [| reflexivity].
    apply Nat.eqb_eq in E. congruence.
Qed.

Lemma flat_map_ext_In {A B} (f g : A -> list B) (l : list A) :
  (forall x, In x l -> f x = g x) -> flat_map f l = flat_map g l.
Proof.
  induction l as [| x l IH]; intros H; [reflexivity |].
  simpl. rewrite (H x) by (left; reflexivity).
  rewrite IH; [reflexivity |]. intros y Hy. apply H. right. exact Hy.
Qed.

Lemma completed_files_snoc trace e :
  stream_events_in_range (length (file_events trace)) trace ->
  match e with OnData j _ => ~ In (OnEnd j) trace | _ => True end ->
  completed_files (trace ++ [e]) =
  completed_files trace ++
    match e with OnEnd i => completed_file (trace ++ [e]) i | _ => [] end.
Proof.
  intros Hr He. unfold completed_files at 1. rewrite flat_map_app. f_equal.
  - unfold completed_files. apply flat_map_ext_In. intros e' Hin.
    destruct e'; try reflexivity.
    apply completed_file_snoc.
    + unfold stream_events_in_range in Hr. rewrite List.Forall_forall in Hr.
      exact (Hr _ Hin).
    + destruct e; auto. intros ->. apply He. exact Hin.
  - simpl. rewrite app_nil_r. reflexivity.
Qed.

Lemma stream_agrees_snoc trace e i ev o :
  payload i (trace ++ [e]) = payload i trace ->
  stream_agrees trace i ev o -> stream_agrees (trace ++ [e]) i ev o.
Proof.
  intros Hp. unfold stream_agrees. destruct o as [fs |]; [| auto].
  rewrite Hp. auto.
Qed.

Lemma in_range_snoc trace e n m :
  n <= m ->
  stream_events_in_range n trace ->
  match e with OnEnd i | OnData i _ => i < m | _ => True end ->
  stream_events_in_range m (trace ++ [e]).
Proof.
  intros Hnm Ht He. apply Forall_app. split.
  - eapply in_range_weaken; eauto.
  - constructor; [exact He | constructor].
Qed.

Lemma not_in_snoc (x e : PartEvent) trace :
  ~ In x trace -> x <> e -> ~ In x (trace ++ [e]).
Proof.
  intros H1 H2 Hin. apply in_app_iff in Hin as [Hin | [Hin | []]]; auto.
Qed.

Lemma files_start : FilesInvariant [] source_start start.
Proof.
  split; simpl; try reflexivity; try discriminate; try constructor.
Qed.

Lemma files_step rt config trace p s w e p' :
  FilesInvariant trace p s ->
  emit e p = Some p' ->
  FilesInvariant (trace ++ [e]) p' (fst (dispatch rt config e s w)).
Proof.
  intros [F1 F2 F3 F4 F5 F6] He.
  pose proof (file_events_snoc trace e) as Hfe.
  destruct e as [n value | n filename mimeType | i chunk | i | i msg | | msg];
    simpl in He, Hfe |- *; rewrite ?app_nil_r in Hfe.
  - (* field *)
    destruct (src_finished p); [discriminate |]. simplify_eq.
    destruct (on_field_keeps n value s) as (K1 & _ & _ & _ & K5 & _).
    split; rewrite ?Hfe, ?K1, ?K5; auto.
    + intros i ev o Hev Ho. apply stream_agrees_snoc; auto.
      rewrite payload_snoc. apply app_nil_r.
    + rewrite completed_files_snoc, app_nil_r by auto. exact F3.
    + intros i Hi. apply not_in_snoc; [auto | discriminate].
    + apply (in_range_snoc _ _ (length (file_events trace)));
        [lia | exact F6 | simpl; auto].
  - (* file *)
    destruct (src_finished p); [discriminate |]. simplify_eq. simpl.
    assert (Hst : streams (on_file n filename mimeType s) =
                  streams s ++
                    [if no_filename filename then None
                     else Some {| fs_name := n;
                                  fs_filename := or_else filename EmptyString;
                                  fs_mimeType := mimeType; fs_chunks := [] |}])
      by (unfold on_file; destruct (no_filename filename); reflexivity).
    assert (Hfi : files (on_file n filename mimeType s) = files s)
      by (unfold on_file; destruct (no_filename filename); reflexivity).
    split; rewrite ?Hfe, ?Hst, ?Hfi, ?length_app; simpl; auto.
    + intros i ev o Hev Ho.
      destruct (decide (i < length (file_events trace))) as [Hi | Hi].
      * rewrite lookup_app_l in Hev by exact Hi.
        rewrite lookup_app_l in Ho by (rewrite F1; exact Hi).
        apply stream_agrees_snoc; auto.
        rewrite payload_snoc. apply app_nil_r.
      * assert (i = length (file_events trace)).
        { apply lookup_lt_Some in Hev. rewrite length_app in Hev.
          simpl in Hev. lia. }
        subst i.
        rewrite list_lookup_middle in Hev by reflexivity.
        rewrite list_lookup_middle in Ho by (symmetry; exact F1).
        simplify_eq. unfold stream_agrees. simpl.
        destruct (no_filename filename) eqn:En; [reflexivity |].
        repeat split; auto. simpl.
        rewrite payload_snoc, app_nil_r. symmetry. apply payload_none. exact F6.
    + rewrite completed_files_snoc, app_nil_r by auto. exact F3.
    + rewrite length_app. simpl. lia.
    + intros i Hi.
      destruct (decide (i < length (src_streams p))) as [Hlt | Hge].
      * rewrite lookup_app_l in Hi by exact Hlt.
        apply not_in_snoc; [auto | discriminate].
      * apply not_in_snoc; [| discriminate].
        intros Hin. unfold stream_events_in_range in F6.
        rewrite List.Forall_forall in F6. specialize (F6 _ Hin). simpl in F6.
        apply lookup_lt_Some in Hi. rewrite length_app in Hi. simpl in Hi. lia.
    + eapply in_range_snoc; [| exact F6 | exact I]. lia.
  - (* data *)
    destruct (src_streams p !! i) as [[] |] eqn:Hsti; try discriminate.
    simplify_eq.
    assert (Hi : i < length (file_events trace))
      by (rewrite <- F4; eapply lookup_lt_Some; eauto).
    destruct (on_data_keeps i chunk s) as (_ & K2 & _).
    split; rewrite ?Hfe, ?K2; auto.
    + unfold on_data. destruct (streams s !! i) as [[fs |] |]; simpl; auto.
      rewrite length_insert. exact F1.
    + intros j ev o Hev Ho.
      destruct (decide (j = i)) as [-> | Hne].
      * unfold on_data in Ho.
        destruct (streams s !! i) as [[fs |] |] eqn:Hsi; simpl in Ho.
        -- rewrite list_lookup_insert_eq in Ho
             by (eapply lookup_lt_Some; eauto).
           simplify_eq. specialize (F2 i ev (Some fs) Hev Hsi).
           unfold stream_agrees in *. simpl.
           destruct F2 as (A1 & A2 & A3 & A4 & A5).
           repeat split; auto.
           rewrite payload_snoc, Nat.eqb_refl, <- A5.
           unfold Buffer_concat. rewrite concat_app. simpl.
           rewrite app_nil_r. reflexivity.
        -- rewrite Hsi in Ho. simplify_eq.
           exact (F2 i ev None Hev Hsi).
        -- rewrite Hsi in Ho. discriminate.
      * assert (Ho' : streams s !! j = Some o).
        { revert Ho. unfold on_data.
          destruct (streams s !! i) as [[fs |] |]; simpl; auto.
          rewrite list_lookup_insert_ne by congruence. auto. }
        apply stream_agrees_snoc; auto.
        rewrite payload_snoc.
        replace (i =? j)%nat with false; [apply app_nil_r |].
        symmetry. apply Nat.eqb_neq. congruence.
    + rewrite completed_files_snoc, app_nil_r; auto.
    + intros j Hj. apply not_in_snoc; [auto | discriminate].
    + apply (in_range_snoc _ _ (length (file_events trace)));
        [lia | exact F6 | simpl; auto].
  - (* end *)
    destruct (src_streams p !! i) as [[] |] eqn:Hsti; try discriminate.
    simplify_eq. simpl.
    assert (Hi : i < length (file_events trace))
      by (rewrite <- F4; eapply lookup_lt_Some; eauto).
    assert (Hpay : forall j, payload j (trace ++ [OnEnd i]) = payload j trace)
      by (intros j; rewrite payload_snoc; apply app_nil_r).
    assert (Hsi : exists o, streams s !! i = Some o).
    { destruct (streams s !! i) eqn:E; [eauto |].
      apply lookup_ge_None in E. lia. }
    destruct Hsi as [o Hsi].
    destruct (lookup_lt_is_Some_2 (file_events trace) i Hi) as [ev Hev].
    pose proof (F2 i ev o Hev Hsi) as Hag.
    assert (Hst : streams (fst (on_end rt config i s w)) = streams s).
    { destruct o as [fs |].
      - destruct (on_end_listened rt config i fs s w Hsi) as (_ & _ & _ & _ & K).
        exact K.
      - rewrite on_end_deaf by auto. reflexivity. }
    split; rewrite ?Hfe, ?Hst; simpl; auto.
    + intros j ev' o' Hev' Ho'. apply stream_agrees_snoc; auto.
    + rewrite completed_files_snoc by auto.
      unfold completed_file. rewrite Hfe, Hev, Hpay.
      destruct ev as [[n f] m]. unfold stream_agrees in Hag. simpl in Hag.
      destruct o as [fs |].
      * destruct Hag as (A1 & A2 & A3 & A4 & A5).
        destruct (on_end_listened rt config i fs s w Hsi) as (_ & K & _).
        rewrite K, F3, A1, A2, A3, A4, A5. reflexivity.
      * rewrite on_end_deaf by auto. simpl. rewrite F3, Hag.
        symmetry. apply app_nil_r.
    + rewrite length_insert. exact F4.
    + intros j Hj.
      destruct (decide (j = i)) as [-> | Hne].
      * rewrite list_lookup_insert_eq in Hj by (eapply lookup_lt_Some; eauto).
        discriminate.
      * rewrite list_lookup_insert_ne in Hj by congruence.
        apply not_in_snoc; [auto | congruence].
    + apply (in_range_snoc _ _ (length (file_events trace)));
        [lia | exact F6 | simpl; auto].
  - (* failure of a stream *)
    destruct (src_streams p !! i) as [[] |] eqn:Hsti; try discriminate.
    simplify_eq. simpl.
    assert (Hs : fst (on_file_error i msg s w) = s)
      by (unfold on_file_error; destruct (streams s !! i) as [[fs |] |];
          reflexivity).
    split; rewrite ?Hfe, ?Hs; simpl; auto.
    + intros j ev o Hev Ho. apply stream_agrees_snoc; auto.
      rewrite payload_snoc. apply app_nil_r.
    + rewrite completed_files_snoc, app_nil_r by auto. exact F3.
    + rewrite length_insert. exact F4.
    + intros j Hj.
      destruct (decide (j = i)) as [-> | Hne].
      * rewrite list_lookup_insert_eq in Hj by (eapply lookup_lt_Some; eauto).
        discriminate.
      * rewrite list_lookup_insert_ne in Hj by congruence.
        apply not_in_snoc; [auto | discriminate].
    + apply (in_range_snoc _ _ (length (file_events trace)));
        [lia | exact F6 | simpl; auto].
  - (* finish *)
    destruct (src_finished p); [discriminate |]. simplify_eq. simpl.
    destruct (on_finish_keeps rt config s w) as (_ & K2 & _ & _ & K5).
    split; rewrite ?Hfe, ?K2, ?K5; auto.
    + intros i ev o Hev Ho. apply stream_agrees_snoc; auto.
      rewrite payload_snoc. apply app_nil_r.
    + rewrite completed_files_snoc, app_nil_r by auto. exact F3.
    + intros i Hi. apply not_in_snoc; [auto | discriminate].
    + apply (in_range_snoc _ _ (length (file_events trace)));
        [lia | exact F6 | simpl; auto].
  - (* error of the parser *)
    simplify_eq.
    destruct (settle_keeps (Rejected msg) s) as (_ & K2 & _ & _ & _ & K6).
    unfold reject. split; rewrite ?Hfe, ?K2, ?K6; auto.
    + intros i ev o Hev Ho. apply stream_agrees_snoc; auto.
      rewrite payload_snoc. apply app_nil_r.
    + rewrite completed_files_snoc, app_nil_r by auto. exact F3.
    + intros i Hi. apply not_in_snoc; [auto | discriminate].
    + apply (in_range_snoc _ _ (length (file_events trace)));
        [lia | exact F6 | simpl; auto].
Qed.

Lemma files_run rt config trace p w0 :
  source_after trace = Some p ->
  FilesInvariant trace p (fst (run rt config trace (start, w0))).
Proof.
  revert p. induction trace as [| e trace IH] using rev_ind; intros p Hp.
  - unfold source_after in Hp. simpl in Hp. simplify_eq. apply files_start.
  - rewrite source_after_snoc in Hp.
    destruct (source_after trace) as [p0 |] eqn:E; [| discriminate].
    simpl in Hp. rewrite run_snoc. eapply files_step; eauto.
Qed.

(** X11.  Along a well-formed sequence of events the files held are, per
    end of a stream and in the order of the ends, the file of that stream:
    the name, the filename and the type of its file event, and as payload
    all the chunks of the stream in the order of their arrival; a stream
    without a usable filename or without a byte leaves no file. *)
Theorem X11_files_held
    (rt : Runtime) (config : Settings) (trace : list PartEvent) (w0 : World) :
  well_formed trace = true ->
  files (fst (run rt config trace (start, w0))) = completed_files trace.
Proof.
  unfold well_formed.
  destruct (source_after trace) as [p |] eqn:Hp; [| discriminate].
  intros _. exact (fin_files _ _ _ (files_run rt config trace p w0 Hp)).
Qed.

Lemma X11_witness :
  files (fst (run (Sample.runtime (inr Sample.ok_json) Sample.upload)
                Sample.settings Sample.upload (start, quiet)))
  = [ {| fp_name := "resume"; fp_filename := "resume.pdf";
         fp_type := "application/pdf"; fp_buffer := Sample.pdf;
         fp_size := 10 |} ].
Proof.
  exact (X11_files_held (Sample.runtime (inr Sample.ok_json) Sample.upload)
           Sample.settings Sample.upload quiet eq_refl).
Defined.

(** ** Where the settings come from *)

Lemma present_js_or_None x : present (js_or x None) = present x.
Proof. unfold present, js_or. destruct (truthy x) eqn:E; rewrite ?E; reflexivity. Qed.

Lemma settings_of_merged env config :
  settings_of empty_env (merged env config) = settings_of env config.
Proof.
  unfold settings_of, merged. simpl. rewrite !present_js_or_None. reflexivity.
Qed.

Lemma js_or_truthy x y : truthy x = true -> js_or x y = x.
Proof. unfold js_or. intros ->. reflexivity. Qed.

Lemma js_or_falsy x y : truthy x = false -> js_or x y = y.
Proof. unfold js_or. intros ->. reflexivity. Qed.

(** X12.  The handler made from a configuration and an environment is the
    handler made from the merged configuration alone, where each setting is
    the one of the argument when that is a string that is not empty and the
    one of the environment otherwise.  So a handler whose argument has all
    three settings does not look at the environment, and the handler made
    without an argument is the handler made from the environment. *)
Theorem X12_configuration_precedence
    (rt : Runtime) (env : ProcessEnv) (config : Config) (event : LambdaEvent)
    (w : World) :
  createMailerHandler rt env config event w =
    createMailerHandler rt empty_env (merged env config) event w /\
  (truthy (baseUrl config) = true -> truthy (formId config) = true ->
   truthy (apiKey config) = true ->
   forall env', createMailerHandler rt env config event w =
                createMailerHandler rt env' config event w) /\
  handler rt env event w =
    createMailerHandler rt empty_env
      {| baseUrl := env_MAILER_BASE_URL env; formId := env_MAILER_FORM_ID env;
         apiKey := env_MAILER_FORM_API_KEY env |} event w.
Proof.
  assert (Hm : forall env config,
             createMailerHandler rt env config event w =
             createMailerHandler rt empty_env (merged env config) event w).
  { intros env0 config0. unfold createMailerHandler.
    rewrite settings_of_merged. reflexivity. }
  split; [apply Hm |]. split.
  - intros H1 H2 H3 env'. rewrite (Hm env), (Hm env'). f_equal.
    unfold merged. rewrite !js_or_truthy by assumption. reflexivity.
  - unfold handler. rewrite Hm. f_equal.
Qed.

Lemma X12_witness :
  let rt := Sample.runtime (inr Sample.ok_json) [] in
  let event := Sample.post "application/json" (Some (Sample.print Sample.ann)) in
  createMailerHandler rt Sample.no_env Sample.config event quiet =
  createMailerHandler rt sample_env Sample.config event quiet.
Proof.
  exact (proj1 (proj2 (X12_configuration_precedence
                         (Sample.runtime (inr Sample.ok_json) [])
                         Sample.no_env Sample.config
                         (Sample.post "application/json"
                            (Some (Sample.print Sample.ann))) quiet))
           eq_refl eq_refl eq_refl sample_env).
Defined.

(** X13.  The earlier handler, which reads the environment alone, and the
    later handler made without an argument give the same outcome and the
    same effects for every event, unless the method is POST and a setting
    is missing: then both answer 500 without any effect, each with its own
    message. *)
Theorem X13_legacy_handler_agrees
    (rt : Runtime) (env : ProcessEnv) (event : LambdaEvent) (w : World) :
  (httpMethod event <> "POST" \/
   (truthy (env_MAILER_BASE_URL env) = true /\
    truthy (env_MAILER_FORM_ID env) = true /\
    truthy (env_MAILER_FORM_API_KEY env) = true) ->
   legacy_handler rt env event w = handler rt env event w) /\
  (httpMethod event = "POST" ->
   truthy (env_MAILER_BASE_URL env) = false \/
   truthy (env_MAILER_FORM_ID env) = false \/
   truthy (env_MAILER_FORM_API_KEY env) = false ->
   legacy_handler rt env event w =
     (Returns {| statusCode := 500; headers := json_headers;
                 body := JSON_stringify rt
                   (JObj [("success", JBool false);
                          ("error", JStr missing_environment)]) |}, w) /\
   handler rt env event w =
     (Returns {| statusCode := 500; headers := json_headers;
                 body := JSON_stringify rt
                   (JObj [("success", JBool false);
                          ("error", JStr missing_configuration)]) |}, w)).
Proof.
  unfold legacy_handler, handler, createMailerHandler, settings_of. simpl.
  unfold js_or. simpl. split.
  - intros [Hm | (H1 & H2 & H3)].
    + apply String.eqb_neq in Hm. rewrite Hm. reflexivity.
    + destruct (negb (httpMethod event =? "POST")); [reflexivity |].
      unfold present. rewrite H1, H2, H3.
      destruct (env_MAILER_BASE_URL env), (env_MAILER_FORM_ID env),
        (env_MAILER_FORM_API_KEY env); try discriminate. reflexivity.
  - intros Hpost Hmiss. rewrite Hpost. simpl. unfold present.
    destruct Hmiss as [H | [H | H]]; rewrite H;
      repeat case_match; auto.
Qed.

Lemma X13_witness :
  let rt := Sample.runtime (inr Sample.ok_json) Sample.upload in
  let event := Sample.post "multipart/form-data; boundary=xyz" None in
  legacy_handler rt sample_env event quiet = handler rt sample_env event quiet.
Proof.
  exact (proj1 (X13_legacy_handler_agrees
                  (Sample.runtime (inr Sample.ok_json) Sample.upload)
                  sample_env
                  (Sample.post "multipart/form-data; boundary=xyz" None) quiet)
           (or_intror (conj eq_refl (conj eq_refl eq_refl)))).
Defined.

(** * The form helper *)

Section FormHelperFacts.

Import FormHelper.

Variable br : Browser.
Variable formElement : FormElement.
Variable options : Options.

Lemma reported_report (message : string) :
  reported (report options message) =
  if onError options then [message] else [].
Proof. unfold report. destruct (onError options); reflexivity. Qed.

Lemma reported_app (l l' : list Effect) :
  reported (l ++ l') = reported l ++ reported l'.
Proof. unfold reported. apply flat_map_app. Qed.

Lemma requests_app (l l' : list Effect) :
  requests (l ++ l') = requests l ++ requests l'.
Proof. unfold requests. apply flat_map_app. Qed.

Lemma reported_cons (e : Effect) (l : list Effect) :
  reported (e :: l) =
  match e with CalledOnError m => [m] | _ => [] end ++ reported l.
Proof. reflexivity. Qed.

Lemma requests_cons (e : Effect) (l : list Effect) :
  requests (e :: l) =
  match e with Fetched r => [r] | _ => [] end ++ requests l.
Proof. reflexivity. Qed.

Lemma requests_report (message : string) :
  requests (report options message) = [].
Proof. unfold report. destruct (onError options); reflexivity. Qed.

Lemma requests_started :
  requests (if onSubmit options then [CalledOnSubmit] else []) = [].
Proof. destruct (onSubmit options); reflexivity. Qed.

Lemma reported_started :
  reported (if onSubmit options then [CalledOnSubmit] else []) = [].
Proof. destruct (onSubmit options); reflexivity. Qed.

Lemma requests_finished (result : JSON) :
  requests (if onSuccess options then [CalledOnSuccess result] else []) = [].
Proof. destruct (onSuccess options); reflexivity. Qed.

Lemma reported_finished (result : JSON) :
  reported (if onSuccess options then [CalledOnSuccess result] else []) = [].
Proof. destruct (onSuccess options); reflexivity. Qed.

End FormHelperFacts.

(** The seven ways through [submitMailerForm]. *)
#[local] Ltac submit_cases br formElement options :=
  unfold FormHelper.submitMailerForm;
  destruct (truthy (FormHelper.bot_field formElement)) eqn:Hbot;
  [| destruct (FormHelper.too_soon br formElement options) eqn:Hsoon;
     [| destruct (FormHelper.fetch br (FormHelper.request_of formElement options))
          as [e | response] eqn:Hfetch;
        [| destruct (FormHelper.JSON_parse br (res_text response))
             as [e | result'] eqn:Hparse;
           [| destruct (negb (res_ok response)
                        || negb (FormHelper.js_truthy
                                   (FormHelper.get "success" result')))
                eqn:Hno;
              [ destruct (FormHelper.failure_message br result')
                  as [e | message'] eqn:Hmsg |]]]]].

#[local] Ltac log_simpl :=
  repeat first
    [ rewrite requests_app | rewrite reported_app
    | rewrite requests_cons | rewrite reported_cons
    | rewrite requests_report | rewrite reported_report
    | rewrite requests_started | rewrite reported_started
    | rewrite requests_finished | rewrite reported_finished ];
  cbn [FormHelper.requests FormHelper.reported flat_map app].

(** The form after a call. *)
Lemma submit_form_after
    (br : FormHelper.Browser) (formElement : FormHelper.FormElement)
    (options : FormHelper.Options) :
  match FormHelper.submitMailerForm br formElement options with
  | (Normal _, form', _) =>
      FormHelper.lastSubmission form' =
        Some (FormHelper.Number_toString br (FormHelper.Date_now br)) /\
      FormHelper.bot_field form' = FormHelper.bot_field formElement /\
      FormHelper.form_data form' = FormHelper.form_data formElement
  | (Throw _, form', _) => form' = formElement
  end.
Proof. submit_cases br formElement options; cbn; auto. Qed.

(** X14.  [submitMailerForm] returns a result exactly when the honeypot is
    empty, the last submission is not too recent, and the reply is read as
    JSON, has a status from 200 to 299 and a truthy [success]; the result
    is then the parsed reply and the form has the time of the call as its
    last submission.  In every other case the form is left as it was. *)
Theorem X14_returns_exactly_when_accepted
    (br : FormHelper.Browser) (formElement : FormHelper.FormElement)
    (options : FormHelper.Options) :
  (forall result,
     (FormHelper.submitMailerForm br formElement options).1.1 = Normal result <->
     truthy (FormHelper.bot_field formElement) = false /\
     FormHelper.too_soon br formElement options = false /\
     FormHelper.accepted_reply br
       (FormHelper.request_of formElement options) result) /\
  match FormHelper.submitMailerForm br formElement options with
  | (Normal _, form', _) =>
      FormHelper.lastSubmission form' =
        Some (FormHelper.Number_toString br (FormHelper.Date_now br)) /\
      FormHelper.bot_field form' = FormHelper.bot_field formElement /\
      FormHelper.form_data form' = FormHelper.form_data formElement
  | (Throw _, form', _) => form' = formElement
  end.
Proof.
  split.
  - intros result. unfold FormHelper.accepted_reply.
    submit_cases br formElement options; cbn [fst snd]; split.
    all: try discriminate.
    all: try (intros (? & ? & ?); congruence).
    all: try (intros (_ & _ & r & Hr & Hp & Hok & Hs); congruence).
    + intros (_ & _ & r & [= <-] & Hp & Hok & Hs).
      assert (result = result') by congruence. subst result'.
      rewrite Hok, Hs in Hno. discriminate.
    + intros (_ & _ & r & [= <-] & Hp & Hok & Hs).
      assert (result = result') by congruence. subst result'.
      rewrite Hok, Hs in Hno. discriminate.
    + intros [= <-]. repeat split; auto.
      apply orb_false_iff in Hno as [Hok Hs].
      apply negb_false_iff in Hok, Hs.
      exists response. auto.
  - apply submit_form_after.
Qed.

Lemma X14_witness :
  (FormHelper.submitMailerForm
     (FormHelper.sample_browser 1700000000000%float 0%float
        (inr FormHelper.accepted))
     FormHelper.contact_form FormHelper.all_callbacks).1.1 =
  Normal (JObj [("success", JBool true)]).
Proof.
  apply (proj1 (X14_returns_exactly_when_accepted _ _ _)).
  repeat split.
  exists FormHelper.accepted. repeat split.
Defined.

(** X15.  A call that the honeypot or the rate limit refuses sends nothing
    and calls neither [onSubmit] nor [onSuccess]; every other call calls
    [onSubmit], when there is one, and then sends one request, a POST of
    the entries of the form to the endpoint, whatever the reply. *)
Theorem X15_one_request_unless_refused
    (br : FormHelper.Browser) (formElement : FormHelper.FormElement)
    (options : FormHelper.Options) :
  let log := (FormHelper.submitMailerForm br formElement options).2 in
  if truthy (FormHelper.bot_field formElement)
     || FormHelper.too_soon br formElement options
  then
    log = FormHelper.report options
            (if truthy (FormHelper.bot_field formElement)
             then "Spam detected"
             else "Please wait before submitting again")
  else
    FormHelper.requests log =
      [ {| FormHelper.url :=
             default "/.netlify/functions/submit-contact"
               (FormHelper.endpoint options);
           FormHelper.method := "POST";
           FormHelper.body := FormHelper.form_data formElement |} ] /\
    exists rest,
      log = (if FormHelper.onSubmit options
             then [FormHelper.CalledOnSubmit] else [])
            ++ FormHelper.Fetched (FormHelper.request_of formElement options)
            :: rest /\
      ~ In FormHelper.CalledOnSubmit rest.
Proof.
  assert (Hrep : forall m, ~ In FormHelper.CalledOnSubmit
                             (FormHelper.report options m)).
  { intros m. unfold FormHelper.report.
    destruct (FormHelper.onError options); simpl; intuition discriminate. }
  submit_cases br formElement options; cbn [orb snd fst]; auto;
    (split; [ log_simpl; reflexivity |]);
    eexists; (split; [ reflexivity |]);
    rewrite ?in_app_iff; try apply Hrep.
  - intros [H | H]; eapply Hrep; exact H.
  - destruct (FormHelper.onSuccess options); simpl; intuition discriminate.
Qed.

Lemma X15_witness :
  FormHelper.requests
    (FormHelper.submitMailerForm
       (FormHelper.sample_browser 1700000000000%float 0%float
          (inl "Failed to fetch"))
       FormHelper.contact_form FormHelper.all_callbacks).2 =
  [ {| FormHelper.url := "/.netlify/functions/submit-contact";
       FormHelper.method := "POST";
       FormHelper.body :=
         [("name", FormHelper.TextValue "Ann");
          ("message", FormHelper.TextValue "hi")] |} ].
Proof.
  exact (proj1 (X15_one_request_unless_refused
                  (FormHelper.sample_browser 1700000000000%float 0%float
                     (inl "Failed to fetch"))
                  FormHelper.contact_form FormHelper.all_callbacks)).
Defined.

(** X16.  [onError] gets the error that the call throws and no other: it
    is never called when the call returns, called twice with the same
    error when the reply was read and turned down (once before the throw
    and once more by the [catch] around it), and called once for every
    other failure. *)
Theorem X16_errors_reported
    (br : FormHelper.Browser) (formElement : FormHelper.FormElement)
    (options : FormHelper.Options) (c : Completion JSON)
    (form' : FormHelper.FormElement) (log : list FormHelper.Effect) :
  FormHelper.submitMailerForm br formElement options = (c, form', log) ->
  match c with
  | Normal _ => FormHelper.reported log = []
  | Throw message =>
      (FormHelper.onError options = false /\ FormHelper.reported log = []) \/
      (FormHelper.onError options = true /\
       FormHelper.turned_down br formElement options message /\
       FormHelper.reported log = [message; message]) \/
      (FormHelper.onError options = true /\
       ~ FormHelper.turned_down br formElement options message /\
       FormHelper.reported log = [message])
  end.
Proof.
  unfold FormHelper.turned_down, FormHelper.rejected_reply.
  submit_cases br formElement options; intros [= <- <- <-]; log_simpl;
    try (destruct (FormHelper.onError options); [right; right | left];
         (split; [reflexivity |]); [split; [| reflexivity] | reflexivity];
         first [ intros (? & ? & ?); congruence
               | intros (_ & _ & r & j & ? & ? & ?); congruence
               | intros (_ & _ & r & j & ? & ? & ? & ?); congruence ]).
  - destruct (FormHelper.onError options); [right; left | left]; auto.
    split; [reflexivity |]. split; [| reflexivity].
    repeat split; auto. exists response, result'. repeat split; auto.
    apply orb_true_iff in Hno as [H | H]; apply negb_true_iff in H; auto.
  - reflexivity.
Qed.

Lemma X16_witness :
  FormHelper.reported
    (FormHelper.submitMailerForm
       (FormHelper.sample_browser 1700000000000%float 0%float
          (inr FormHelper.refused))
       FormHelper.contact_form FormHelper.all_callbacks).2 =
  ["Form not found"; "Form not found"].
Proof.
  pose proof (X16_errors_reported
                (FormHelper.sample_browser 1700000000000%float 0%float
                   (inr FormHelper.refused))
                FormHelper.contact_form FormHelper.all_callbacks
                _ _ _ eq_refl) as H.
  cbv beta iota in H.
  destruct H as [[H _] | [(_ & _ & H) | (_ & H & _)]].
  - discriminate H.
  - exact H.
  - exfalso. apply H. repeat split.
    exists FormHelper.refused,
      (JObj [("success", JBool false); ("error", JStr "Form not found")]).
    repeat split. left. reflexivity.
Defined.

(** X17.  After a submission that returned, a second submission of the
    same form is refused with 'Please wait before submitting again', and
    sends nothing, when it comes before the interval is over: the clock
    of the second call minus the time of the first is below
    [minSubmissionInterval] (5000 when it is not given).  The time of the
    first call has to come back from [parseInt] as it went into
    [toString], as is the case for a time in milliseconds. *)
Theorem X17_resubmission_refused
    (br br' : FormHelper.Browser) (formElement form' : FormHelper.FormElement)
    (options options' : FormHelper.Options) (result : JSON)
    (log : list FormHelper.Effect) :
  FormHelper.submitMailerForm br formElement options
    = (Normal result, form', log) ->
  FormHelper.Number_toString br (FormHelper.Date_now br) <> EmptyString ->
  FormHelper.parseInt br'
    (FormHelper.Number_toString br (FormHelper.Date_now br))
    = FormHelper.Date_now br ->
  PrimFloat.ltb
    (PrimFloat.sub (FormHelper.Date_now br') (FormHelper.Date_now br))
    (default 5000%float (FormHelper.minSubmissionInterval options')) = true ->
  FormHelper.submitMailerForm br' form' options' =
    (Throw "Please wait before submitting again", form',
     FormHelper.report options' "Please wait before submitting again").
Proof.
  intros Hfirst Hne Hread Hlt0.
  pose proof (submit_form_after br formElement options) as Hform.
  rewrite Hfirst in Hform. destruct Hform as (Hlast & Hsame & _).
  assert (Hquiet : truthy (FormHelper.bot_field formElement) = false).
  { revert Hfirst. submit_cases br formElement options; congruence. }
  unfold FormHelper.submitMailerForm.
  rewrite Hsame, Hquiet.
  assert (Hsoon : FormHelper.too_soon br' form' options' = true).
  { unfold FormHelper.too_soon. rewrite Hlast.
    change (default EmptyString
              (Some (FormHelper.Number_toString br (FormHelper.Date_now br))))
      with (FormHelper.Number_toString br (FormHelper.Date_now br)).
    rewrite Hread, Hlt0.
    destruct (FormHelper.Number_toString br (FormHelper.Date_now br));
      [congruence | reflexivity]. }
  rewrite Hsoon. reflexivity.
Qed.

Lemma X17_witness :
  FormHelper.submitMailerForm
    (FormHelper.sample_browser 1700000003000%float 1700000000000%float
       (inr FormHelper.accepted))
    {| FormHelper.bot_field := Some EmptyString;
       FormHelper.lastSubmission := Some "1700000000000";
       FormHelper.form_data :=
         [("name", FormHelper.TextValue "Ann");
          ("message", FormHelper.TextValue "hi")] |}
    FormHelper.all_callbacks =
  (Throw "Please wait before submitting again",
   {| FormHelper.bot_field := Some EmptyString;
      FormHelper.lastSubmission := Some "1700000000000";
      FormHelper.form_data :=
        [("name", FormHelper.TextValue "Ann");
         ("message", FormHelper.TextValue "hi")] |},
   [FormHelper.CalledOnError "Please wait before submitting again"]).
Proof.
  apply (X17_resubmission_refused
           (FormHelper.sample_browser 1700000000000%float 0%float
              (inr FormHelper.accepted))
           (FormHelper.sample_browser 1700000003000%float 1700000000000%float
              (inr FormHelper.accepted))
           FormHelper.contact_form _
           FormHelper.all_callbacks FormHelper.all_callbacks
           (JObj [("success", JBool true)])
           [FormHelper.CalledOnSubmit;
            FormHelper.Fetched
              (FormHelper.request_of FormHelper.contact_form
                 FormHelper.all_callbacks);
            FormHelper.CalledOnSuccess (JObj [("success", JBool true)])]).
  - reflexivity.
  - discriminate.
  - reflexivity.
  - vm_compute. reflexivity.
Defined.

(** * The method check *)

(** X18.  A request that is not a POST is answered with 405 and
    'Method not allowed' before the configuration and the body are looked
    at; and whenever an invocation sends something to the mailer or writes
    to the log, the request was a POST and the three settings were there. *)
Theorem X18_only_post_reaches_the_mailer
    (rt : Runtime) (env : ProcessEnv) (config : Config)
    (event : LambdaEvent) (w : World) :
  (httpMethod event <> "POST" ->
   createMailerHandler rt env config event w =
     (Returns {| statusCode := 405;
                 headers := json_headers;
                 body := JSON_stringify rt
                   (JObj [("error", JStr "Method not allowed")]) |}, w)) /\
  (snd (createMailerHandler rt env config event w) <> w ->
   httpMethod event = "POST" /\
   exists settings, settings_of env config = Some settings).
Proof.
  unfold createMailerHandler.
  destruct (String.eqb_spec (httpMethod event) "POST") as [E | E];
    cbn [negb].
  - split; [congruence |].
    destruct (settings_of env config) as [settings |]; cbn [snd].
    + intros _. eauto.
    + congruence.
  - split; [reflexivity |]. cbn [snd]. congruence.
Qed.

Lemma X18_witness :
  createMailerHandler (Sample.runtime (inr Sample.ok_json) []) Sample.no_env
    Sample.config
    {| httpMethod := "GET"; ev_headers := ∅; ev_body := None;
       isBase64Encoded := false |} quiet =
  (Returns {| statusCode := 405;
              headers := json_headers;
              body := Sample.print
                (JObj [("error", JStr "Method not allowed")]) |}, quiet).
Proof.
  apply (proj1 (X18_only_post_reaches_the_mailer
                  (Sample.runtime (inr Sample.ok_json) []) Sample.no_env
                  Sample.config
                  {| httpMethod := "GET"; ev_headers := ∅; ev_body := None;
                     isBase64Encoded := false |} quiet)).
  discriminate.
Defined.

(** * A stream that fails, and the parser that fails with it *)

Lemma emit_none_fold more :
  fold_left (fun p e => p ≫= emit e) more None = None.
Proof. induction more as [| e more IH]; [reflexivity | exact IH]. Qed.

(** Once the source has finished and every stream with listeners has
    ended, it opens no stream and fails no stream with listeners. *)
Lemma sealed_fold (flags : list bool) post p q :
  src_finished p = true ->
  (forall j, flags !! j = Some true -> src_streams p !! j = Some Ended) ->
  fold_left (fun p e => p ≫= emit e) post (Some p) = Some q ->
  Forall (fun e => match e with
                   | OnFile _ _ _ => False
                   | OnFileError j _ => flags !! j <> Some true
                   | _ => True
                   end) post.
Proof.
  revert p. induction post as [| e post IH]; intros p Hf Hs Hq; constructor.
  - destruct e as [n v | n f t | j c | j | j m | | m]; simpl; auto.
    + simpl in Hq. rewrite Hf in Hq. rewrite emit_none_fold in Hq. discriminate.
    + intros Hj. simpl in Hq. rewrite (Hs j Hj) in Hq.
      rewrite emit_none_fold in Hq. discriminate.
  - simpl in Hq. destruct (emit e p) as [p' |] eqn:E;
      [| rewrite emit_none_fold in Hq; discriminate].
    apply (IH p'); auto.
    + destruct e as [n v | n f t | j c | j | j m | | m]; simpl in E;
        rewrite ?Hf in E; repeat case_match; simplify_eq; simpl; auto.
    + intros j Hj. specialize (Hs j Hj).
      destruct e as [n v | n f t | k c | k | k m | | m]; simpl in E;
        rewrite ?Hf in E; repeat case_match; simplify_eq; simpl; auto;
        (rewrite list_lookup_insert_ne; [exact Hs | congruence]).
Qed.

Lemma ready_sealed trace p :
  source_after trace = Some p -> ready trace = true ->
  src_finished p = true /\
  forall j, usable_files trace !! j = Some true ->
            src_streams p !! j = Some Ended.
Proof.
  intros Hp Hr.
  pose proof (invariant_run (Sample.runtime (inl EmptyString) []) Sample.settings
                (fun _ => True) eq_refl (fun _ _ _ => I) quiet trace p Hp) as Inv.
  unfold ready in Hr. apply andb_true_iff in Hr as [Hf Hd].
  apply Nat.eqb_eq in Hd. split.
  - rewrite (inv_src_finished _ _ _ _ _ _ Inv). exact Hf.
  - intros j Hj.
    assert (Hlt : j < length (src_streams p)).
    { rewrite (inv_statuses _ _ _ _ _ _ Inv). eapply lookup_lt_Some; eauto. }
    destruct (lookup_lt_is_Some_2 _ _ Hlt) as [st Hst].
    destruct st; auto; exfalso;
      pose proof (count_ended_lt _ _ _ _ Hj Hst ltac:(discriminate)) as Hc;
      rewrite <- (inv_drained _ _ _ _ _ _ Inv), <- opened_eq in Hc; lia.
Qed.

Lemma usable_files_none l :
  Forall (fun e => match e with
                   | OnFile _ _ _ => False
                   | _ => True
                   end) l ->
  usable_files l = [].
Proof.
  induction 1 as [| e l He _ IH]; [reflexivity |].
  destruct e; simpl in *; auto; contradiction.
Qed.

(** The source after a failure of the stream [i] has it as failed. *)
Lemma failure_recorded trace i message more p :
  source_after (trace ++ OnFileError i message :: more) = Some p ->
  src_streams p !! i = Some Failed /\
  exists p0, source_after trace = Some p0 /\
             src_streams p0 !! i = Some Flowing.
Proof.
  intros Hq.
  assert (Hq' : source_after ((trace ++ [OnFileError i message]) ++ more) = Some p)
    by (rewrite <- app_assoc; exact Hq).
  destruct (source_after_prefix _ _ _ Hq') as [p1 Hp1].
  destruct (source_after_prefix _ _ _ Hp1) as [p0 Hp0].
  rewrite source_after_snoc, Hp0 in Hp1. simpl in Hp1.
  destruct (src_streams p0 !! i) as [[] |] eqn:E; try discriminate.
  simplify_eq. split.
  - rewrite source_after_app, source_after_snoc, Hp0 in Hq'. simpl in Hq'.
    rewrite E in Hq'. eapply failed_stays; [exact Hq' |].
    simpl. apply list_lookup_insert_eq. eapply lookup_lt_Some; eauto.
  - exists p0. auto.
Qed.

(** A sequence in which a stream with listeners fails is complete at no
    point. *)
Lemma never_ready trace i message more pre post :
  well_formed (trace ++ OnFileError i message :: more) = true ->
  usable_files trace !! i = Some true ->
  trace ++ OnFileError i message :: more = pre ++ post ->
  ready pre = false.
Proof.
  intros Hwf Hu Hsplit.
  destruct (ready pre) eqn:Hr; [exfalso | reflexivity].
  unfold well_formed in Hwf.
  destruct (source_after (trace ++ OnFileError i message :: more)) as [q |] eqn:Hq;
    [| discriminate].
  assert (Hq' : source_after (pre ++ post) = Some q) by (rewrite <- Hsplit; exact Hq).
  destruct (source_after_prefix _ _ _ Hq') as [p Hp].
  destruct (ready_sealed pre p Hp Hr) as [Hfin Hended].
  rewrite source_after_app, Hp in Hq'.
  pose proof (sealed_fold (usable_files pre) post p q Hfin Hended Hq') as Hpost.
  apply app_eq_app in Hsplit as [l [[-> ->] | [-> Hl]]].
  - apply Forall_app in Hpost as [Hl Hrest].
    apply Forall_cons_iff in Hrest as [Hi _]. simpl in Hi. apply Hi.
    assert (Hnone : usable_files l = []).
    { apply usable_files_none. eapply Forall_impl; [exact Hl |].
      intros [] ?; simpl in *; auto. }
    rewrite usable_files_app, Hnone, app_nil_r in Hu. exact Hu.
  - destruct l as [| e l].
    + simpl in Hl. subst post. rewrite app_nil_r in *.
      apply Forall_cons_iff in Hpost as [Hi _]. simpl in Hi. auto.
    + simpl in Hl. injection Hl as <- Hmore.
      destruct (failure_recorded trace i message l p Hp) as [Hfail _].
      assert (Hup : usable_files (trace ++ OnFileError i message :: l) !! i
                    = Some true).
      { rewrite usable_files_app. apply lookup_app_l_Some. exact Hu. }
      pose proof (failed_blocks _ p i Hp Hup Hfail) as Hnr.
      congruence.
Qed.

Lemma first_parser_error trace reason :
  head (parser_errors trace) = Some reason ->
  exists pre post, trace = pre ++ OnError reason :: post /\ parses pre = true.
Proof.
  induction trace as [| e trace IH]; [discriminate |].
  destruct e as [n v | n f t | j c | j | j m | | m];
    try (intros H; destruct (IH H) as (pre & post & -> & Hp);
         eexists (_ :: pre), post; split; [reflexivity | exact Hp]).
  simpl. intros [= ->]. exists [], trace. auto.
Qed.

(** A stream that has failed does not end. *)
Lemma failed_never_ends more p q i :
  fold_left (fun p e => p ≫= emit e) more (Some p) = Some q ->
  src_streams p !! i = Some Failed -> ~ In (OnEnd i) more.
Proof.
  revert p. induction more as [| e more IH]; intros p Hq Hi; [simpl; tauto |].
  simpl in Hq. destruct (emit e p) as [p' |] eqn:E;
    [| rewrite emit_none_fold in Hq; discriminate].
  intros [-> | Hin].
  - simpl in E. rewrite Hi in E. discriminate.
  - eapply IH; eauto. eapply emit_keeps_failed; eauto.
Qed.


